(** * brcm_bt.py: HCI transport engine, memory access layer and LMP monitor

    A shallow embedding of [tools/brcm_bt_debugtool/brcm_bt/brcm_bt.py]
    (class [BrcmBt]) and the properties its specification states about it.

    Python values are modelled as the code uses them: byte strings are
    [list byte], integers are [Z], [Queue.Queue] is a bounded FIFO, an
    exception is an explicit outcome.  The worker threads are modelled by
    the transitions they perform on the shared object. *)

From Stdlib Require Import ZArith Lia.
From Stdlib Require Import Strings.Byte.
From stdpp Require Import base option list gmap sorting.

Local Open Scope Z_scope.

(** ** Python byte strings and the pwnlib packers *)

Module Py.

Definition bytes := list byte.

#[export] Instance byte_eq_dec : EqDecision byte := Byte.byte_eq_dec.

(** [ord(c)] for a one-character string. *)
Definition ord (b : byte) : Z := Z.of_N (Byte.to_N b).

(** The character whose code is the low eight bits of [z]. *)
Definition chr (z : Z) : byte :=
  default x00 (Byte.of_N (Z.to_N (z mod 256))).

Fixpoint le_bytes (w : nat) (z : Z) : bytes :=
  match w with
  | O => []
  | S w' => chr z :: le_bytes w' (z / 256)
  end.

Fixpoint le_value (bs : bytes) : Z :=
  match bs with
  | [] => 0
  | b :: bs' => ord b + 256 * le_value bs'
  end.

(** The exceptions the modelled code can meet. *)
Inductive exn :=
| StructError      (* struct.error: number out of range, wrong length *)
| TypeError        (* None subscripted, str given to %x, None + str   *)
| IndexError       (* string index out of range                      *)
| KeyError         (* table without that key                         *)
| OverflowError.   (* date value out of range                        *)

(** pwnlib's [p8], [p16], [p32] are [struct.pack('<B' | '<H' | '<I', n)]:
    little-endian, and [struct.error] when [n] does not fit. *)
Definition pack (w : nat) (n : Z) : option bytes :=
  if decide (0 <= n < 2 ^ (8 * Z.of_nat w)) then Some (le_bytes w n) else None.

Definition p8 : Z -> option bytes := pack 1.
Definition p16 : Z -> option bytes := pack 2.
Definition p32 : Z -> option bytes := pack 4.

(** pwnlib's [u8], [u32] are [struct.unpack]: the string must have exactly
    the width of the format. *)
Definition unpack (w : nat) (s : bytes) : option Z :=
  if decide (length s = w) then Some (le_value s) else None.

Definition u8 : bytes -> option Z := unpack 1.
Definition u32 : bytes -> option Z := unpack 4.

(** [s[lo:hi]] and [s[lo:]]: indices are clamped, negative ones count from
    the end; a slice never raises. *)
Definition clamp (len i : Z) : Z :=
  if decide (i < 0) then Z.max (i + len) 0 else Z.min i len.

Definition slice {A} (s : list A) (lo hi : Z) : list A :=
  let len := Z.of_nat (length s) in
  let a := clamp len lo in
  let b := clamp len hi in
  take (Z.to_nat (b - a)) (drop (Z.to_nat a) s).

Definition slice_from {A} (s : list A) (lo : Z) : list A :=
  drop (Z.to_nat (clamp (Z.of_nat (length s)) lo)) s.

(** [range(0, n, step)] for a positive step. *)
Definition range_step (n step : Z) : list Z :=
  (fun k => Z.of_nat k * step) <$> seq 0 (Z.to_nat ((n + step - 1) / step)).

(** ["...%x..." % v]: the conversion accepts a number and raises
    [TypeError] for a string. *)
Inductive fmtarg :=
| FInt (n : Z)
| FStr (s : bytes).

Definition format_x (v : fmtarg) : option Z :=
  match v with
  | FInt n => Some n
  | FStr _ => None
  end.

(** [list.sort(key=...)]: a stable sort, here by insertion.  Stability
    fixes the result, so any stable algorithm gives the same list. *)
Fixpoint insert_by {A} (key : A -> Z) (x : A) (l : list A) : list A :=
  match l with
  | [] => [x]
  | y :: l' => if decide (key y <= key x) then y :: insert_by key x l'
               else x :: l
  end.

Definition sort_by {A} (key : A -> Z) (l : list A) : list A :=
  foldl (fun acc x => insert_by key x acc) [] l.

End Py.
Export Py.

(** ** Queue.Queue (Python 2.7) *)

Module PyQueue.

Record Queue (A : Type) := mkQueue { maxsize : Z; items : list A }.
Arguments mkQueue {A} _ _.
Arguments maxsize {A} _.
Arguments items {A} _.

Definition new {A} (maxsize : Z) : Queue A := mkQueue maxsize [].

Definition qsize {A} (q : Queue A) : Z := Z.of_nat (length (items q)).

(** [full()] is [0 < self.maxsize == self._qsize()]. *)
Definition full {A} (q : Queue A) : bool :=
  bool_decide (0 < maxsize q) && bool_decide (maxsize q = qsize q).

(** [put(x, block=False)]: [None] stands for [Queue.Full]. *)
Definition put_nowait {A} (x : A) (q : Queue A) : option (Queue A) :=
  if bool_decide (0 < maxsize q) && bool_decide (qsize q = maxsize q)
  then None
  else Some (mkQueue (maxsize q) (items q ++ [x])).

(** [get(block=False)]: [None] stands for [Queue.Empty]. *)
Definition get_nowait {A} (q : Queue A) : option (A * Queue A) :=
  match items q with
  | [] => None
  | x :: rest => Some (x, mkQueue (maxsize q) rest)
  end.

(** [try: while True: q.get(block=False) except Queue.Empty: pass].
    The loop removes one element per round; the fuel is the queue's
    length, which is the number of rounds it makes. *)
Fixpoint drain_loop {A} (fuel : nat) (q : Queue A) : Queue A :=
  match fuel with
  | O => q
  | S fuel' =>
      match get_nowait q with
      | None => q
      | Some (_, q') => drain_loop fuel' q'
      end
  end.

Definition drain {A} (q : Queue A) : Queue A :=
  drain_loop (S (length (items q))) q.

End PyQueue.
Export PyQueue.

(** ** Outcomes of a Python computation *)

Inductive result (A : Type) :=
| Ret (a : A)          (* the call returns *)
| Raise (e : exn)      (* an exception leaves the call *)
| Diverge.             (* the loop is still running when the fuel ends *)
Arguments Ret {A} _.
Arguments Raise {A} _.
Arguments Diverge {A}.

Definition rbind {A B} (r : result A) (k : A -> result B) : result B :=
  match r with
  | Ret a => k a
  | Raise e => Raise e
  | Diverge => Diverge
  end.

(** [or_raise e o]: the value of a partial library call, or its exception. *)
Definition or_raise {A} (e : exn) (o : option A) : result A :=
  match o with
  | Some a => Ret a
  | None => Raise e
  end.

(** ** datetime arithmetic as [_parse_time] uses it *)

Module Datetime.

Definition us_per_day : Z := 86400 * 1000000.

(** A [timedelta], as its total number of microseconds.  Python keeps it
    normalised as (days, seconds, microseconds) and raises
    [OverflowError] when the magnitude of [days] exceeds 999999999. *)
Record timedelta := mkDelta { total_us : Z }.

Definition timedelta_of (us : Z) : result timedelta :=
  let days := us / us_per_day in
  if decide (-999999999 <= days <= 999999999) then Ret (mkDelta us)
  else Raise OverflowError.

Definition timedelta_sub (a b : timedelta) : result timedelta :=
  timedelta_of (total_us a - total_us b).

(** A [datetime], as microseconds since 0001-01-01 00:00:00.  The last
    representable day is 9999-12-31, ordinal 3652059. *)
Record datetime := mkDatetime { since_year1 : Z }.

Definition max_ordinal : Z := 3652059.

(** [datetime(2000, 1, 1)], ordinal 730120. *)
Definition datetime_2000_1_1 : datetime := mkDatetime (730119 * us_per_day).

Definition datetime_add (d : datetime) (t : timedelta) : result datetime :=
  let us := since_year1 d + total_us t in
  if decide (0 <= us < max_ordinal * us_per_day) then Ret (mkDatetime us)
  else Raise OverflowError.

End Datetime.
Export Datetime.

(** [BrcmBt._parse_time] *)
Definition _parse_time (time : Z) : result datetime :=
  let time_betw_0_and_2000_ad := 0x00E03AB44A676000 in
  rbind (timedelta_of time) (fun a =>
  rbind (timedelta_of time_betw_0_and_2000_ad) (fun b =>
  rbind (timedelta_sub a b) (fun time_since_2000_epoch =>
  datetime_add datetime_2000_1_1 time_since_2000_epoch))).

(** ** HCI packets *)

(** Modelled from the spec: the module [hci] is not part of the sources; an
    HCI frame is a tagged record of one of four variants. *)
Inductive HCI_packet :=
| HCI_Cmd (opcode : Z) (payload : bytes)
| HCI_Event (event_code : Z) (data : bytes)
| HCI_Acl (handle : Z) (flags : Z) (data : bytes)
| HCI_Sco (handle : Z) (data : bytes).

(** Modelled from the spec: [hci.HCI.HCI_CMD], the UART type of a command
    frame, is 0x01. *)
Definition HCI_CMD : Z := 0x01.

(** The tuple the receive thread builds for every snoop record. *)
Record record := mkRecord {
  rec_pkt : HCI_packet;
  rec_orig_len : Z;
  rec_inc_len : Z;
  rec_flags : Z;
  rec_drops : Z;
  rec_time : option datetime
}.

(** ** Log *)

Inductive level := DEBUG | INFO | WARN | CRITICAL.

(** One constructor per [log.*] call site of the modelled code. *)
Inductive logmsg :=
| Log_recv (r : record)                (* debug: "Recv: [time] packet" *)
| Log_recv_flush                       (* debug: recv queue is full. flushing.. *)
| Log_recv_drop                        (* warn: recv queue is full. dropping packets.. *)
| Log_sendrecv_drop                    (* warn: sendThread recv queue is full. dropping packets.. *)
| Log_stack_dump                       (* warn: The controller send a stack dump. stopping.. *)
| Log_send (out : bytes)               (* debug: _sendThreadFunc: Send: ... *)
| Log_not_running                      (* warn: Not running. call connect() first! *)
| Log_shutdown                         (* info: Shutdown complete. *)
| Log_readMem_status (status : Z)      (* warning: readMem: [TODO] Got status != 0 *)
| Log_error_code (code : Z)            (* warn: Got error code %x in command complete event. *)
| Log_patch_size                       (* warn: patchRom: patch must be a 32-bit dword! *)
| Log_slot_in_use (slot : Z)           (* warn: Slot %d is already in use. Overwriting... *)
| Log_monitor_poll (last cur : Z) (entries : list (Z * bytes))   (* info *)
| Log_connection_addresses (addrs : list (Z * bytes))            (* info *)
| Log_dropped (n : Z)                  (* warn: monitorThread: Dropped %d packets! *)
| Log_old_packet (index last : Z).     (* warn: monitorThread: Error, got an old packet *)

Definition level_of (m : logmsg) : level :=
  match m with
  | Log_recv _ | Log_recv_flush | Log_send _ => DEBUG
  | Log_shutdown | Log_monitor_poll _ _ _ | Log_connection_addresses _ => INFO
  | _ => WARN
  end.

(** ** The receive thread: one record, from parsing to the queues *)

Section Receive.

(** [hci.parse_hci_packet] and [hci.StackDumpReceiver] are external. *)
Variable parse_hci_packet : bytes -> HCI_packet.
Variable StackDumpReceiver : Type.
Variable sd_recvPacket : HCI_packet -> StackDumpReceiver -> bool * StackDumpReceiver.

Record RecvState := mkRecv {
  recvQueue : Queue record;
  sendThreadrecvQueue : Queue record;
  sendThread_alive : bool;     (* self.sendThread != None and self.sendThread.isAlive() *)
  exit_requested : bool;
  stackDumpReceiver : StackDumpReceiver;
  recv_log : list logmsg
}.

(** [try: parsed_time = self._parse_time(time64)
     except OverflowError: parsed_time = None] *)
Definition try_parse_time (time64 : Z) : result (option datetime) :=
  match _parse_time time64 with
  | Ret t => Ret (Some t)
  | Raise OverflowError => Ret None
  | Raise e => Raise e
  | Diverge => Diverge
  end.

(** Lines 181 to 186 of [_recvThreadFunc]: the tuple built from a record
    whose header and data have been received. *)
Definition recv_record (record_data : bytes)
    (orig_len inc_len flags drops time64 : Z) : result record :=
  rbind (try_parse_time time64) (fun parsed_time =>
  Ret (mkRecord (parse_hci_packet record_data)
                orig_len inc_len flags drops parsed_time)).

(** Lines 188 to 213: the record is logged, put on both queues and shown
    to the stack dump receiver. *)
Definition recv_enqueue (rec : record) (s : RecvState) : RecvState :=
  let log := recv_log s ++ [Log_recv rec] in
  (* if self.recvQueue.full(): flush *)
  let '(q1, log) :=
    if full (recvQueue s)
    then (drain (recvQueue s), log ++ [Log_recv_flush])
    else (recvQueue s, log) in
  (* self.recvQueue.put(record, block=False) *)
  let '(q1, log) :=
    match put_nowait rec q1 with
    | Some q1' => (q1', log)
    | None => (q1, log ++ [Log_recv_drop])
    end in
  (* the send thread's private queue *)
  let '(q2, log) :=
    if sendThread_alive s then
      match put_nowait rec (sendThreadrecvQueue s) with
      | Some q2' => (q2', log)
      | None => (sendThreadrecvQueue s, log ++ [Log_sendrecv_drop])
      end
    else (sendThreadrecvQueue s, log) in
  (* stackDumpReceiver.recvPacket(record[0]) *)
  let '(dump, sd) := sd_recvPacket (rec_pkt rec) (stackDumpReceiver s) in
  let '(exit, log) :=
    if dump then (true, log ++ [Log_stack_dump])
    else (exit_requested s, log) in
  mkRecv q1 q2 (sendThread_alive s) exit sd log.

Definition recv_ingest (record_data : bytes)
    (orig_len inc_len flags drops time64 : Z) (s : RecvState)
    : result RecvState :=
  rbind (recv_record record_data orig_len inc_len flags drops time64)
        (fun rec => Ret (recv_enqueue rec s)).

End Receive.

Arguments recvQueue {_} _.
Arguments sendThreadrecvQueue {_} _.
Arguments sendThread_alive {_} _.
Arguments exit_requested {_} _.
Arguments stackDumpReceiver {_} _.
Arguments recv_log {_} _.
Arguments mkRecv {_} _ _ _ _ _ _.
Arguments recv_enqueue {_} _ _ _.
Arguments recv_ingest _ {_} _ _ _ _ _ _ _ _.

(** ** The send thread and the callers of [sendHciCommand] *)

(** The tuple [(opcode, data, queue)] put on [sendQueue].  [queue] is a
    reference to the [Queue.Queue(1)] object the caller created: the caller
    and the send thread share that object. *)
Record task := mkTask { task_opcode : Z; task_data : bytes; task_queue : nat }.

(** Lines 236 to 240 of [_sendThreadFunc]: the bytes written to the inject
    socket. *)
Definition build_frame (opcode : Z) (data : bytes) : result bytes :=
  rbind (or_raise StructError (p16 opcode)) (fun op =>
  rbind (or_raise StructError (p8 (Z.of_nat (length data)))) (fun plen =>
  let payload := op ++ plen ++ data in
  (* Prepend UART TYPE and length *)
  rbind (or_raise StructError (p8 HCI_CMD)) (fun ty =>
  rbind (or_raise StructError (p16 (Z.of_nat (length payload)))) (fun len =>
  Ret (ty ++ len ++ payload))))).

(** Lines 249 to 254: the test a received record must pass to be the
    response of the command in flight; its value is what is put on the
    caller's queue. *)
Definition is_response (opcode : Z) (r : record) : option bytes :=
  match rec_pkt r with
  | HCI_Event event_code data =>
      if decide (event_code = 0x0e) then
        if decide (Some (slice data 1 3) = p16 opcode) then Some data
        else None
      else None
  | _ => None
  end.

(** Where the send thread is in its loop. *)
Inductive sender :=
| AtTop                 (* in the outer loop, flushing its private queue *)
| Flushed               (* the private queue found empty, in [sendQueue.get] *)
| Waiting (t : task)    (* in the inner loop, the frame of [t] written *)
| Crashed (e : exn).    (* left by an exception *)

Section Transport.

Variable parse_hci_packet : bytes -> HCI_packet.
Variable StackDumpReceiver : Type.
Variable sd_recvPacket : HCI_packet -> StackDumpReceiver -> bool * StackDumpReceiver.

Record Pipeline := mkPipeline {
  rx : RecvState StackDumpReceiver;       (* queues filled by the receive thread *)
  sendQueue : Queue task;
  slots : gmap nat (Queue bytes);         (* the Queue(1) objects of the callers *)
  s_inject : list bytes;                  (* frames written, oldest first *)
  sender_pc : sender;
  (* history, for the statements only *)
  snoop_seen : list record;               (* records received so far *)
  sent_by : gmap nat Z;                   (* the opcode each caller passed *)
  returned : list (nat * bytes)           (* what each [queue.get] returned *)
}.

Definition with_secondary (q : Queue record) (s : RecvState StackDumpReceiver)
    : RecvState StackDumpReceiver :=
  mkRecv (recvQueue s) q (sendThread_alive s) (exit_requested s)
         (stackDumpReceiver s) (recv_log s).

Definition with_alive (b : bool) (s : RecvState StackDumpReceiver)
    : RecvState StackDumpReceiver :=
  mkRecv (recvQueue s) (sendThreadrecvQueue s) b (exit_requested s)
         (stackDumpReceiver s) (recv_log s).

(** The session after [connect()]: empty queues, both threads started. *)
Definition connected (queue_size : Z) (sd : StackDumpReceiver) : Pipeline :=
  mkPipeline (mkRecv (new queue_size) (new queue_size) true false sd [])
             (new queue_size) ∅ [] AtTop [] ∅ [].

(** The receive thread takes a record from the snoop socket. *)
Definition on_record (rec : record) (p : Pipeline) : Pipeline :=
  mkPipeline (recv_enqueue sd_recvPacket rec (rx p))
             (sendQueue p) (slots p) (s_inject p) (sender_pc p)
             (snoop_seen p ++ [rec]) (sent_by p) (returned p).

(** [sendHciCommand], first half: [queue = Queue.Queue(1)] at a fresh
    reference [q] and [self.sendQueue.put((opcode, data, queue))]. *)
Definition on_submit (opcode : Z) (data : bytes) (q : nat)
    (sq' : Queue task) (p : Pipeline) : Pipeline :=
  mkPipeline (rx p) sq' (<[q := new 1]> (slots p)) (s_inject p) (sender_pc p)
             (snoop_seen p) (<[q := opcode]> (sent_by p)) (returned p).

Definition with_pc (pc : sender) (p : Pipeline) : Pipeline :=
  mkPipeline (rx p) (sendQueue p) (slots p) (s_inject p) pc
             (snoop_seen p) (sent_by p) (returned p).

(** The send thread, lines 224 to 228: one [get(block=False)] of the
    flushing loop that finds a record; [q2'] is the rest of the queue. *)
Definition on_flush (q2' : Queue record) (p : Pipeline) : Pipeline :=
  mkPipeline (with_secondary q2' (rx p)) (sendQueue p) (slots p) (s_inject p)
             (sender_pc p) (snoop_seen p) (sent_by p) (returned p).

(** The send thread, lines 236 to 242, with the task [t] it took from
    [sendQueue], [sq'] being the rest of that queue: the frame is built
    and written. *)
Definition on_dispatch (t : task) (sq' : Queue task) (p : Pipeline) : Pipeline :=
  match build_frame (task_opcode t) (task_data t) with
  | Ret out =>
      mkPipeline (rx p) sq' (slots p) (s_inject p ++ [out]) (Waiting t)
                 (snoop_seen p) (sent_by p) (returned p)
  | Raise e =>
      mkPipeline (with_alive false (rx p)) sq' (slots p) (s_inject p) (Crashed e)
                 (snoop_seen p) (sent_by p) (returned p)
  | Diverge => p
  end.

(** The send thread, lines 246 to 255, with a record [r] taken from its
    private queue, [q2'] being the rest of that queue. *)
Definition on_poll (t : task) (r : record) (q2' : Queue record)
    (p : Pipeline) : option Pipeline :=
  let rx' := with_secondary q2' (rx p) in
  match is_response (task_opcode t) r with
  | None =>
      Some (mkPipeline rx' (sendQueue p) (slots p) (s_inject p) (Waiting t)
                       (snoop_seen p) (sent_by p) (returned p))
  | Some data =>
      (* queue.put(hcipkt.data): blocks while the slot is taken *)
      Q ← slots p !! task_queue t;
      Q' ← put_nowait data Q;
      Some (mkPipeline rx' (sendQueue p) (<[task_queue t := Q']> (slots p))
                       (s_inject p) AtTop
                       (snoop_seen p) (sent_by p) (returned p))
  end.

(** [sendHciCommand], second half: [return queue.get(timeout=timeout)]
    when an element is there. *)
Definition on_collect (q : nat) (p : Pipeline) : option Pipeline :=
  Q ← slots p !! q;
  '(d, Q') ← get_nowait Q;
  Some (mkPipeline (rx p) (sendQueue p) (<[q := Q']> (slots p)) (s_inject p)
                   (sender_pc p) (snoop_seen p) (sent_by p)
                   (returned p ++ [(q, d)])).

(** The interleavings of the receive thread, the send thread and the
    callers, one queue operation or one record at a time.  A blocking call
    that cannot proceed takes no step; a call that times out leaves the
    shared state as it is.  These are the steps of one connection:
    [shutdown()] and a [connect()] after it, which starts new threads on
    the same queues, are not among them. *)
Inductive step : Pipeline -> Pipeline -> Prop :=
| step_record data orig_len inc_len flags drops time64 rec p :
    recv_record parse_hci_packet data orig_len inc_len flags drops time64 = Ret rec ->
    step p (on_record rec p)
| step_submit opcode data q sq' p :
    slots p !! q = None ->
    sent_by p !! q = None ->
    put_nowait (mkTask opcode data q) (sendQueue p) = Some sq' ->
    step p (on_submit opcode data q sq' p)
| step_flush r q2' p :
    sender_pc p = AtTop ->
    get_nowait (sendThreadrecvQueue (rx p)) = Some (r, q2') ->
    step p (on_flush q2' p)
| step_flushed p :
    sender_pc p = AtTop ->
    get_nowait (sendThreadrecvQueue (rx p)) = None ->
    step p (with_pc Flushed p)
| step_dispatch t sq' p :
    sender_pc p = Flushed ->
    get_nowait (sendQueue p) = Some (t, sq') ->
    step p (on_dispatch t sq' p)
| step_idle p :
    sender_pc p = Flushed ->
    get_nowait (sendQueue p) = None ->
    step p (with_pc AtTop p)
| step_poll t r q2' p p' :
    sender_pc p = Waiting t ->
    get_nowait (sendThreadrecvQueue (rx p)) = Some (r, q2') ->
    on_poll t r q2' p = Some p' ->
    step p p'
| step_collect q p p' :
    on_collect q p = Some p' ->
    step p p'.

Definition reachable (queue_size : Z) (sd : StackDumpReceiver) (p : Pipeline) : Prop :=
  rtc step (connected queue_size sd) p.

End Transport.

Arguments rx {_} _.
Arguments sendQueue {_} _.
Arguments slots {_} _.
Arguments s_inject {_} _.
Arguments sender_pc {_} _.
Arguments snoop_seen {_} _.
Arguments sent_by {_} _.
Arguments returned {_} _.
Arguments mkPipeline {_} _ _ _ _ _ _ _ _.
Arguments with_secondary {_} _ _.
Arguments with_alive {_} _ _.
Arguments connected {_} _ _.
Arguments on_record {_} _ _ _.
Arguments on_submit {_} _ _ _ _ _.
Arguments on_dispatch {_} _ _ _.
Arguments with_pc {_} _ _.
Arguments on_flush {_} _ _.
Arguments on_poll {_} _ _ _ _.
Arguments on_collect {_} _ _.
Arguments step _ {_} _ _ _.
Arguments reachable _ {_} _ _ _ _.

(** ** The memory access layer *)

(** A command as [sendHciCommand] receives it: opcode and parameters. *)
Definition command : Type := Z * bytes.

(** An entry of the capture table, [(u32(data[i:i+4]), data[i+4:i+32])]. *)
Definition entry : Type := Z * bytes.

(** One call [self.monitorCallback(lmp_packet, sendFromDevice, src_addr,
    dest_addr)], with the entry it was made for.  An address is what
    [readMem] returned, so it can be [None]. *)
Record delivery := mkDelivery {
  dlv_entry : entry;
  dlv_lmp_packet : bytes;
  dlv_sendFromDevice : bool;
  dlv_src_addr : option bytes;
  dlv_dest_addr : option bytes
}.

Section Memory.

(** The controller behind [sendHciCommand], as a caller sees it: a command
    goes out and the data of its Command Complete event comes back, or
    [None] when the call times out or the send queue is full.  With
    [self.running] false there is no send thread and only [None] can come
    back: [hci_exchange] is then taken to answer [None].  The warning that
    [sendHciCommand] logs with a [None] is not recorded in [ses_log]. *)
Variable Ctrl : Type.
Variable hci_exchange : command -> Ctrl -> option bytes * Ctrl.

Record Session := mkSession {
  ses_running : bool;                  (* self.running *)
  ses_exit_requested : bool;           (* self.exit_requested *)
  ctrl : Ctrl;
  hci_trace : list command;            (* commands issued, oldest first *)
  ses_log : list logmsg;
  callback_log : list delivery         (* calls of self.monitorCallback *)
}.

(** A method of the session: it may return, raise or run out of fuel, and
    it leaves a session behind in each case. *)
Definition M (A : Type) : Type := Session -> result A * Session.

Definition mret {A} (a : A) : M A := fun s => (Ret a, s).

Definition mbind {A B} (m : M A) (k : A -> M B) : M B :=
  fun s =>
    match m s with
    | (Ret a, s') => k a s'
    | (Raise e, s') => (Raise e, s')
    | (Diverge, s') => (Diverge, s')
    end.

Definition lift {A} (r : result A) : M A := fun s => (r, s).

Definition log_msg (m : logmsg) : M unit :=
  fun s => (Ret tt, mkSession (ses_running s) (ses_exit_requested s) (ctrl s)
                              (hci_trace s) (ses_log s ++ [m]) (callback_log s)).

Notation "'let*' x ':=' m 'in' k" := (mbind m (fun x => k))
  (at level 10, x name, m at level 100, k at level 200, only parsing).

(** [sendHciCommand(opcode, data)] *)
Definition sendHciCommand (opcode : Z) (data : bytes) : M (option bytes) :=
  fun s =>
    let '(response, c') := hci_exchange (opcode, data) (ctrl s) in
    (Ret response,
     mkSession (ses_running s) (ses_exit_requested s) c'
               (hci_trace s ++ [(opcode, data)]) (ses_log s) (callback_log s)).

(** [shutdown()], as far as the session flags go. *)
Definition shutdown : M unit :=
  fun s => (Ret tt, mkSession false false (ctrl s) (hci_trace s)
                              (ses_log s ++ [Log_shutdown]) (callback_log s)).

(** [check_running()] *)
Definition check_running : M bool :=
  let* exit := (fun s => (Ret (ses_exit_requested s), s)) in
  let* _ := (if exit : bool then shutdown else mret tt) in
  let* running := (fun s => (Ret (ses_running s), s)) in
  if running : bool then mret true
  else let* _ := log_msg Log_not_running in mret false.

(** [response[3]] on what [sendHciCommand] returned: [None] is not
    subscriptable, a short string has no index 3. *)
Definition response_status (response : option bytes) : result byte :=
  match response with
  | None => Raise TypeError
  | Some r => or_raise IndexError (r !! 3%nat)
  end.

(** [response[4:]], once [response[3]] has been read. *)
Definition response_data (response : option bytes) : bytes :=
  match response with
  | None => []
  | Some r => slice_from r 4
  end.

(** The [while] loop of [readMem] (lines 605 to 624, [progress_log=None]). *)
Fixpoint readMem_loop (fuel : nat) (address length : Z)
    (read_addr byte_counter : Z) (outbuffer : bytes) : M bytes :=
  match fuel with
  | O => lift Diverge
  | S fuel' =>
      if decide (read_addr < address + length) then
        let bytes_left := length - byte_counter in
        let blocksize := if decide (bytes_left > 251) then 251 else bytes_left in
        let* addr_bytes := lift (or_raise StructError (p32 read_addr)) in
        let* size_byte := lift (or_raise StructError (p8 blocksize)) in
        let* response := sendHciCommand 0xfc4d (addr_bytes ++ size_byte) in
        let* status_byte := lift (response_status response) in
        let status := ord status_byte in
        let* _ := (if decide (status ≠ 0)
                   then log_msg (Log_readMem_status status)
                   else mret tt) in
        let data := response_data response in
        readMem_loop fuel' address length
          (read_addr + Z.of_nat (List.length data))
          (byte_counter + Z.of_nat (List.length data))
          (outbuffer ++ data)
      else mret outbuffer
  end.

(** [readMem(address, length)]; [None] is the [return None] of a session
    that is not running. *)
Definition readMem (fuel : nat) (address length : Z) : M (option bytes) :=
  let* ok := check_running in
  if negb ok then mret None
  else let* out := readMem_loop fuel address length address 0 [] in
       mret (Some out).

(** The [while] loop of [writeMem] (lines 635 to 650, [progress_log=None]).
    The warning formats [response[3]], a one-character string, with [%x]. *)
Fixpoint writeMem_loop (fuel : nat) (data : bytes)
    (write_addr byte_counter : Z) : M bool :=
  match fuel with
  | O => lift Diverge
  | S fuel' =>
      if decide (byte_counter < Z.of_nat (List.length data)) then
        let bytes_left := Z.of_nat (List.length data) - byte_counter in
        let blocksize := if decide (bytes_left > 251) then 251 else bytes_left in
        let* addr_bytes := lift (or_raise StructError (p32 write_addr)) in
        let* response := sendHciCommand 0xfc4c
          (addr_bytes ++ slice data byte_counter (byte_counter + blocksize)) in
        let* status_byte := lift (response_status response) in
        if decide (status_byte ≠ x00) then
          let* code := lift (or_raise TypeError (format_x (FStr [status_byte]))) in
          let* _ := log_msg (Log_error_code code) in
          mret false
        else
          writeMem_loop fuel' data (write_addr + blocksize) (byte_counter + blocksize)
      else mret true
  end.

(** [writeMem(address, data)].  Every round of the loop moves
    [byte_counter] forward by at least one, so one round per byte and one
    more for the last test is all the loop can take. *)
Definition writeMem (address : Z) (data : bytes) : M (option bool) :=
  let* ok := check_running in
  if negb ok then mret None
  else let* r := writeMem_loop (S (List.length data)) data address 0 in
       mret (Some r).

(** [launchRam(address)] *)
Definition launchRam (address : Z) : M bool :=
  let* addr_bytes := lift (or_raise StructError (p32 address)) in
  let* response := sendHciCommand 0xfc4e addr_bytes in
  let* status_byte := lift (response_status response) in
  if decide (status_byte ≠ x00) then
    let* code := lift (or_raise TypeError (format_x (FStr [status_byte]))) in
    let* _ := log_msg (Log_error_code code) in
    mret false
  else mret true.

(** [patchRom(address, patch)] *)
Definition slot : Z := 113.
Definition slot_dwords_init : list Z :=
  [0xffffffff; 0xffffffff; 0xffffffff; 0x0000ffff; 0x00000000].

Definition patchRom (address : Z) (patch : bytes) : M bool :=
  if decide (List.length patch ≠ 4%nat) then
    let* _ := log_msg Log_patch_size in mret false
  else
    let slot_dwords := slot_dwords_init in
    (* We need to enable the slot by setting a bit in a multi-dword bitfield *)
    let target_dword := slot / 32 in
    let target_bit := slot mod 32 in
    let* dword := lift (or_raise IndexError (slot_dwords !! Z.to_nat target_dword)) in
    let* _ := (if decide (Z.land dword (Z.shiftl 1 target_bit) ≠ 0)
               then log_msg (Log_slot_in_use slot) else mret tt) in
    let slot_dwords :=
      <[Z.to_nat target_dword := Z.lor dword (Z.shiftl 1 target_bit)]> slot_dwords in
    (* Write new value to patchram value table at 0xd0000 *)
    let* _ := writeMem (0xd0000 + slot * 4) patch in
    (* Write address to patchram target table at 0x31000 *)
    let* target := lift (or_raise StructError (p32 (Z.shiftr address 2))) in
    let* _ := writeMem (0x310000 + slot * 4) target in
    (* Enable patchram slot (enable bitfield starts at 0x310204) *)
    let* dword' := lift (or_raise IndexError (slot_dwords !! Z.to_nat target_dword)) in
    let* enable := lift (or_raise StructError (p32 dword')) in
    let* _ := writeMem (0x310204 + target_dword * 4) enable in
    mret true.

(** ** The LMP monitor: one round of the polling loop *)

(** The constants of the module [fw], which is not part of the sources, and
    the order in which a [set] of connection numbers is iterated. *)
Variable CONNECTION_ARRAY_ADDRESS : Z.
Variable CONNECTION_STRUCT_LENGTH : Z.
Variable LMP_LENGTHS : Z -> option Z.
Variable LMP_ESC_LENGTHS : Z -> option Z.
Variable set_iter : list Z -> list Z.

Definition DATA_BASE_ADDRESS : Z := 0xd7700.

(** [a + b] on what two [readMem] calls returned. *)
Definition str_add (a b : option bytes) : result bytes :=
  match a, b with
  | Some a, Some b => Ret (a ++ b)
  | _, _ => Raise TypeError
  end.

(** [u32(self.readMem(...))] *)
Definition u32_of (s : option bytes) : result Z :=
  match s with
  | None => Raise TypeError
  | Some s => or_raise StructError (u32 s)
  end.

(** Lines 364 to 389: the counter is read and, when it has moved, the new
    part of the table.  [None] is the round that sleeps and continues. *)
Definition monitor_read (fuel : nat) (lastCapturedIndex : Z)
    : M (option (Z * option bytes)) :=
  let* counter := readMem fuel DATA_BASE_ADDRESS 4 in
  let* word := lift (u32_of counter) in
  let currentCapturedIndex := Z.land word 0x7FFFFFFF in
  if decide (currentCapturedIndex <= lastCapturedIndex) then mret None
  else
    let currentCapturedPosition := Z.land currentCapturedIndex 0x1f in
    let lastCapturedPosition := Z.land lastCapturedIndex 0x1f in
    if decide (currentCapturedIndex - lastCapturedIndex >= 32) then
      (* all entries are new (maybe even dropped packets) *)
      let* data := readMem fuel (DATA_BASE_ADDRESS + 4) (32 * 32) in
      mret (Some (currentCapturedIndex, data))
    else if decide (lastCapturedPosition < currentCapturedPosition) then
      (* no wrap around *)
      let* data := readMem fuel
        (DATA_BASE_ADDRESS + 4 + (lastCapturedPosition + 1) * 32)
        ((currentCapturedPosition - lastCapturedPosition) * 32) in
      mret (Some (currentCapturedIndex, data))
    else
      (* wrap around *)
      let* tmp := readMem fuel
        (DATA_BASE_ADDRESS + 4 + (lastCapturedPosition + 1) * 32)
        ((31 - lastCapturedPosition) * 32) in
      let* head := readMem fuel (DATA_BASE_ADDRESS + 4)
        ((currentCapturedPosition + 1) * 32) in
      let* data := lift (str_add head tmp) in
      mret (Some (currentCapturedIndex, Some data)).

Fixpoint result_map {A B} (f : A -> result B) (l : list A) : result (list B) :=
  match l with
  | [] => Ret []
  | x :: l' => rbind (f x) (fun y => rbind (result_map f l') (fun ys => Ret (y :: ys)))
  end.

(** Line 391 *)
Definition parse_entries (data : bytes) : result (list entry) :=
  result_map
    (fun i => rbind (or_raise StructError (u32 (slice data i (i + 4))))
                    (fun tag => Ret (tag, slice data (i + 4) (i + 32))))
    (range_step (Z.of_nat (length data)) 32).

Definition entry_key (e : entry) : Z := Z.land e.1 0x7FFFFFFF.

(** [ord(entry[1][2])] *)
Definition entry_connection_number (e : entry) : result Z :=
  rbind (or_raise IndexError (e.2 !! 2%nat)) (fun b => Ret (ord b)).

(** Lines 397 to 399: one [readMem] per connection number. *)
Fixpoint read_connection_addresses (fuel : nat) (numbers : list Z)
    (connection_addresses : gmap Z bytes) : M (gmap Z bytes) :=
  match numbers with
  | [] => mret connection_addresses
  | number :: rest =>
      let* addr := readMem fuel
        (CONNECTION_ARRAY_ADDRESS + (number - 1) * CONNECTION_STRUCT_LENGTH + 0x28) 6 in
      let* addr := lift (or_raise TypeError addr) in
      read_connection_addresses fuel rest
        (<[number := reverse addr]> connection_addresses)
  end.

Definition call_monitorCallback (d : delivery) : M unit :=
  fun s => (Ret tt, mkSession (ses_running s) (ses_exit_requested s) (ctrl s)
                              (hci_trace s) (ses_log s) (callback_log s ++ [d])).

(** Lines 402 to 419: the body of [for entry in entries]; its value is the
    new [lastCapturedIndex]. *)
Definition deliver_entry (deviceAddress : option bytes)
    (connection_addresses : gmap Z bytes) (e : entry)
    (lastCapturedIndex : Z) : M Z :=
  let sendFromDevice := bool_decide (Z.land e.1 0x80000000 > 0) in
  let* connection_number := lift (entry_connection_number e) in
  let index := Z.land e.1 0x7FFFFFFF in
  let* b4 := lift (or_raise IndexError (e.2 !! 4%nat)) in
  let* v4 := lift (or_raise StructError (u8 [b4])) in
  let lmp_opcode := Z.shiftr v4 1 in
  let* lmp_len :=
    (if decide (lmp_opcode >= 0x7C) then
       let* b5 := lift (or_raise IndexError (e.2 !! 5%nat)) in
       let* lmp_opcode := lift (or_raise StructError (u8 [b5])) in
       lift (or_raise IndexError (LMP_ESC_LENGTHS lmp_opcode))
     else lift (or_raise IndexError (LMP_LENGTHS lmp_opcode))) in
  let lmp_packet := slice e.2 4 (4 + lmp_len) in
  let* _ := (if decide (index > lastCapturedIndex + 1)
             then log_msg (Log_dropped (index - lastCapturedIndex - 1))
             else mret tt) in
  let* _ := (if decide (index <= lastCapturedIndex)
             then log_msg (Log_old_packet index lastCapturedIndex)
             else mret tt) in
  let* src_addr :=
    (if sendFromDevice then mret deviceAddress
     else let* a := lift (or_raise KeyError (connection_addresses !! connection_number)) in
          mret (Some a)) in
  let* dest_addr :=
    (if negb sendFromDevice then mret deviceAddress
     else let* a := lift (or_raise KeyError (connection_addresses !! connection_number)) in
          mret (Some a)) in
  let* _ := call_monitorCallback
              (mkDelivery e lmp_packet sendFromDevice src_addr dest_addr) in
  mret index.

Fixpoint deliver_entries (deviceAddress : option bytes)
    (connection_addresses : gmap Z bytes) (entries : list entry)
    (lastCapturedIndex : Z) : M Z :=
  match entries with
  | [] => mret lastCapturedIndex
  | e :: rest =>
      let* index := deliver_entry deviceAddress connection_addresses e
                                  lastCapturedIndex in
      deliver_entries deviceAddress connection_addresses rest index
  end.

(** Lines 391 to 419: from the bytes read to the calls of the callback. *)
Definition monitor_deliver (fuel : nat) (deviceAddress : option bytes)
    (lastCapturedIndex currentCapturedIndex : Z) (data : option bytes) : M Z :=
  let* data := lift (or_raise TypeError data) in
  let* entries := lift (parse_entries data) in
  let entries := sort_by entry_key entries in
  let* _ := log_msg (Log_monitor_poll lastCapturedIndex currentCapturedIndex entries) in
  let* numbers := lift (result_map entry_connection_number entries) in
  let connection_numbers := set_iter numbers in
  let* connection_addresses :=
    read_connection_addresses fuel connection_numbers ∅ in
  let* _ := log_msg (Log_connection_addresses (map_to_list connection_addresses)) in
  deliver_entries deviceAddress connection_addresses entries lastCapturedIndex.

(** One round of [while not self.exit_requested and not
    self.monitor_exit_requested]; its value is [lastCapturedIndex] after
    the round. *)
Definition monitor_round (fuel : nat) (deviceAddress : option bytes)
    (lastCapturedIndex : Z) : M Z :=
  let* polled := monitor_read fuel lastCapturedIndex in
  match polled with
  | None => mret lastCapturedIndex
  | Some (currentCapturedIndex, data) =>
      monitor_deliver fuel deviceAddress lastCapturedIndex currentCapturedIndex data
  end.

End Memory.

Arguments ses_running {_} _.
Arguments ses_exit_requested {_} _.
Arguments ctrl {_} _.
Arguments hci_trace {_} _.
Arguments ses_log {_} _.
Arguments callback_log {_} _.
Arguments mkSession {_} _ _ _ _ _ _.
Arguments mret {_ _} _ _.
Arguments mbind {_ _ _} _ _ _.
Arguments lift {_ _} _ _.
Arguments log_msg {_} _ _.
Arguments shutdown {_} _.
Arguments check_running {_} _.
Arguments sendHciCommand {_} _ _ _ _.
Arguments readMem_loop {_} _ _ _ _ _ _ _ _.
Arguments readMem {_} _ _ _ _ _.
Arguments writeMem_loop {_} _ _ _ _ _ _.
Arguments writeMem {_} _ _ _ _.
Arguments launchRam {_} _ _ _.
Arguments patchRom {_} _ _ _ _.
Arguments monitor_read {_} _ _ _ _.
Arguments read_connection_addresses {_} _ _ _ _ _ _ _.
Arguments call_monitorCallback {_} _ _.
Arguments deliver_entry {_} _ _ _ _ _ _ _.
Arguments deliver_entries {_} _ _ _ _ _ _ _.
Arguments monitor_deliver {_} _ _ _ _ _ _ _ _ _ _ _ _.
Arguments monitor_round {_} _ _ _ _ _ _ _ _ _ _.

(** ** What the specification says, in its own words *)

(** "Outbound frame format written to the inject socket: type u8 = 0x01,
    opcode u16 LE, param_len u8, params". *)
Definition spec_inject_frame (opcode : Z) (params : bytes) : result bytes :=
  rbind (or_raise StructError (p8 0x01)) (fun ty =>
  rbind (or_raise StructError (p16 opcode)) (fun op =>
  rbind (or_raise StructError (p8 (Z.of_nat (length params)))) (fun plen =>
  Ret (ty ++ op ++ plen ++ params)))).

(** ** Controllers to run the code against *)

Module Ram.

(** A controller that is a memory: vendor command 0xFC4D reads it, 0xFC4C
    writes it, 0xFC4E launches.  The data of every Command Complete event
    is the number of command packets, the opcode, the status 0 and the
    bytes read. *)
Definition ram : Type := gmap Z byte.

Definition peek (m : ram) (addr : Z) : byte := default x00 (m !! addr).

Definition mem_bytes (m : ram) (addr : Z) (n : nat) : bytes :=
  (fun k => peek m (addr + Z.of_nat k)) <$> seq 0 n.

Fixpoint poke (m : ram) (addr : Z) (bs : bytes) : ram :=
  match bs with
  | [] => m
  | b :: bs' => poke (<[addr := b]> m) (addr + 1) bs'
  end.

Definition exchange (cmd : command) (m : ram) : option bytes * ram :=
  let '(opcode, params) := cmd in
  if decide (opcode = 0xfc4d) then
    let addr := le_value (take 4 params) in
    let n := le_value (drop 4 params) in
    (Some ([x01; x4d; xfc; x00] ++ mem_bytes m addr (Z.to_nat n)), m)
  else if decide (opcode = 0xfc4c) then
    (Some [x01; x4c; xfc; x00], poke m (le_value (take 4 params)) (drop 4 params))
  else if decide (opcode = 0xfc4e) then
    (Some [x01; x4e; xfc; x00], m)
  else (None, m).

(** A controller that rejects every command with status [st] and returns
    [data] after it. *)
Definition rejecting (st : byte) (data : bytes) (cmd : command) (c : unit)
    : option bytes * unit :=
  (Some ([x01] ++ le_bytes 2 cmd.1 ++ [st] ++ data), c).

(** A running session on a controller in state [c]. *)
Definition session {Ctrl} (c : Ctrl) : Session Ctrl :=
  mkSession true false c [] [] [].

(** A parser for the receive thread's records: an event frame is
    [04 | event code | length | data]; everything else is taken for a
    command. *)
Definition parse (frame : bytes) : HCI_packet :=
  match frame with
  | ty :: code :: _ :: data =>
      if decide (ty = x04) then HCI_Event (ord code) data
      else HCI_Cmd 0 frame
  | _ => HCI_Cmd 0 frame
  end.

(** A stack dump receiver that never sees a dump. *)
Definition no_dump (_ : HCI_packet) (u : unit) : bool * unit := (false, u).

End Ram.

(** ** Command correlation: what holds in every reachable state *)

(** [d] is the data of a Command Complete event received on the snoop
    stream whose bytes [1..3] are the packed [opcode]. *)
Definition answers (seen : list record) (opcode : Z) (d : bytes) : Prop :=
  ∃ r, r ∈ seen ∧ rec_pkt r = HCI_Event 0x0e d ∧ Some (slice d 1 3) = p16 opcode.

Definition pipeline_inv {SD} (p : Pipeline SD) : Prop :=
  (∀ t, t ∈ items (sendQueue p) ->
        sent_by p !! task_queue t = Some (task_opcode t)) ∧
  (∀ t, sender_pc p = Waiting t ->
        sent_by p !! task_queue t = Some (task_opcode t)) ∧
  (∀ r, r ∈ items (sendThreadrecvQueue (rx p)) -> r ∈ snoop_seen p) ∧
  (∀ q Q, slots p !! q = Some Q ->
          maxsize Q = 1 ∧
          ∀ d, d ∈ items Q ->
               ∃ opcode, sent_by p !! q = Some opcode ∧ answers (snoop_seen p) opcode d) ∧
  (∀ q d, (q, d) ∈ returned p ->
          ∃ opcode Q, sent_by p !! q = Some opcode ∧
                      slots p !! q = Some Q ∧ maxsize Q = 1 ∧
                      answers (snoop_seen p) opcode d).

(** A run of the session: a caller reads four bytes at 0xd7700; an
    unrelated event and the Command Complete event of another opcode
    arrive before the answer. *)
Module Scenario.

Definition read_params : bytes := [x00; x77; x0d; x00; x04].
Definition read_task : task := mkTask 0xfc4d read_params 0.

Definition frame_noise : bytes := [x04; x13; x05; x01; x0b; x00; x01; x00].
Definition frame_other : bytes := [x04; x0e; x04; x01; x4c; xfc; x00].
Definition frame_answer : bytes :=
  [x04; x0e; x08; x01; x4d; xfc; x00; x05; x00; x00; x00].

Definition year2000 : Z := 0x00E03AB44A676000.

Definition record_of (frame : bytes) : record :=
  mkRecord (Ram.parse frame) (Z.of_nat (length frame)) (Z.of_nat (length frame))
           1 0 (Some datetime_2000_1_1).

Definition p0 : Pipeline unit := connected 1000 tt.
Definition p1 := on_submit 0xfc4d read_params 0 (mkQueue 1000 [read_task]) p0.
Definition p1' := with_pc Flushed p1.
Definition p2 := on_dispatch read_task (mkQueue 1000 []) p1'.
Definition p3 := on_record Ram.no_dump (record_of frame_noise) p2.
Definition p4 := on_record Ram.no_dump (record_of frame_other) p3.
Definition p5 := on_record Ram.no_dump (record_of frame_answer) p4.
Definition p6 := default p5
  (on_poll read_task (record_of frame_noise)
     (mkQueue 1000 [record_of frame_other; record_of frame_answer]) p5).
Definition p7 := default p6
  (on_poll read_task (record_of frame_other)
     (mkQueue 1000 [record_of frame_answer]) p6).
Definition p8 := default p7
  (on_poll read_task (record_of frame_answer) (mkQueue 1000 []) p7).
Definition p9 := default p8 (on_collect 0 p8).

End Scenario.

(** ** The requests of a chunked read *)

(** [k] read commands for [left] bytes from [addr] on, 251 bytes at a
    time. *)
Fixpoint chunk_requests (k : nat) (addr left : Z) : list command :=
  match k with
  | O => []
  | S k' =>
      (0xfc4d, le_bytes 4 addr ++ le_bytes 1 (Z.min 251 left))
      :: chunk_requests k' (addr + 251) (left - 251)
  end.

(** The [⌈n / 251⌉] read commands for [n] bytes from [a] on. *)
Definition read_requests (a n : Z) : list command :=
  chunk_requests (Z.to_nat ((n + 250) / 251)) a n.

(** The block size a read command asks for: its fifth parameter byte. *)
Definition requested_size (cmd : command) : Z := le_value (drop 4 cmd.2).

Section Controllers.

Context {Ctrl : Type} (hci_exchange : command -> Ctrl -> option bytes * Ctrl).

(** The data sections of the responses to a list of commands, one after
    the other, and the controller after them. *)
Fixpoint collect_reads (reqs : list command) (c : Ctrl) : bytes * Ctrl :=
  match reqs with
  | [] => ([], c)
  | req :: rest =>
      let '(response, c') := hci_exchange req c in
      let '(data, c'') := collect_reads rest c' in
      (response_data response ++ data, c'')
  end.

(** Every read of [bs] bytes is answered with status 0 and [bs] bytes. *)
Definition full_blocks : Prop :=
  ∀ addr bs c, 0 <= addr < 4294967296 -> 0 < bs <= 251 ->
    ∃ r c', hci_exchange (0xfc4d, le_bytes 4 addr ++ le_bytes 1 bs) c = (Some r, c') ∧
            r !! 3%nat = Some x00 ∧ length r = (4 + Z.to_nat bs)%nat.

(** Every read of [bs] bytes is answered, with a status and at least one
    byte after it. *)
Definition some_progress : Prop :=
  ∀ addr bs c, 0 <= addr < 4294967296 -> 0 < bs <= 251 ->
    ∃ r c', hci_exchange (0xfc4d, le_bytes 4 addr ++ le_bytes 1 bs) c = (Some r, c') ∧
            (4 < length r)%nat.

(** Every read is answered with a status and nothing after it. *)
Definition no_progress : Prop :=
  ∀ params c, ∃ r, hci_exchange (0xfc4d, params) c = (Some r, c) ∧
                   length r = 4%nat.

(** Every write is acknowledged with status 0. *)
Definition writes_accepted : Prop :=
  ∀ params c, ∃ r c', hci_exchange (0xfc4c, params) c = (Some r, c') ∧
                      r !! 3%nat = Some x00.

End Controllers.

(** A method that leaves the record of callback calls as it is. *)
Definition keeps_callback_log {Ctrl A} (m : M Ctrl A) : Prop :=
  ∀ s, callback_log (m s).2 = callback_log s.

(** Capture rings in controller memory, and values for the constants of
    [fw] to run the monitor with. *)
Module Ring.

Definition CONNECTION_ARRAY_ADDRESS : Z := 0x2038E8.
Definition CONNECTION_STRUCT_LENGTH : Z := 0x14C.
Definition LMP_LENGTHS (opcode : Z) : option Z :=
  if decide (0 <= opcode < 0x7C) then Some 17 else None.
Definition LMP_ESC_LENGTHS (opcode : Z) : option Z :=
  if decide (0 <= opcode < 0x24) then Some 16 else None.
Definition set_iter (numbers : list Z) : list Z := remove_dups numbers.

Definition deviceAddress : bytes := [x11; x22; x33; x44; x55; x66].

(** 28 bytes of an entry after its counter: connection number 1 at
    offset 2, LMP opcode [op] at offset 4. *)
Definition payload (op : Z) : bytes :=
  [x00; x00; x01; x00; chr (op * 2)] ++ replicate 23 x00.

Definition entry_at (position tag op : Z) (m : Ram.ram) : Ram.ram :=
  Ram.poke m (DATA_BASE_ADDRESS + 4 + position * 32) (le_bytes 4 tag ++ payload op).

(** The peer address of connection 1 and the ring counter [counter]. *)
Definition base (counter : Z) : Ram.ram :=
  Ram.poke
    (Ram.poke ∅ (CONNECTION_ARRAY_ADDRESS + 0x28) [xa6; xa5; xa4; xa3; xa2; xa1])
    DATA_BASE_ADDRESS (le_bytes 4 counter).

(** The counter has moved from 30 to 34: entries 31 to 34 sit at positions
    31, 0, 1 and 2; entry 32 was sent by the device. *)
Definition wrapped : Ram.ram :=
  entry_at 2 34 3 (entry_at 1 33 2 (entry_at 0 (0x80000000 + 32) 1
    (entry_at 31 31 4 (base 34)))).

(** The counter has moved from 37 to 38 and the hook has not written its
    entry yet: position 6 still holds entry 6 of the lap before. *)
Definition torn : Ram.ram := entry_at 6 6 5 (base 38).

(** The bytes of the positions 0 to 2 and of position 31 of [wrapped]. *)
Definition head_segment : bytes := Ram.mem_bytes wrapped (DATA_BASE_ADDRESS + 4) 96.
Definition tail_segment : bytes :=
  Ram.mem_bytes wrapped (DATA_BASE_ADDRESS + 4 + 31 * 32) 32.

End Ring.

(** ** The requests of a chunked write *)

(** [k] write commands for [data] from [addr] on, 251 bytes at a time. *)
Fixpoint chunk_writes (k : nat) (addr : Z) (data : bytes) : list command :=
  match k with
  | O => []
  | S k' =>
      (0xfc4c, le_bytes 4 addr ++ take 251 data)
      :: chunk_writes k' (addr + 251) (drop 251 data)
  end.

(** The [⌈len(data) / 251⌉] write commands for [data] at [a]. *)
Definition write_requests (a : Z) (data : bytes) : list command :=
  chunk_writes (Z.to_nat ((Z.of_nat (length data) + 250) / 251)) a data.

(** The bytes a write command carries after its address. *)
Definition written_bytes (cmd : command) : bytes := drop 4 cmd.2.

Section MoreControllers.

Context {Ctrl : Type} (hci_exchange : command -> Ctrl -> option bytes * Ctrl).


(** No command is answered: [sendHciCommand] returns [None] each time. *)
Definition unresponsive : Prop :=
  ∀ cmd c, (hci_exchange cmd c).1 = None.

End MoreControllers.

(** A controller that never answers. *)
Definition silent (cmd : command) (c : unit) : option bytes * unit := (None, c).

(** ** The bytes of a ring entry *)

(** The 32 bytes the hooks store for an entry: the counter as a
    little-endian word, then 28 bytes. *)
Definition encode_entry (e : entry) : bytes := le_bytes 4 e.1 ++ e.2.

Definition entry_fits (e : entry) : Prop :=
  0 <= e.1 < 4294967296 ∧ length e.2 = 28%nat.

(** ** Commands under way *)

(** The tasks whose response has not been put on their queue yet: the one
    the send thread waits for, then those still on [sendQueue]. *)
Definition pending {SD} (p : Pipeline SD) : list task :=
  match sender_pc p with
  | Waiting t => [t]
  | _ => []
  end ++ items (sendQueue p).

(** Every pending task has a queue of its own, of one slot, empty. *)
Definition slots_ready {SD} (p : Pipeline SD) : Prop :=
  NoDup (task_queue <$> pending p) ∧
  ∀ t, t ∈ pending p ->
       ∃ Q, slots p !! task_queue t = Some Q ∧ items Q = [] ∧ maxsize Q = 1.

(** A queue created with [Queue.Queue(n)] that holds no more than [n]
    elements when [n] is positive. *)
Definition bounded {A} (n : Z) (Q : Queue A) : Prop :=
  maxsize Q = n ∧ (0 < n -> qsize Q <= n).

Definition queues_bounded {SD} (n : Z) (p : Pipeline SD) : Prop :=
  bounded n (recvQueue (rx p)) ∧
  bounded n (sendThreadrecvQueue (rx p)) ∧
  bounded n (sendQueue p).

(** ** The table of connections *)

Section Connections.

Context {Ctrl : Type} (hci_exchange : command -> Ctrl -> option bytes * Ctrl).

(** Constants of the module [fw], which is not part of the sources. *)
Variable CONNECTION_ARRAY_SIZE : Z.
Variable CONNECTION_ARRAY_ADDRESS : Z.
Variable CONNECTION_STRUCT_LENGTH : Z.

Local Notation "'let*' x ':=' m 'in' k" := (mbind m (fun x => k))
  (at level 10, x name, m at level 100, k at level 200, only parsing).

(** The dictionary [readConnectionInformation] builds. *)
Record conn_dict := mkConn {
  connection_number : Z;
  remote_address : bytes;
  remote_name_address : Z;
  master_of_connection : bool
}.

(** The warning of [readConnectionInformation]. *)
Inductive conn_warning :=
| Log_conn_out_of_bounds (conn_number : Z).
    (* warn: readConnectionInformation: connection number out of bounds: %d *)

(** [readConnectionInformation(conn_number)]: the warnings it logs and
    what it returns. *)
Definition readConnectionInformation (fuel : nat) (conn_number : Z)
    : M Ctrl (list conn_warning * option conn_dict) :=
  if decide (conn_number < 1 ∨ conn_number > CONNECTION_ARRAY_SIZE) then
    mret ([Log_conn_out_of_bounds conn_number], None)
  else
    let* connection := readMem hci_exchange fuel
      (CONNECTION_ARRAY_ADDRESS + CONNECTION_STRUCT_LENGTH * (conn_number - 1))
      CONNECTION_STRUCT_LENGTH in
    if decide (connection = Some (replicate (Z.to_nat CONNECTION_STRUCT_LENGTH) x00))
    then mret ([], None)
    else
      (* connection[:4] on None *)
      let* connection := lift (or_raise TypeError connection) in
      let* number := lift (or_raise StructError (u32 (slice connection 0 4))) in
      let address := reverse (slice connection 0x28 0x2E) in
      let* name := lift (or_raise StructError (u32 (slice connection 0x4C 0x50))) in
      let* flags := lift (or_raise StructError (u32 (slice connection 0x1C 0x20))) in
      mret ([], Some (mkConn number address name
                             (bool_decide (Z.land flags (Z.shiftl 1 15) ≠ 0)))).

End Connections.

Arguments readConnectionInformation {_} _ _ _ _ _ _ _.

(** ** The receive thread: records from the snoop socket *)

(** What [s_snoop.recv] meets, call after call: bytes that have arrived, a
    timeout of the socket, or a timeout during which another thread has
    set [exit_requested].  When the list is used up the peer has closed
    the socket and [recv] returns the empty string; an empty segment is
    such a return, too. *)
Inductive arrival :=
| Segment (data : bytes)
| TimedOut
| Stop.

(** [s_snoop.recv(bufsize)]: the string received, [None] for
    [socket.timeout]; whether [exit_requested] has been set meanwhile; and
    what is left for the calls to come. *)
Definition recv (bufsize : Z) (k : list arrival)
    : option bytes * bool * list arrival :=
  match k with
  | [] => (Some [], false, [])
  | TimedOut :: k' => (None, false, k')
  | Stop :: k' => (None, true, k')
  | Segment b :: k' =>
      if decide (Z.of_nat (length b) <= bufsize) then (Some b, false, k')
      else (Some (take (Z.to_nat bufsize) b), false,
            Segment (drop (Z.to_nat bufsize) b) :: k')
  end.

(** All the bytes a list of arrivals carries. *)
Fixpoint stream (k : list arrival) : bytes :=
  match k with
  | [] => []
  | Segment b :: k' => b ++ stream k'
  | _ :: k' => stream k'
  end.

(** Arrivals without a request to exit and without an early end of the
    stream. *)
Definition clean (k : list arrival) : Prop :=
  Forall (fun a => match a with
                   | Segment b => b ≠ []
                   | TimedOut => True
                   | Stop => False
                   end) k.

(** Big-endian numbers, and [struct.unpack(">IIIIq", record_hdr)]. *)
Definition be_value (bs : bytes) : Z := le_value (reverse bs).

Definition to_signed (w : nat) (v : Z) : Z :=
  if decide (v < 2 ^ (8 * Z.of_nat w - 1)) then v else v - 2 ^ (8 * Z.of_nat w).

Definition unpack_record_hdr (record_hdr : bytes) : option (Z * Z * Z * Z * Z) :=
  if decide (length record_hdr = 24%nat) then
    Some (be_value (slice record_hdr 0 4),
          be_value (slice record_hdr 4 8),
          be_value (slice record_hdr 8 12),
          be_value (slice record_hdr 12 16),
          to_signed 8 (be_value (slice record_hdr 16 24)))
  else None.

(** The four messages of the framing code; the thread stops after each. *)
Inductive framemsg :=
| Log_closed_hdr    (* info: bt_snoop socket was closed by remote site. stopping recv thread... *)
| Log_no_hdr        (* warn: recvThreadFunc: Cannot recv record_hdr. stopping. *)
| Log_closed_data   (* info: bt_snoop socket was closed by remote site. stopping.. *)
| Log_no_data.      (* warn: recvThreadFunc: Cannot recv data. stopping. *)

Section ReceiveThread.

Variable parse_hci_packet : bytes -> HCI_packet.
Variable StackDumpReceiver : Type.
Variable sd_recvPacket : HCI_packet -> StackDumpReceiver -> bool * StackDumpReceiver.

(** The receive thread with its socket and its capture file.  The flag
    [exit_requested] and the queues are those of [recv_state]; [frame_log]
    holds the messages of the framing code, which come after all of
    [recv_log]. *)
Record Snoop := mkSnoop {
  s_snoop : list arrival;
  write_btsnooplog : bool;
  btsnooplog_file : bytes;               (* what has been written to it *)
  recv_state : RecvState StackDumpReceiver;
  frame_log : list framemsg
}.

Definition set_arrivals (k : list arrival) (st : Snoop) : Snoop :=
  mkSnoop k (write_btsnooplog st) (btsnooplog_file st) (recv_state st) (frame_log st).

Definition set_recv_state (rs : RecvState StackDumpReceiver) (st : Snoop) : Snoop :=
  mkSnoop (s_snoop st) (write_btsnooplog st) (btsnooplog_file st) rs (frame_log st).

(** [self.exit_requested = True] *)
Definition set_exit (st : Snoop) : Snoop :=
  let rs := recv_state st in
  set_recv_state (mkRecv (recvQueue rs) (sendThreadrecvQueue rs) (sendThread_alive rs)
                         true (stackDumpReceiver rs) (recv_log rs)) st.

Definition frame_msg (m : framemsg) (st : Snoop) : Snoop :=
  mkSnoop (s_snoop st) (write_btsnooplog st) (btsnooplog_file st) (recv_state st)
          (frame_log st ++ [m]).

(** [if(self.write_btsnooplog): self.btsnooplog_file.write(data)] *)
Definition file_write (data : bytes) (st : Snoop) : Snoop :=
  if write_btsnooplog st then
    mkSnoop (s_snoop st) true (btsnooplog_file st ++ data) (recv_state st) (frame_log st)
  else st.

(** The two loops that fill [record_hdr] (lines 138 to 147, [want] is 24)
    and [record_data] (lines 161 to 170, [want] is [inc_len]); they differ
    in the message logged when the socket is closed. *)
Fixpoint recv_loop (fuel : nat) (closed : framemsg) (want : Z) (buf : bytes)
    (st : Snoop) : result (bytes * Snoop) :=
  match fuel with
  | O => Diverge
  | S fuel' =>
      if negb (exit_requested (recv_state st))
         && bool_decide (Z.of_nat (length buf) < want) then
        let '(recv_data, stop, k') := recv (want - Z.of_nat (length buf)) (s_snoop st) in
        let st := set_arrivals k' st in
        let st := if stop : bool then set_exit st else st in
        match recv_data with
        | None => recv_loop fuel' closed want buf st   (* socket.timeout: try again *)
        | Some recv_data =>
            if decide (length recv_data = 0%nat) then
              Ret (buf, set_exit (frame_msg closed st))
            else recv_loop fuel' closed want (buf ++ recv_data) st
        end
      else Ret (buf, st)
  end.

(** [if not self.exit_requested: log.warn(...); self.exit_requested = True] *)
Definition stop_with (m : framemsg) (st : Snoop) : Snoop :=
  if exit_requested (recv_state st) then st else set_exit (frame_msg m st).

(** The body of the outer loop, lines 134 to 213; [false] is its [break]. *)
Definition recv_one (fuel : nat) (st : Snoop) : result (bool * Snoop) :=
  rbind (recv_loop fuel Log_closed_hdr 24 [] st) (fun '(record_hdr, st) =>
  if bool_decide (record_hdr = []) || bool_decide (length record_hdr ≠ 24%nat) then
    Ret (false, stop_with Log_no_hdr st)
  else
    let st := file_write record_hdr st in
    rbind (or_raise StructError (unpack_record_hdr record_hdr))
      (fun '(orig_len, inc_len, flags, drops, time64) =>
    rbind (recv_loop fuel Log_closed_data inc_len [] st) (fun '(record_data, st) =>
    if bool_decide (record_data = [])
       || bool_decide (Z.of_nat (length record_data) ≠ inc_len) then
      Ret (false, stop_with Log_no_data st)
    else
      let st := file_write record_data st in
      rbind (recv_ingest parse_hci_packet sd_recvPacket record_data
                         orig_len inc_len flags drops time64 (recv_state st))
        (fun rs => Ret (true, set_recv_state rs st))))).

(** [_recvThreadFunc] *)
Fixpoint _recvThreadFunc (fuel : nat) (st : Snoop) : result Snoop :=
  match fuel with
  | O => Diverge
  | S fuel' =>
      if exit_requested (recv_state st) then Ret st
      else
        rbind (recv_one fuel' st) (fun '(continue, st') =>
        if continue : bool then _recvThreadFunc fuel' st' else Ret st')
  end.

End ReceiveThread.

Arguments mkSnoop {_} _ _ _ _ _.
Arguments s_snoop {_} _.
Arguments write_btsnooplog {_} _.
Arguments btsnooplog_file {_} _.
Arguments recv_state {_} _.
Arguments frame_log {_} _.
Arguments set_arrivals {_} _ _.
Arguments set_recv_state {_} _ _.
Arguments set_exit {_} _.
Arguments frame_msg {_} _ _.
Arguments file_write {_} _ _.
Arguments recv_loop {_} _ _ _ _ _.
Arguments stop_with {_} _ _.
Arguments recv_one _ {_} _ _ _.
Arguments _recvThreadFunc _ {_} _ _ _.

(** A capture: the header of a record of seven bytes, received in 2000,
    arrives in two segments with a timeout between them, the second one
    running into the data; a second header follows, of a record without
    data. *)
Module Capture.

Definition hdr : bytes :=
  [x00; x00; x00; x07; x00; x00; x00; x07; x00; x00; x00; x01; x00; x00; x00; x00;
   x00; xe0; x3a; xb4; x4a; x67; x60; x00].
Definition data : bytes := [x04; x0e; x04; x01; x4c; xfc; x00].
Definition empty_hdr : bytes :=
  [x00; x00; x00; x00; x00; x00; x00; x00; x00; x00; x00; x01; x00; x00; x00; x00;
   x00; xe0; x3a; xb4; x4a; x67; x60; x00].


Definition start (k : list arrival) : Snoop unit :=
  mkSnoop k true [] (mkRecv (new 1000) (new 1000) true false tt []) [].

End Capture.

(** ** The controller after a list of commands *)

Definition replay {Ctrl} (hci_exchange : command -> Ctrl -> option bytes * Ctrl)
    (cmds : list command) (c : Ctrl) : Ctrl :=
  foldl (fun c cmd => (hci_exchange cmd c).2) c cmds.

(** * Properties *)

(** ** Packers and queues *)

Lemma pack_in_range w n :
  0 <= n < 2 ^ (8 * Z.of_nat w) -> pack w n = Some (le_bytes w n).
Proof. intros H. unfold pack. by rewrite decide_True. Qed.

Lemma length_le_bytes w n : length (le_bytes w n) = w.
Proof. revert n. induction w as [|w IH]; intros n; simpl; [done|]. by rewrite IH. Qed.

Lemma p8_in_range n : 0 <= n < 256 -> p8 n = Some (le_bytes 1 n).
Proof. intros H. apply pack_in_range. simpl. lia. Qed.

Lemma p16_in_range n : 0 <= n < 65536 -> p16 n = Some (le_bytes 2 n).
Proof. intros H. apply pack_in_range. simpl. lia. Qed.

Lemma p32_in_range n : 0 <= n < 4294967296 -> p32 n = Some (le_bytes 4 n).
Proof. intros H. apply pack_in_range. simpl. lia. Qed.

Lemma drain_loop_items {A} fuel (q : Queue A) :
  (length (items q) < fuel)%nat ->
  drain_loop fuel q = mkQueue (maxsize q) [].
Proof.
  revert q. induction fuel as [|fuel IH]; intros [m l] Hlen; simpl in *; [lia|].
  destruct l as [|x l]; [done|].
  unfold get_nowait; simpl. rewrite IH; simpl in *; [done|lia].
Qed.

Lemma drain_empty {A} (q : Queue A) : drain q = mkQueue (maxsize q) [].
Proof. unfold drain. apply drain_loop_items. lia. Qed.

Lemma full_spec {A} (q : Queue A) :
  full q = true <-> 0 < maxsize q ∧ maxsize q = qsize q.
Proof.
  unfold full. rewrite andb_true_iff, !bool_decide_eq_true. done.
Qed.

Lemma put_nowait_full {A} (x : A) q : full q = true -> put_nowait x q = None.
Proof.
  intros [H1 H2]%full_spec. unfold put_nowait.
  rewrite (bool_decide_eq_true_2 _ H1), bool_decide_eq_true_2; done.
Qed.

Lemma put_nowait_not_full {A} (x : A) q :
  full q = false -> put_nowait x q = Some (mkQueue (maxsize q) (items q ++ [x])).
Proof.
  unfold full, put_nowait. intros H.
  destruct (bool_decide (0 < maxsize q)); simpl in *; [|done].
  destruct (decide (qsize q = maxsize q)) as [E|E].
  - rewrite bool_decide_eq_true_2 in H; done.
  - by rewrite (bool_decide_eq_false_2 _ E).
Qed.

(** ** The frame written to the inject socket *)

Section InjectFrame.

Context {StackDumpReceiver : Type}.

Lemma build_frame_in_range opcode data :
  0 <= opcode < 65536 -> (length data <= 255)%nat ->
  build_frame opcode data
  = Ret ([x01] ++ le_bytes 2 (3 + Z.of_nat (length data))
               ++ le_bytes 2 opcode
               ++ le_bytes 1 (Z.of_nat (length data)) ++ data).
Proof.
  intros Hop Hlen. unfold build_frame.
  rewrite (p16_in_range opcode), (p8_in_range (Z.of_nat (length data))),
    (p8_in_range HCI_CMD) by (unfold HCI_CMD; lia).
  cbn [rbind or_raise].
  rewrite !length_app, !length_le_bytes.
  replace (Z.of_nat (2 + (1 + length data))) with (3 + Z.of_nat (length data)) by lia.
  rewrite p16_in_range by lia. done.
Qed.

(** C3, as the code has it: the frame the send thread writes for a task is
    the byte 0x01, then the length of the rest as a little-endian u16
    (three more than the number of parameter bytes), then the opcode as a
    little-endian u16, the one-byte parameter length and the parameters. *)
Theorem inject_wire_format (t : task) (sq' : Queue task)
    (p : Pipeline StackDumpReceiver) :
  0 <= task_opcode t < 65536 ->
  (length (task_data t) <= 255)%nat ->
  s_inject (on_dispatch t sq' p)
  = s_inject p ++
    [ [x01] ++ le_bytes 2 (3 + Z.of_nat (length (task_data t)))
            ++ le_bytes 2 (task_opcode t)
            ++ le_bytes 1 (Z.of_nat (length (task_data t)))
            ++ task_data t ] ∧
  sender_pc (on_dispatch t sq' p) = Waiting t.
Proof.
  intros Hop Hlen. unfold on_dispatch.
  rewrite build_frame_in_range by done. done.
Qed.

End InjectFrame.

(** The frame of [launchRam(0xd7500)] on a fresh session. *)
Lemma inject_wire_format_witness :
  let t := mkTask 0xfc4e [x00; x75; x0d; x00] 0 in
  let p := connected 1000 tt in
  s_inject (on_dispatch t (new 1000) p)
  = [[x01; x07; x00; x4e; xfc; x04; x00; x75; x0d; x00]] ∧
  sender_pc (on_dispatch t (new 1000) p) = Waiting t.
Proof.
  intros t p.
  apply (inject_wire_format t (new 1000) p); vm_compute; [split; congruence | lia].
Defined.

(** C3 as stated fails: two length bytes stand between the type byte and
    the opcode. *)
Lemma inject_frame_has_length_field :
  build_frame 0xfc4e [x00; x75; x0d; x00]
  = Ret [x01; x07; x00; x4e; xfc; x04; x00; x75; x0d; x00] ∧
  spec_inject_frame 0xfc4e [x00; x75; x0d; x00]
  = Ret [x01; x4e; xfc; x04; x00; x75; x0d; x00] ∧
  build_frame 0xfc4e [x00; x75; x0d; x00]
  ≠ spec_inject_frame 0xfc4e [x00; x75; x0d; x00].
Proof. vm_compute. repeat split; congruence. Qed.

(** ** The receive thread *)

Section ReceiveProps.

Context (parse_hci_packet : bytes -> HCI_packet) {StackDumpReceiver : Type}
        (sd_recvPacket : HCI_packet -> StackDumpReceiver -> bool * StackDumpReceiver).

Implicit Types (s : RecvState StackDumpReceiver) (rec : record).

(** [_parse_time] returns or raises [OverflowError], nothing else. *)
Lemma _parse_time_outcome time64 :
  (∃ t, _parse_time time64 = Ret t) ∨ _parse_time time64 = Raise OverflowError.
Proof.
  unfold _parse_time, timedelta_sub, timedelta_of, datetime_add.
  repeat (case_decide; cbn [rbind]); eauto.
Qed.

Lemma try_parse_time_total time64 :
  ∃ t, try_parse_time time64 = Ret t.
Proof.
  unfold try_parse_time.
  destruct (_parse_time_outcome time64) as [[t ->]| ->]; eauto.
Qed.

Ltac not_in_list :=
  rewrite ?not_elem_of_cons; split_and?; try done; apply not_elem_of_nil.

Lemma full_empty {A} m : full (@mkQueue A m []) = false.
Proof.
  unfold full, qsize. simpl. case_bool_decide; [|done]. simpl.
  apply bool_decide_eq_false_2. lia.
Qed.

(** The primary queue after a record went in: the record alone when the
    queue was full, the record at the end otherwise. *)
Lemma recv_enqueue_primary rec s :
  items (recvQueue (recv_enqueue sd_recvPacket rec s))
  = if full (recvQueue s) then [rec] else items (recvQueue s) ++ [rec].
Proof.
  unfold recv_enqueue.
  destruct (full (recvQueue s)) eqn:Hfull.
  - rewrite drain_empty.
    rewrite put_nowait_not_full by apply full_empty.
    cbn [items maxsize app].
    destruct (sendThread_alive s), (put_nowait rec (sendThreadrecvQueue s)),
      (sd_recvPacket (rec_pkt rec) (stackDumpReceiver s)) as [[] ?]; done.
  - rewrite put_nowait_not_full by done.
    destruct (sendThread_alive s), (put_nowait rec (sendThreadrecvQueue s)),
      (sd_recvPacket (rec_pkt rec) (stackDumpReceiver s)) as [[] ?]; done.
Qed.

(** The send thread's queue and the log after a record went in. *)
Lemma recv_enqueue_secondary rec s :
  let s' := recv_enqueue sd_recvPacket rec s in
  sendThreadrecvQueue s'
  = (if sendThread_alive s
     then default (sendThreadrecvQueue s) (put_nowait rec (sendThreadrecvQueue s))
     else sendThreadrecvQueue s) ∧
  ∃ flush dump,
    (Log_sendrecv_drop ∉ flush) ∧ (Log_sendrecv_drop ∉ dump) ∧
    recv_log s'
    = recv_log s ++ [Log_recv rec] ++ flush
      ++ (if sendThread_alive s && bool_decide (put_nowait rec (sendThreadrecvQueue s) = None)
          then [Log_sendrecv_drop] else [])
      ++ dump.
Proof.
  unfold recv_enqueue.
  assert (Hput : ∃ q, put_nowait rec
            (if full (recvQueue s) then drain (recvQueue s) else recvQueue s) = Some q).
  { destruct (full (recvQueue s)) eqn:Hfull.
    - rewrite drain_empty, put_nowait_not_full by apply full_empty. eauto.
    - rewrite put_nowait_not_full by done. eauto. }
  destruct Hput as [q Hq].
  destruct (full (recvQueue s)); rewrite Hq;
    destruct (sendThread_alive s), (put_nowait rec (sendThreadrecvQueue s)),
      (sd_recvPacket (rec_pkt rec) (stackDumpReceiver s)) as [[] ?];
    cbn -[elem_of]; (split; [done|]);
    first [ by exists [Log_recv_flush], [Log_stack_dump];
              rewrite <- !app_assoc; split_and!; [not_in_list..|done]
          | by exists [Log_recv_flush], [];
              rewrite <- ?app_assoc; split_and!; [not_in_list..|done]
          | by exists [], [Log_stack_dump];
              rewrite <- ?app_assoc; split_and!; [not_in_list..|done]
          | by exists [], [];
              rewrite <- ?app_assoc; split_and!; [not_in_list..|done] ].
Qed.

(** C8, as the code has it: a full primary queue is emptied and then holds
    the new record alone.  A full secondary queue keeps its contents and
    does not take the record; the warning is logged when the send thread
    is alive, and only then: with no live send thread the record is not
    offered to the secondary queue at all. *)
Theorem queue_overflow_policy rec s :
  let s' := recv_enqueue sd_recvPacket rec s in
  (full (recvQueue s) = true ->
     items (recvQueue s') = [rec] ∧ Log_recv_flush ∈ recv_log s') ∧
  (full (sendThreadrecvQueue s) = true ->
     sendThreadrecvQueue s' = sendThreadrecvQueue s ∧
     ∃ new, recv_log s' = recv_log s ++ new ∧
            (Log_sendrecv_drop ∈ new <-> sendThread_alive s = true)).
Proof.
  intros s'. split.
  - intros Hfull. split.
    + unfold s'. by rewrite recv_enqueue_primary, Hfull.
    + unfold s', recv_enqueue. rewrite Hfull, drain_empty.
      rewrite put_nowait_not_full by apply full_empty.
      destruct (sendThread_alive s), (put_nowait rec (sendThreadrecvQueue s)),
        (sd_recvPacket (rec_pkt rec) (stackDumpReceiver s)) as [[] ?];
        cbn -[elem_of]; rewrite !elem_of_app, !list_elem_of_singleton; tauto.
  - intros Hfull.
    destruct (recv_enqueue_secondary rec s) as (Hq & flush & dump & Hf & Hd & Hlog).
    fold s' in Hq, Hlog. rewrite put_nowait_full in Hq, Hlog by done.
    split; [by destruct (sendThread_alive s)|].
    eexists. split; [exact Hlog|].
    rewrite !elem_of_app, list_elem_of_singleton.
    destruct (sendThread_alive s); cbn -[elem_of].
    + rewrite list_elem_of_singleton. tauto.
    + rewrite elem_of_nil. split; [|done]. intros [?|[?|[[]|?]]]; done.
Qed.

(** C9: a record is always turned into a tuple and enqueued, whatever its
    [time64]; when the date arithmetic overflows, the tuple's time is
    [None], the record is the last element of the primary queue, and the
    exit flag is raised only by a stack dump. *)
Theorem timestamp_overflow_tolerated
    (record_data : bytes) (orig_len inc_len flags drops time64 : Z) s :
  (∃ s', recv_ingest parse_hci_packet sd_recvPacket record_data
                     orig_len inc_len flags drops time64 s = Ret s') ∧
  (_parse_time time64 = Raise OverflowError ->
   let rec := mkRecord (parse_hci_packet record_data)
                       orig_len inc_len flags drops None in
   ∃ s', recv_ingest parse_hci_packet sd_recvPacket record_data
                     orig_len inc_len flags drops time64 s = Ret s' ∧
         last (items (recvQueue s')) = Some rec ∧
         (exit_requested s' = true ->
            exit_requested s = true ∨
            (sd_recvPacket (parse_hci_packet record_data) (stackDumpReceiver s)).1 = true)).
Proof.
  split.
  - unfold recv_ingest, recv_record.
    destruct (try_parse_time_total time64) as [t ->]. cbn [rbind]. eauto.
  - intros Hov rec. unfold recv_ingest, recv_record, try_parse_time.
    rewrite Hov. cbn [rbind]. fold rec. eexists. split; [done|]. split.
    + rewrite recv_enqueue_primary. destruct (full (recvQueue s)); [done|].
      apply last_snoc.
    + unfold recv_enqueue.
      destruct (full (recvQueue s)), (put_nowait rec _),
        (sendThread_alive s), (put_nowait rec (sendThreadrecvQueue s)),
        (sd_recvPacket (rec_pkt rec) (stackDumpReceiver s)) as [[] ?] eqn:Hsd;
        cbn in *; rewrite ?Hsd; cbn; tauto.
Qed.

End ReceiveProps.

(** Both queues full, the send thread alive. *)
Lemma queue_overflow_policy_witness :
  let r0 := mkRecord (HCI_Cmd 0 []) 0 0 0 0 None in
  let r1 := mkRecord (HCI_Event 0x0e []) 4 4 0 0 None in
  let s := mkRecv (mkQueue 1 [r0]) (mkQueue 1 [r0]) true false tt [] in
  let s' := recv_enqueue Ram.no_dump r1 s in
  (full (recvQueue s) = true ∧ full (sendThreadrecvQueue s) = true) ∧
  (items (recvQueue s') = [r1] ∧ Log_recv_flush ∈ recv_log s') ∧
  (sendThreadrecvQueue s' = sendThreadrecvQueue s ∧
   ∃ new, recv_log s' = recv_log s ++ new ∧
          (Log_sendrecv_drop ∈ new <-> sendThread_alive s = true)).
Proof.
  intros r0 r1 s s'.
  pose proof (queue_overflow_policy Ram.no_dump r1 s) as [H1 H2].
  split; [by vm_compute|]. split; [apply H1|apply H2]; by vm_compute.
Defined.

(** C8 as stated fails: with no live send thread, a full secondary queue
    keeps its contents, the record is not added, and no warning is
    logged. *)
Lemma secondary_overflow_without_warning :
  let r0 := mkRecord (HCI_Cmd 0 []) 0 0 0 0 None in
  let r1 := mkRecord (HCI_Event 0x0e []) 4 4 0 0 None in
  let s := mkRecv (mkQueue 1000 []) (mkQueue 1 [r0]) false false tt [] in
  let s' := recv_enqueue Ram.no_dump r1 s in
  full (sendThreadrecvQueue s) = true ∧
  sendThreadrecvQueue s' = sendThreadrecvQueue s ∧
  recv_log s' = [Log_recv r1] ∧
  ¬ (∃ m, m ∈ recv_log s' ∧ level_of m = WARN).
Proof.
  vm_compute. split_and!; try done.
  intros (m & Hm & Hw). apply list_elem_of_singleton in Hm. by subst m.
Qed.

(** [time64 = 0] is the year 0, before the first [datetime]. *)
Lemma timestamp_overflow_tolerated_witness :
  let s := mkRecv (new 1000) (new 1000) true false tt [] in
  let rec := mkRecord (Ram.parse [x04; x0e; x00]) 3 3 0 0 None in
  _parse_time 0 = Raise OverflowError ∧
  ∃ s', recv_ingest Ram.parse Ram.no_dump [x04; x0e; x00] 3 3 0 0 0 s = Ret s' ∧
        last (items (recvQueue s')) = Some rec ∧
        (exit_requested s' = true ->
           exit_requested s = true ∨
           (Ram.no_dump (Ram.parse [x04; x0e; x00]) (stackDumpReceiver s)).1 = true).
Proof.
  intros s rec. split; [by vm_compute|].
  apply (timestamp_overflow_tolerated Ram.parse Ram.no_dump [x04; x0e; x00] 3 3 0 0 0 s).
  by vm_compute.
Defined.

Section TransportProps.

Context (parse_hci_packet : bytes -> HCI_packet) {StackDumpReceiver : Type}
        (sd_recvPacket : HCI_packet -> StackDumpReceiver -> bool * StackDumpReceiver).

Implicit Types (p : Pipeline StackDumpReceiver) (sd : StackDumpReceiver).

Lemma answers_mono seen rec opcode d :
  answers seen opcode d -> answers (seen ++ [rec]) opcode d.
Proof.
  intros (r & Hr & H). exists r. split; [|done]. apply elem_of_app. by left.
Qed.

Lemma is_response_Some opcode r d :
  is_response opcode r = Some d ->
  rec_pkt r = HCI_Event 0x0e d ∧ Some (slice d 1 3) = p16 opcode.
Proof.
  unfold is_response. destruct (rec_pkt r); try done.
  repeat case_decide; intros; simplify_eq. done.
Qed.

Lemma get_nowait_Some {A} (q q' : Queue A) x :
  get_nowait q = Some (x, q') ->
  items q = x :: items q' ∧ maxsize q' = maxsize q.
Proof.
  unfold get_nowait. destruct (items q) eqn:E; intros; simplify_eq. done.
Qed.

Lemma put_nowait_Some {A} (q q' : Queue A) x :
  put_nowait x q = Some q' ->
  items q' = items q ++ [x] ∧ maxsize q' = maxsize q.
Proof. unfold put_nowait. case_match; intros; simplify_eq. done. Qed.

Lemma pipeline_inv_connected queue_size sd :
  pipeline_inv (connected queue_size sd).
Proof.
  unfold pipeline_inv, connected; cbn -[elem_of].
  split_and!; intros; try done; exfalso;
    try (by eapply not_elem_of_nil); by simplify_map_eq.
Qed.

Lemma pipeline_inv_step p p' :
  pipeline_inv p -> step parse_hci_packet sd_recvPacket p p' -> pipeline_inv p'.
Proof.
  intros (Hq & Hw & H2 & Hs & Hr) Hstep.
  destruct Hstep as
    [data ol il fl dr t64 rec p _
    |opcode data q sq' p Hfresh Hfresh' Hput
    |r q2' p Htop Hget
    |p Htop Hget
    |t sq' p Hidle Hget
    |p Hidle Hget
    |t r q2' p p' Hwait Hget Hpoll
    |q p p' Hcol].
  - (* a record arrives *)
    unfold pipeline_inv, on_record; cbn -[elem_of].
    split_and!; [done|done| | |].
    + intros r. destruct (recv_enqueue_secondary sd_recvPacket rec (rx p)) as [-> _].
      rewrite elem_of_app, list_elem_of_singleton.
      destruct (sendThread_alive (rx p)); [|by auto].
      destruct (put_nowait rec _) as [q'|] eqn:Hp; cbn -[elem_of]; [|by auto].
      apply put_nowait_Some in Hp as [-> _].
      rewrite elem_of_app, list_elem_of_singleton. intros [?| ->]; auto.
    + intros q Q HQ. destruct (Hs q Q HQ) as [Hm Hd]. split; [done|].
      intros d (op & ? & ?)%Hd. eauto using answers_mono.
    + intros q d (op & Q & ? & ? & ? & ?)%Hr. eauto 10 using answers_mono.
  - (* a caller submits *)
    apply put_nowait_Some in Hput as [Hitems _].
    unfold pipeline_inv, on_submit; cbn -[elem_of].
    split_and!; [| |done| |].
    + intros t. rewrite Hitems, elem_of_app, list_elem_of_singleton.
      intros [Ht| ->]; cbn.
      * rewrite lookup_insert_ne; [by apply Hq|]. intros ->.
        rewrite (Hq t Ht) in Hfresh'. done.
      * by rewrite lookup_insert_eq.
    + intros t Ht. rewrite lookup_insert_ne; [by apply Hw|]. intros ->.
      rewrite (Hw t Ht) in Hfresh'. done.
    + intros q' Q. destruct (decide (q' = q)) as [->|Hne].
      * rewrite lookup_insert_eq. intros [= <-]. split; [done|].
        intros d Hd. by apply elem_of_nil in Hd.
      * rewrite !lookup_insert_ne by done. apply Hs.
    + intros q' d Hin. destruct (Hr q' d Hin) as (op & Q & ? & HQ & ? & ?).
      assert (q' ≠ q) by (intros ->; by rewrite Hfresh in HQ).
      exists op, Q. by rewrite !lookup_insert_ne.
  - (* the send thread drops a stale record *)
    apply get_nowait_Some in Hget as [Hitems _].
    unfold pipeline_inv, on_flush; cbn -[elem_of].
    split_and!; [done|done| |done|done].
    intros r' Hr'. apply H2. rewrite Hitems. apply elem_of_cons. by right.
  - (* the send thread has flushed *)
    unfold pipeline_inv, with_pc; cbn -[elem_of].
    split_and!; done.
  - (* the send thread takes a task *)
    apply get_nowait_Some in Hget as [Hitems _].
    assert (Ht : sent_by p !! task_queue t = Some (task_opcode t)).
    { apply Hq. rewrite Hitems. apply elem_of_cons. by left. }
    assert (Hq' : ∀ t', t' ∈ items sq' ->
              sent_by p !! task_queue t' = Some (task_opcode t')).
    { intros t' Ht'. apply Hq. rewrite Hitems. apply elem_of_cons. by right. }
    unfold pipeline_inv, on_dispatch.
    destruct (build_frame _ _); cbn -[elem_of];
      [| |by rewrite Hidle]; (split_and!; [done| |done|done|done]).
    + by intros t' [= <-].
    + done.
  - (* the send thread finds no task *)
    unfold pipeline_inv, with_pc; cbn -[elem_of].
    split_and!; done.
  - (* the send thread takes a record *)
    apply get_nowait_Some in Hget as [Hitems _].
    assert (Hseen : r ∈ snoop_seen p).
    { apply H2. rewrite Hitems. apply elem_of_cons. by left. }
    assert (H2' : ∀ r', r' ∈ items q2' -> r' ∈ snoop_seen p).
    { intros r' Hr'. apply H2. rewrite Hitems. apply elem_of_cons. by right. }
    unfold on_poll in Hpoll.
    destruct (is_response (task_opcode t) r) as [d|] eqn:Hresp.
    + destruct (slots p !! task_queue t) as [Q|] eqn:HQ; [|done].
      cbn in Hpoll. destruct (put_nowait d Q) as [Q'|] eqn:HQ'; [|done].
      cbn in Hpoll. injection Hpoll as <-.
      apply put_nowait_Some in HQ' as [HQi HQm].
      apply is_response_Some in Hresp as [Hpkt Hop].
      unfold pipeline_inv; cbn -[elem_of].
      split_and!; [done|done|done| |].
      * intros q Q0. destruct (decide (q = task_queue t)) as [->|Hne].
        -- rewrite lookup_insert_eq. intros [= <-].
           destruct (Hs _ _ HQ) as [Hm Hd]. split; [congruence|].
           intros d'. rewrite HQi, elem_of_app, list_elem_of_singleton.
           intros [Hd'| ->]; [by apply Hd|].
           exists (task_opcode t). split; [by apply Hw|]. by exists r.
        -- rewrite lookup_insert_ne by done. apply Hs.
      * intros q d' Hin. destruct (Hr q d' Hin) as (op & Q0 & ? & HQ0 & ? & ?).
        destruct (decide (q = task_queue t)) as [->|Hne].
        -- exists op, Q'. rewrite lookup_insert_eq. split_and!; try done.
           destruct (Hs _ _ HQ) as [Hm _]. congruence.
        -- exists op, Q0. by rewrite lookup_insert_ne.
    + injection Hpoll as <-. unfold pipeline_inv; cbn -[elem_of].
      split_and!; [done|intros t' [= <-]; by apply Hw|apply H2'|done|done].
  - (* a caller gets its response *)
    unfold on_collect in Hcol.
    destruct (slots p !! q) as [Q|] eqn:HQ; [|done]. cbn in Hcol.
    destruct (get_nowait Q) as [[d Q']|] eqn:Hget; [|done]. cbn in Hcol.
    injection Hcol as <-.
    apply get_nowait_Some in Hget as [Hitems Hmax].
    destruct (Hs _ _ HQ) as [Hm Hd].
    unfold pipeline_inv; cbn -[elem_of].
    split_and!; [done|done|done| |].
    + intros q0 Q0. destruct (decide (q0 = q)) as [->|Hne].
      * rewrite lookup_insert_eq. intros [= <-]. split; [congruence|].
        intros d' Hd'. apply Hd. rewrite Hitems. apply elem_of_cons. by right.
      * rewrite lookup_insert_ne by done. apply Hs.
    + intros q0 d0. rewrite elem_of_app, list_elem_of_singleton.
      intros [Hin|[= -> ->]].
      * destruct (Hr q0 d0 Hin) as (op & Q0 & ? & HQ0 & ? & ?).
        destruct (decide (q0 = q)) as [->|Hne].
        -- exists op, Q'. rewrite lookup_insert_eq. split_and!; try done. congruence.
        -- exists op, Q0. by rewrite lookup_insert_ne.
      * destruct (Hd d) as (op & ? & ?).
        { rewrite Hitems. apply elem_of_cons. by left. }
        exists op, Q'. rewrite lookup_insert_eq. split_and!; try done. congruence.
Qed.

Lemma pipeline_inv_reachable queue_size sd p :
  reachable parse_hci_packet sd_recvPacket queue_size sd p -> pipeline_inv p.
Proof.
  unfold reachable. revert p.
  apply rtc_ind_r; [apply pipeline_inv_connected|].
  eauto using pipeline_inv_step.
Qed.

(** C1: in every state the session can reach, whatever records the receive
    thread took in between, a payload returned to a caller of
    [sendHciCommand] came out of that caller's own one-slot queue and is
    the data of a Command Complete event (event code 0x0E) received on the
    snoop stream whose bytes [1..3] are the opcode the caller sent. *)
Theorem command_correlation queue_size sd p (q : nat) (d : bytes) :
  reachable parse_hci_packet sd_recvPacket queue_size sd p ->
  (q, d) ∈ returned p ->
  ∃ opcode Q r,
    sent_by p !! q = Some opcode ∧
    slots p !! q = Some Q ∧ maxsize Q = 1 ∧
    r ∈ snoop_seen p ∧ rec_pkt r = HCI_Event 0x0e d ∧
    Some (slice d 1 3) = p16 opcode.
Proof.
  intros Hreach Hin.
  destruct (pipeline_inv_reachable _ _ _ Hreach) as (_ & _ & _ & _ & Hr).
  destruct (Hr q d Hin) as (op & Q & ? & ? & ? & r & ? & ? & ?).
  by exists op, Q, r.
Qed.

End TransportProps.

(** The run of [Scenario]: the caller gets the data of the event that
    carries its opcode 0xFC4D, not that of the events before it. *)
Lemma command_correlation_witness :
  reachable Ram.parse Ram.no_dump 1000 tt Scenario.p9 ∧
  (0%nat, [x01; x4d; xfc; x00; x05; x00; x00; x00]) ∈ returned Scenario.p9 ∧
  ∃ opcode Q r,
    sent_by Scenario.p9 !! 0%nat = Some opcode ∧
    slots Scenario.p9 !! 0%nat = Some Q ∧ maxsize Q = 1 ∧
    r ∈ snoop_seen Scenario.p9 ∧
    rec_pkt r = HCI_Event 0x0e [x01; x4d; xfc; x00; x05; x00; x00; x00] ∧
    Some (slice [x01; x4d; xfc; x00; x05; x00; x00; x00] 1 3) = p16 opcode.
Proof.
  assert (Hreach : reachable Ram.parse Ram.no_dump 1000 tt Scenario.p9).
  { unfold reachable.
    eapply (rtc_l _ _ Scenario.p1).
    { by apply (step_submit Ram.parse unit Ram.no_dump 0xfc4d Scenario.read_params 0%nat). }
    eapply (rtc_l _ _ Scenario.p1').
    { by apply (step_flushed Ram.parse unit Ram.no_dump). }
    eapply (rtc_l _ _ Scenario.p2).
    { by apply (step_dispatch Ram.parse unit Ram.no_dump Scenario.read_task). }
    eapply (rtc_l _ _ Scenario.p3).
    { by apply (step_record Ram.parse unit Ram.no_dump Scenario.frame_noise 8 8 1 0 Scenario.year2000). }
    eapply (rtc_l _ _ Scenario.p4).
    { by apply (step_record Ram.parse unit Ram.no_dump Scenario.frame_other 7 7 1 0 Scenario.year2000). }
    eapply (rtc_l _ _ Scenario.p5).
    { by apply (step_record Ram.parse unit Ram.no_dump Scenario.frame_answer 11 11 1 0 Scenario.year2000). }
    eapply (rtc_l _ _ Scenario.p6).
    { by eapply (step_poll Ram.parse unit Ram.no_dump Scenario.read_task). }
    eapply (rtc_l _ _ Scenario.p7).
    { by eapply (step_poll Ram.parse unit Ram.no_dump Scenario.read_task). }
    eapply (rtc_l _ _ Scenario.p8).
    { by eapply (step_poll Ram.parse unit Ram.no_dump Scenario.read_task). }
    eapply (rtc_l _ _ Scenario.p9).
    { by eapply (step_collect Ram.parse unit Ram.no_dump 0%nat). }
    apply rtc_refl. }
  assert (Hin : (0%nat, [x01; x4d; xfc; x00; x05; x00; x00; x00])
                ∈ returned Scenario.p9).
  { vm_compute. by apply list_elem_of_singleton. }
  split; [done|]. split; [done|].
  exact (command_correlation Ram.parse Ram.no_dump 1000 tt Scenario.p9 _ _ Hreach Hin).
Defined.

(** ** The memory access layer *)

Lemma ord_zero b : ord b = 0 <-> b = x00.
Proof.
  unfold ord. split; [|by intros ->].
  intros H. assert (Byte.to_N b = 0%N) as H0 by lia.
  pose proof (Byte.of_to_N b) as Hb. rewrite H0 in Hb. by injection Hb.
Qed.

Lemma slice_from_drop {A} (s : list A) (n : nat) :
  slice_from s (Z.of_nat n) = drop n s.
Proof.
  unfold slice_from, clamp. rewrite decide_False by lia.
  destruct (decide (n <= length s)%nat).
  - by rewrite Z.min_l, Nat2Z.id by lia.
  - rewrite Z.min_r, Nat2Z.id by lia. by rewrite !drop_ge by lia.
Qed.

Lemma pack_Some w n bs :
  pack w n = Some bs -> 0 <= n < 2 ^ (8 * Z.of_nat w) ∧ bs = le_bytes w n.
Proof. unfold pack. case_decide; intros; simplify_eq. done. Qed.

Lemma ord_chr z : 0 <= z < 256 -> ord (chr z) = z.
Proof.
  intros Hz. unfold ord, chr. rewrite Z.mod_small by done.
  destruct (Byte.of_N (Z.to_N z)) as [b|] eqn:Hb.
  - apply Byte.to_of_N in Hb. change (Z.of_N (Byte.to_N b) = z). rewrite Hb. lia.
  - apply Byte.of_N_None_iff in Hb. lia.
Qed.

Lemma slice_all {A} (s : list A) : slice s 0 (0 + Z.of_nat (length s)) = s.
Proof.
  unfold slice, clamp. rewrite !decide_False by lia.
  rewrite Z.add_0_l, Z.min_id, (Z.min_l 0), Z.sub_0_r, Nat2Z.id by lia.
  by rewrite drop_0, firstn_all.
Qed.

Lemma requested_size_chunk addr bs :
  0 <= bs < 256 -> requested_size (0xfc4d, le_bytes 4 addr ++ le_bytes 1 bs) = bs.
Proof.
  intros Hbs. unfold requested_size. cbn [snd].
  rewrite drop_app_length'; [|by rewrite length_le_bytes].
  cbn [le_bytes le_value]. rewrite ord_chr by done. lia.
Qed.

Lemma chunk_requests_sizes k : ∀ addr left,
  251 * (Z.of_nat k - 1) < left ->
  Forall (fun cmd : command => cmd.1 = 0xfc4d ∧ 0 < requested_size cmd <= 251)
         (chunk_requests k addr left).
Proof.
  induction k as [|k IH]; intros addr left Hleft; cbn [chunk_requests]; [done|].
  constructor.
  - split; [done|]. rewrite requested_size_chunk by lia. lia.
  - apply IH. lia.
Qed.

Lemma length_chunk_requests k addr left : length (chunk_requests k addr left) = k.
Proof.
  revert addr left. induction k as [|k IH]; intros; cbn [chunk_requests length]; [done|].
  by rewrite IH.
Qed.

Section MemoryProps.

Context {Ctrl : Type} (hci_exchange : command -> Ctrl -> option bytes * Ctrl).

Implicit Types (s : Session Ctrl) (c : Ctrl).

(** How the steps of a method compose. *)
Lemma mbind_ret {A B} (a : A) (k : A -> M Ctrl B) s :
  mbind (lift (Ret a)) k s = k a s.
Proof. done. Qed.

Lemma mbind_raise {A B} e (k : A -> M Ctrl B) s :
  mbind (lift (Raise e)) k s = (Raise e, s).
Proof. done. Qed.

Lemma mbind_mret {A B} (a : A) (k : A -> M Ctrl B) s :
  mbind (mret a) k s = k a s.
Proof. done. Qed.

Lemma mbind_log {B} m (k : unit -> M Ctrl B) s :
  mbind (log_msg m) k s
  = k tt (mkSession (ses_running s) (ses_exit_requested s) (ctrl s)
                    (hci_trace s) (ses_log s ++ [m]) (callback_log s)).
Proof. done. Qed.

Lemma mbind_sendHciCommand {B} opcode data (k : option bytes -> M Ctrl B) s resp c' :
  hci_exchange (opcode, data) (ctrl s) = (resp, c') ->
  mbind (sendHciCommand hci_exchange opcode data) k s
  = k resp (mkSession (ses_running s) (ses_exit_requested s) c'
                      (hci_trace s ++ [(opcode, data)]) (ses_log s) (callback_log s)).
Proof. intros H. unfold mbind, sendHciCommand. by rewrite H. Qed.

Lemma mbind_check_running {B} (k : bool -> M Ctrl B) s :
  ses_running s = true -> ses_exit_requested s = false ->
  mbind check_running k s = k true s.
Proof.
  intros Hr He. unfold check_running, mbind. cbv beta.
  rewrite He. unfold mret at 1. cbv beta iota. by rewrite Hr.
Qed.

Lemma check_running_returns s : ∃ b s', check_running s = (Ret b, s').
Proof.
  unfold check_running, mbind, mret, shutdown, log_msg.
  destruct (ses_exit_requested s), (ses_running s); cbn; eauto.
Qed.

(** One round of the loop of [readMem] whose response has a status byte. *)
Lemma readMem_loop_round fuel a n ra bc out s r c' st :
  ra < a + n ->
  0 <= ra < 4294967296 ->
  0 < n - bc ->
  hci_exchange (0xfc4d, le_bytes 4 ra ++ le_bytes 1 (Z.min 251 (n - bc))) (ctrl s)
  = (Some r, c') ->
  r !! 3%nat = Some st ->
  readMem_loop hci_exchange (S fuel) a n ra bc out s
  = readMem_loop hci_exchange fuel a n
      (ra + Z.of_nat (length (drop 4 r))) (bc + Z.of_nat (length (drop 4 r)))
      (out ++ drop 4 r)
      (mkSession (ses_running s) (ses_exit_requested s) c'
         (hci_trace s ++ [(0xfc4d, le_bytes 4 ra ++ le_bytes 1 (Z.min 251 (n - bc)))])
         (ses_log s ++ (if decide (st = x00) then []
                        else [Log_readMem_status (ord st)]))
         (callback_log s)).
Proof.
  intros Hlt Hra Hleft Hex Hst.
  cbn [readMem_loop]. rewrite decide_True by done.
  assert (Hbs : (if decide (n - bc > 251) then 251 else n - bc) = Z.min 251 (n - bc)).
  { case_decide; lia. }
  rewrite Hbs.
  rewrite p32_in_range by done. cbn [or_raise]. rewrite mbind_ret.
  rewrite p8_in_range by lia. cbn [or_raise]. rewrite mbind_ret.
  rewrite (mbind_sendHciCommand _ _ _ _ _ _ Hex).
  unfold response_status. rewrite Hst. cbn [or_raise]. rewrite mbind_ret.
  unfold response_data. rewrite (slice_from_drop r 4 : slice_from r 4 = _).
  destruct (decide (st = x00)) as [->|Hne].
  - rewrite decide_False by (by rewrite ord_zero; intros []).
    rewrite mbind_mret. cbn [ses_running ses_exit_requested ctrl hci_trace ses_log callback_log].
    by rewrite app_nil_r.
  - rewrite decide_True by (by rewrite ord_zero).
    by rewrite mbind_log.
Qed.

Lemma session_eta s :
  mkSession (ses_running s) (ses_exit_requested s) (ctrl s) (hci_trace s)
            (ses_log s) (callback_log s) = s.
Proof. by destruct s. Qed.

(** The loop of [readMem] against a controller that answers every read
    in full: the commands it issues and the bytes it returns. *)
Lemma readMem_loop_full k : ∀ fuel a n bc out s,
  full_blocks hci_exchange ->
  0 <= a -> a + n <= 4294967296 -> 0 <= bc <= n ->
  k = Z.to_nat ((n - bc + 250) / 251) -> (k < fuel)%nat ->
  let reqs := chunk_requests k (a + bc) (n - bc) in
  let got := collect_reads hci_exchange reqs (ctrl s) in
  readMem_loop hci_exchange fuel a n (a + bc) bc out s
  = (Ret (out ++ got.1),
     mkSession (ses_running s) (ses_exit_requested s) got.2
               (hci_trace s ++ reqs) (ses_log s) (callback_log s)) ∧
  Z.of_nat (length got.1) = n - bc.
Proof.
  induction k as [|k IH]; intros fuel a n bc out s Hfull Ha Han Hbc Hk Hfuel.
  - assert ((n - bc + 250) / 251 <= 0) as Hq by lia.
    assert (bc = n) as -> by (clear Hk; Z.div_mod_to_equations; lia).
    destruct fuel as [|fuel]; [lia|].
    cbn [chunk_requests collect_reads fst snd readMem_loop].
    rewrite decide_False by lia. unfold mret.
    rewrite !app_nil_r, session_eta. split; [done|]. simpl. lia.
  - assert ((n - bc + 250) / 251 = Z.of_nat (S k)) as Hq by lia.
    assert (0 < n - bc) as Hleft by (clear Hk; Z.div_mod_to_equations; lia).
    destruct fuel as [|fuel]; [lia|].
    destruct (Hfull (a + bc) (Z.min 251 (n - bc)) (ctrl s))
      as (r & c' & Hex & Hst & Hlen); [lia|lia|].
    assert (Hdata : Z.of_nat (length (drop 4 r)) = Z.min 251 (n - bc)).
    { rewrite length_drop, Hlen. lia. }
    cbn zeta.
    rewrite (readMem_loop_round fuel a n (a + bc) bc out s r c' x00)
      by (done || lia).
    rewrite decide_True by done. rewrite app_nil_r, Hdata.
    cbn [chunk_requests collect_reads]. rewrite Hex.
    unfold response_data.
    rewrite !(slice_from_drop r 4 : slice_from r 4 = _).
    set (bc' := bc + Z.min 251 (n - bc)).
    assert (Hk' : k = Z.to_nat ((n - bc' + 250) / 251)).
    { unfold bc'. clear Hk IH.
      assert ((n - (bc + Z.min 251 (n - bc)) + 250) / 251 = Z.of_nat k); [|lia].
      Z.div_mod_to_equations. lia. }
    assert (Hreqs : chunk_requests k (a + bc + 251) (n - bc - 251)
                    = chunk_requests k (a + bc') (n - bc')).
    { destruct k as [|k']; [done|].
      assert (Z.min 251 (n - bc) = 251) as Hmin.
      { clear Hk Hk' IH. Z.div_mod_to_equations. lia. }
      unfold bc'. rewrite Hmin. f_equal; lia. }
    rewrite Hreqs.
    destruct (IH fuel a n bc' (out ++ drop 4 r)
                (mkSession (ses_running s) (ses_exit_requested s) c'
                   (hci_trace s ++ [(0xfc4d, le_bytes 4 (a + bc) ++
                                      le_bytes 1 (Z.min 251 (n - bc)))])
                   (ses_log s) (callback_log s)))
      as [Hrun Hgot]; [done|done|done|unfold bc'; lia|done|lia|].
    cbn [ctrl ses_running ses_exit_requested hci_trace ses_log callback_log] in Hrun, Hgot.
    replace (a + bc + Z.min 251 (n - bc)) with (a + bc') by (unfold bc'; lia).
    rewrite Hrun.
    destruct (collect_reads hci_exchange (chunk_requests k (a + bc') (n - bc')) c')
      as [data c''] eqn:Hcol.
    cbn [fst snd] in *. split.
    + by rewrite <- !app_assoc.
    + rewrite length_app. unfold bc' in Hgot. lia.
Qed.


(** C4: on a running session whose controller answers every read in full
    and with status 0, [readMem(a, n)] for [n > 0] within the 32-bit
    address space issues the [⌈n / 251⌉] read commands of [read_requests],
    each for at most 251 bytes, and returns exactly [n] bytes; for
    [readMem(0x200000, 300)] these are two commands, for 251 and for 49
    bytes. *)
Theorem readMem_chunking fuel a n s :
  full_blocks hci_exchange ->
  ses_running s = true -> ses_exit_requested s = false ->
  0 <= a -> a + n <= 4294967296 -> 0 < n ->
  (Z.to_nat ((n + 250) / 251) < fuel)%nat ->
  ∃ out s',
    readMem hci_exchange fuel a n s = (Ret (Some out), s') ∧
    Z.of_nat (length out) = n ∧
    hci_trace s' = hci_trace s ++ read_requests a n ∧
    (let k := Z.of_nat (length (read_requests a n)) in
     k = (n + 250) / 251 ∧ 251 * (k - 1) < n <= 251 * k) ∧
    Forall (fun cmd : command => cmd.1 = 0xfc4d ∧ 0 < requested_size cmd <= 251)
           (read_requests a n) ∧
    (a = 0x200000 -> n = 300 ->
     requested_size <$> read_requests a n = [251; 49] ∧ length out = 300%nat).
Proof.
  intros Hfull Hrun Hexit Ha Han Hn Hfuel.
  destruct (readMem_loop_full (Z.to_nat ((n + 250) / 251)) fuel a n 0 [] s)
    as [Hloop Hlen]; [done|done|done|lia|by rewrite Z.sub_0_r|done|].
  rewrite Z.add_0_r, Z.sub_0_r in Hloop, Hlen. cbn [app] in Hloop.
  eexists _, _. split_and!.
  - unfold readMem. rewrite mbind_check_running by done. cbn [negb].
    unfold mbind. rewrite Hloop. done.
  - done.
  - done.
  - unfold read_requests. rewrite length_chunk_requests.
    assert (0 <= (n + 250) / 251) by (Z.div_mod_to_equations; lia).
    rewrite Z2Nat.id by done. cbn zeta. split; [done|].
    Z.div_mod_to_equations. lia.
  - apply chunk_requests_sizes.
    assert (0 <= (n + 250) / 251) by (Z.div_mod_to_equations; lia).
    rewrite Z2Nat.id by done. Z.div_mod_to_equations. lia.
  - intros -> ->. split; [by vm_compute|]. lia.
Qed.

(** The loop of [readMem] ends when every response brings at least one
    byte: the distance to the end of the block shrinks in every round. *)
Lemma readMem_loop_terminates fuel : ∀ a n bc out s,
  some_progress hci_exchange ->
  (Z.to_nat (n - bc) < fuel)%nat ->
  (readMem_loop hci_exchange fuel a n (a + bc) bc out s).1 ≠ Diverge.
Proof.
  induction fuel as [|fuel IH]; intros a n bc out s Hprog Hfuel; [lia|].
  cbn [readMem_loop]. case_decide as Hlt; [|done].
  destruct (p32 (a + bc)) as [addr_bytes|] eqn:Haddr; cbn [or_raise];
    [rewrite mbind_ret|by rewrite mbind_raise].
  destruct (p8 _) as [size_byte|] eqn:Hsize; cbn [or_raise];
    [rewrite mbind_ret|by rewrite mbind_raise].
  apply pack_Some in Haddr as [Hra ->]. apply pack_Some in Hsize as [Hbs ->].
  destruct (Hprog (a + bc) (if decide (n - bc > 251) then 251 else n - bc) (ctrl s))
    as (r & c' & Hex & Hlen); [done|case_decide; lia|].
  rewrite (mbind_sendHciCommand _ _ _ _ _ _ Hex).
  assert (is_Some (r !! 3%nat)) as [st Hst] by (apply lookup_lt_is_Some_2; lia).
  unfold response_status. rewrite Hst. cbn [or_raise]. rewrite mbind_ret.
  assert (Hdata : (1 <= length (response_data (Some r)))%nat).
  { unfold response_data. rewrite (slice_from_drop r 4 : slice_from r 4 = _).
    rewrite length_drop. lia. }
  rewrite <- !Z.add_assoc.
  destruct (decide (ord st ≠ 0)); [rewrite mbind_log|rewrite mbind_mret];
    apply IH; try done; lia.
Qed.

(** Inside the address space the loop does not only end, it returns, with
    at least the bytes asked for. *)
Lemma readMem_loop_returns fuel : ∀ a n bc out s,
  some_progress hci_exchange ->
  0 <= a -> a + n <= 4294967296 -> 0 <= bc ->
  (Z.to_nat (n - bc) < fuel)%nat ->
  ∃ out' s',
    readMem_loop hci_exchange fuel a n (a + bc) bc out s = (Ret (out ++ out'), s') ∧
    n - bc <= Z.of_nat (length out').
Proof.
  induction fuel as [|fuel IH]; intros a n bc out s Hprog Ha Hend Hbc Hfuel; [lia|].
  destruct (decide (a + bc < a + n)) as [Hlt|Hge].
  - destruct (Hprog (a + bc) (Z.min 251 (n - bc)) (ctrl s))
      as (r & c' & Hex & Hlen); [lia|lia|].
    assert (is_Some (r !! 3%nat)) as [st Hst] by (apply lookup_lt_is_Some_2; lia).
    rewrite (readMem_loop_round fuel a n (a + bc) bc out s r c' st) by (done || lia).
    assert (Hdata : (1 <= length (drop 4 r))%nat) by (rewrite length_drop; lia).
    rewrite <- Z.add_assoc.
    edestruct (IH a n (bc + Z.of_nat (length (drop 4 r))) (out ++ drop 4 r))
      as (out' & s' & Hrun & Hout); [done|done|done|lia|lia|].
    rewrite Hrun. exists (drop 4 r ++ out'), s'.
    rewrite app_assoc. split; [done|]. rewrite length_app. lia.
  - cbn [readMem_loop]. rewrite decide_False by done.
    exists [], s. rewrite app_nil_r. split; [done|]. cbn [length]. lia.
Qed.

(** The loop of [readMem] against a controller whose responses carry no
    data: round after round the same command, until the fuel ends. *)
Lemma readMem_loop_stalls fuel : ∀ a n out s,
  no_progress hci_exchange ->
  0 <= a < 4294967296 -> 0 < n ->
  ∃ s', readMem_loop hci_exchange fuel a n a 0 out s = (Diverge, s') ∧
        hci_trace s' = hci_trace s ++
          replicate fuel (0xfc4d, le_bytes 4 a ++ le_bytes 1 (Z.min 251 n)).
Proof.
  induction fuel as [|fuel IH]; intros a n out s Hstall Ha Hn.
  - exists s. split; [done|]. by rewrite app_nil_r.
  - destruct (Hstall (le_bytes 4 a ++ le_bytes 1 (Z.min 251 (n - 0))) (ctrl s))
      as (r & Hex & Hlen).
    assert (is_Some (r !! 3%nat)) as [st Hst] by (apply lookup_lt_is_Some_2; lia).
    rewrite (readMem_loop_round fuel a n a 0 out s r (ctrl s) st)
      by (done || lia).
    rewrite drop_ge by lia. cbn [length]. rewrite !Z.add_0_r, app_nil_r.
    edestruct (IH a n out) as (s' & Hrun & Htrace); [done..|].
    exists s'. split; [exact Hrun|]. rewrite Htrace.
    cbn [hci_trace replicate]. rewrite Z.sub_0_r, <- app_assoc. done.
Qed.

(** C10: with at least one data byte in every response, [readMem(a, n)]
    comes to an end for every address and every [n >= 0]: fuel above [n]
    is never used up, and for a block inside the address space the call
    returns, on a running session with at least [n] bytes.  With empty
    data sections the loop does not advance: it sends the identical
    command in every round and never ends. *)
Theorem readMem_termination :
  (some_progress hci_exchange ->
   ∀ a n s fuel, 0 <= n -> (Z.to_nat n < fuel)%nat ->
     (readMem hci_exchange fuel a n s).1 ≠ Diverge ∧
     (ses_running s = true -> ses_exit_requested s = false ->
      0 <= a -> a + n <= 4294967296 ->
      ∃ out s', readMem hci_exchange fuel a n s = (Ret (Some out), s') ∧
                n <= Z.of_nat (length out))) ∧
  (no_progress hci_exchange ->
   ∀ a n s fuel,
     ses_running s = true -> ses_exit_requested s = false ->
     0 <= a < 4294967296 -> 0 < n ->
     ∃ s', readMem hci_exchange fuel a n s = (Diverge, s') ∧
           hci_trace s' = hci_trace s ++
             replicate fuel (0xfc4d, le_bytes 4 a ++ le_bytes 1 (Z.min 251 n))).
Proof.
  split.
  - intros Hprog a n s fuel Hn Hfuel. split.
    + unfold readMem, mbind at 1.
      destruct (check_running_returns s) as ([] & s1 & ->); [|done].
      cbn [negb]. unfold mbind.
      pose proof (readMem_loop_terminates fuel a n 0 [] s1 Hprog) as Hend.
      rewrite Z.add_0_r in Hend.
      destruct (readMem_loop hci_exchange fuel a n a 0 [] s1) as [[]?]; try done.
      exfalso. apply Hend; [lia|done].
    + intros Hrun Hexit Ha Hspace.
      destruct (readMem_loop_returns fuel a n 0 [] s Hprog)
        as (out & s' & Hloop & Hout); [done|done|lia|lia|].
      rewrite Z.add_0_r in Hloop. cbn [app] in Hloop.
      exists out, s'. unfold readMem. rewrite mbind_check_running by done.
      cbn [negb]. unfold mbind. rewrite Hloop. split; [done|lia].
  - intros Hstall a n s fuel Hrun Hexit Ha Hn.
    unfold readMem. rewrite mbind_check_running by done. cbn [negb].
    destruct (readMem_loop_stalls fuel a n [] s Hstall Ha Hn) as (s' & Hloop & Htrace).
    exists s'. unfold mbind. by rewrite Hloop.
Qed.

(** A write of one chunk that the controller accepts. *)
Lemma writeMem_accepted address data s :
  writes_accepted hci_exchange ->
  ses_running s = true -> ses_exit_requested s = false ->
  0 <= address < 4294967296 -> (0 < length data <= 251)%nat ->
  ∃ c', writeMem hci_exchange address data s
        = (Ret (Some true),
           mkSession true false c'
                     (hci_trace s ++ [(0xfc4c, le_bytes 4 address ++ data)])
                     (ses_log s) (callback_log s)).
Proof.
  intros Hacc Hrun Hexit Haddr Hlen.
  destruct (Hacc (le_bytes 4 address ++ data) (ctrl s)) as (r & c' & Hex & Hst).
  exists c'. unfold writeMem. rewrite mbind_check_running by done. cbn [negb].
  unfold mbind at 1. cbn [writeMem_loop].
  rewrite decide_True by lia. rewrite decide_False by lia.
  rewrite p32_in_range by done. cbn [or_raise]. rewrite mbind_ret.
  rewrite Z.sub_0_r, slice_all.
  rewrite (mbind_sendHciCommand _ _ _ _ _ _ Hex).
  unfold response_status. rewrite Hst. cbn [or_raise]. rewrite mbind_ret.
  rewrite decide_False by (by intros []).
  destruct (length data) as [|len] eqn:Hl; [lia|]. cbn [writeMem_loop].
  rewrite decide_False by lia. unfold mret. by rewrite Hrun, Hexit.
Qed.

(** C7: on a running session whose controller accepts writes,
    [patchRom(a, p)] for a 32-bit address and a 4-byte patch issues three
    write commands and nothing else: [p] at [0xD0000 + slot*4], the
    little-endian word [a >> 2] at [0x310000 + slot*4], and at
    [0x310204 + (slot/32)*4] the enable word, which has bit [slot mod 32]
    set; [slot] is 113. *)
Theorem patchRom_effect a patch s :
  writes_accepted hci_exchange ->
  ses_running s = true -> ses_exit_requested s = false ->
  0 <= a < 4294967296 -> length patch = 4%nat ->
  ∃ s' enable,
    patchRom hci_exchange a patch s = (Ret true, s') ∧
    hci_trace s' = hci_trace s ++
      [ (0xfc4c, le_bytes 4 (0xD0000 + slot * 4) ++ patch);
        (0xfc4c, le_bytes 4 (0x310000 + slot * 4) ++ le_bytes 4 (Z.shiftr a 2));
        (0xfc4c, le_bytes 4 (0x310204 + slot / 32 * 4) ++ le_bytes 4 enable) ] ∧
    Z.testbit enable (slot mod 32) = true ∧
    enable = Z.lor 0x0000ffff (Z.shiftl 1 (slot mod 32)) ∧
    ses_log s' = ses_log s.
Proof.
  intros Hacc Hrun Hexit Ha Hlen.
  assert (Hshift : 0 <= Z.shiftr a 2 < 4294967296).
  { rewrite Z.shiftr_div_pow2 by lia. change (2 ^ 2) with 4.
    Z.div_mod_to_equations. lia. }
  unfold patchRom. rewrite decide_False by (by rewrite Hlen; intros []).
  change (slot_dwords_init !! Z.to_nat (slot / 32)) with (Some 0x0000ffff).
  cbn [or_raise]. rewrite mbind_ret.
  change (Z.land 0x0000ffff (Z.shiftl 1 (slot mod 32))) with 0.
  rewrite decide_False by (by intros []). rewrite mbind_mret.
  destruct (writeMem_accepted (0xd0000 + slot * 4) patch s)
    as (c1 & Hw1); [done|done|done|by vm_compute|lia|].
  unfold mbind at 1. rewrite Hw1.
  rewrite p32_in_range by done. cbn [or_raise]. rewrite mbind_ret.
  destruct (writeMem_accepted (0x310000 + slot * 4) (le_bytes 4 (Z.shiftr a 2))
              (mkSession true false c1
                 (hci_trace s ++ [(0xfc4c, le_bytes 4 (0xd0000 + slot * 4) ++ patch)])
                 (ses_log s) (callback_log s)))
    as (c2 & Hw2); [done|done|done|by vm_compute|by rewrite length_le_bytes; lia|].
  unfold mbind at 1. rewrite Hw2.
  change (<[Z.to_nat (slot / 32):=Z.lor 0x0000ffff (Z.shiftl 1 (slot mod 32))]>
            slot_dwords_init !! Z.to_nat (slot / 32))
    with (Some (Z.lor 0x0000ffff (Z.shiftl 1 (slot mod 32)))).
  cbn [or_raise]. rewrite mbind_ret.
  rewrite p32_in_range by (by vm_compute).
  cbn [or_raise]. rewrite mbind_ret.
  cbn [hci_trace ses_log callback_log].
  edestruct (writeMem_accepted (0x310204 + slot / 32 * 4)
               (le_bytes 4 (Z.lor 0x0000ffff (Z.shiftl 1 (slot mod 32)))))
    as (c3 & Hw3); [done| | |by vm_compute|by rewrite length_le_bytes; lia|].
  3:{ unfold mbind at 1. rewrite Hw3. unfold mret.
      eexists _, _. split; [done|]. cbn [hci_trace ses_log].
      rewrite <- !app_assoc. done. }
  all: done.
Qed.

End MemoryProps.

(** ** The controllers of [Ram] *)

Lemma length_mem_bytes m addr n : length (Ram.mem_bytes m addr n) = n.
Proof. unfold Ram.mem_bytes. by rewrite length_fmap, length_seq. Qed.

Lemma ram_read m addr bs :
  0 <= bs < 256 ->
  Ram.exchange (0xfc4d, le_bytes 4 addr ++ le_bytes 1 bs) m
  = (Some ([x01; x4d; xfc; x00] ++ Ram.mem_bytes m (le_value (le_bytes 4 addr)) (Z.to_nat bs)), m).
Proof.
  intros Hbs. unfold Ram.exchange. rewrite decide_True by done.
  rewrite take_app_length', drop_app_length' by (by rewrite length_le_bytes).
  cbn [le_bytes le_value]. rewrite (ord_chr bs) by done.
  by rewrite !Z.mul_0_r, !Z.add_0_r.
Qed.

Lemma ram_full_blocks : full_blocks Ram.exchange.
Proof.
  intros addr bs m Haddr Hbs. eexists _, _. split; [apply ram_read; lia|].
  split; [done|]. cbn [app length]. by rewrite length_mem_bytes.
Qed.

Lemma ram_some_progress : some_progress Ram.exchange.
Proof.
  intros addr bs m Haddr Hbs.
  destruct (ram_full_blocks addr bs m Haddr Hbs) as (r & c' & ? & ? & Hlen).
  exists r, c'. split; [done|]. lia.
Qed.

Lemma ram_writes_accepted : writes_accepted Ram.exchange.
Proof.
  intros params m. eexists _, _. unfold Ram.exchange.
  rewrite decide_False by done. rewrite decide_True by done. done.
Qed.

Lemma rejecting_no_progress st : no_progress (Ram.rejecting st []).
Proof. intros params []. eexists. split; [done|]. done. Qed.

(** [readMem(0x200000, 300)] on a memory. *)
Lemma readMem_chunking_witness :
  ∃ out s',
    readMem Ram.exchange 3 0x200000 300 (Ram.session ∅) = (Ret (Some out), s') ∧
    Z.of_nat (length out) = 300 ∧
    hci_trace s' = [] ++ read_requests 0x200000 300 ∧
    (let k := Z.of_nat (length (read_requests 0x200000 300)) in
     k = (300 + 250) / 251 ∧ 251 * (k - 1) < 300 <= 251 * k) ∧
    Forall (fun cmd : command => cmd.1 = 0xfc4d ∧ 0 < requested_size cmd <= 251)
           (read_requests 0x200000 300) ∧
    (0x200000 = 0x200000 -> 300 = 300 ->
     requested_size <$> read_requests 0x200000 300 = [251; 49] ∧
     length out = 300%nat).
Proof.
  apply (readMem_chunking Ram.exchange 3 0x200000 300 (Ram.session ∅)).
  - apply ram_full_blocks.
  - done.
  - done.
  - lia.
  - lia.
  - lia.
  - vm_compute. lia.
Defined.

(** A memory ends the loop; a controller that returns no data keeps it
    sending the first command. *)
Lemma readMem_termination_witness :
  (readMem Ram.exchange 301 0x200000 300 (Ram.session ∅)).1 ≠ Diverge ∧
  (∃ out s', readMem Ram.exchange 301 0x200000 300 (Ram.session ∅)
             = (Ret (Some out), s') ∧ 300 <= Z.of_nat (length out)) ∧
  ∃ s', readMem (Ram.rejecting x00 []) 7 0x200000 300 (Ram.session tt) = (Diverge, s') ∧
        hci_trace s' = [] ++ replicate 7 (0xfc4d, le_bytes 4 0x200000 ++ le_bytes 1 (Z.min 251 300)).
Proof.
  destruct (proj1 (readMem_termination Ram.exchange) ram_some_progress
              0x200000 300 (Ram.session ∅) 301%nat) as [Hends Hreturns]; [lia|lia|].
  split; [exact Hends|]. split.
  - apply Hreturns; (done || lia).
  - apply (proj2 (readMem_termination (Ram.rejecting x00 [])) (rejecting_no_progress x00));
      (done || lia).
Defined.

(** The three writes of [patchRom(0x3f3f4, 00 BD F7 AA)]. *)
Lemma patchRom_effect_witness :
  ∃ s' enable,
    patchRom Ram.exchange 0x3f3f4 [x00; xbd; xf7; xaa] (Ram.session ∅) = (Ret true, s') ∧
    hci_trace s' = [] ++
      [ (0xfc4c, le_bytes 4 (0xD0000 + slot * 4) ++ [x00; xbd; xf7; xaa]);
        (0xfc4c, le_bytes 4 (0x310000 + slot * 4) ++ le_bytes 4 (Z.shiftr 0x3f3f4 2));
        (0xfc4c, le_bytes 4 (0x310204 + slot / 32 * 4) ++ le_bytes 4 enable) ] ∧
    Z.testbit enable (slot mod 32) = true ∧
    enable = Z.lor 0x0000ffff (Z.shiftl 1 (slot mod 32)) ∧
    ses_log s' = [].
Proof.
  apply (patchRom_effect Ram.exchange 0x3f3f4 [x00; xbd; xf7; xaa] (Ram.session ∅)).
  - apply ram_writes_accepted.
  - done.
  - done.
  - lia.
  - done.
Defined.

(** C6 at a controller that answers every command with status 1:
    [readMem] logs its warning for each chunk, appends the bytes after the
    status and goes on to the end; [writeMem] and [launchRam] do not return
    [False]: formatting the warning, ["%x" % response[3]] with a string
    operand, raises [TypeError] before [log.warn] and [return False] are
    reached. *)
Theorem nonzero_status_outcomes :
  readMem (Ram.rejecting x01 [xaa; xbb]) 3 0xd0000 4 (Ram.session tt)
  = (Ret (Some [xaa; xbb; xaa; xbb]),
     mkSession true false tt
       [(0xfc4d, [x00; x00; x0d; x00; x04]); (0xfc4d, [x02; x00; x0d; x00; x02])]
       [Log_readMem_status 1; Log_readMem_status 1] []) ∧
  writeMem (Ram.rejecting x01 []) 0xd0000 [x00; xbd] (Ram.session tt)
  = (Raise TypeError,
     mkSession true false tt [(0xfc4c, [x00; x00; x0d; x00; x00; xbd])] [] []) ∧
  launchRam (Ram.rejecting x01 []) 0xd0000 (Ram.session tt)
  = (Raise TypeError,
     mkSession true false tt [(0xfc4e, [x00; x00; x0d; x00])] [] []).
Proof. vm_compute. done. Qed.

(** ** The monitor: delivery *)

Section SortBy.

Context {A : Type} (key : A -> Z).

Lemma insert_by_perm x l : insert_by key x l ≡ₚ x :: l.
Proof.
  induction l as [|y l IH]; cbn [insert_by]; [done|].
  case_decide; [|done]. rewrite IH. apply Permutation_swap.
Qed.

Lemma insert_by_sorted x l :
  Sorted (fun a b => key a <= key b) l ->
  Sorted (fun a b => key a <= key b) (insert_by key x l).
Proof.
  induction 1 as [|y l Hsorted IH Hhd]; cbn [insert_by].
  - by repeat constructor.
  - case_decide as Hle.
    + constructor; [done|].
      destruct Hhd as [|z l Hyz]; cbn [insert_by]; [by constructor|].
      case_decide; by constructor.
    + constructor; [by constructor|]. constructor. lia.
Qed.

Lemma sort_by_acc l : ∀ acc,
  Sorted (fun a b => key a <= key b) acc ->
  Sorted (fun a b => key a <= key b) (foldl (fun acc x => insert_by key x acc) acc l) ∧
  foldl (fun acc x => insert_by key x acc) acc l ≡ₚ acc ++ l.
Proof.
  induction l as [|x l IH]; intros acc Hacc; cbn [foldl].
  - by rewrite app_nil_r.
  - destruct (IH (insert_by key x acc)) as [Hs Hp]; [by apply insert_by_sorted|].
    split; [done|]. rewrite Hp, insert_by_perm.
    apply Permutation_middle.
Qed.

Lemma sort_by_sorted l : Sorted (fun a b => key a <= key b) (sort_by key l).
Proof. apply sort_by_acc. constructor. Qed.

Lemma sort_by_perm l : sort_by key l ≡ₚ l.
Proof. apply (sort_by_acc l []). constructor. Qed.

Lemma sorted_prefix (l1 l2 : list A) :
  l1 `prefix_of` l2 ->
  Sorted (fun a b => key a <= key b) l2 -> Sorted (fun a b => key a <= key b) l1.
Proof.
  intros [k ->] Hs. revert Hs. induction l1 as [|x l1 IH]; [by constructor|].
  cbn [app]. intros Hs. apply Sorted_inv in Hs as [Hs Hhd]. constructor; [auto|].
  destruct l1; [constructor|]. apply HdRel_inv in Hhd. by constructor.
Qed.

End SortBy.

Section Frame.

Context {Ctrl : Type} (hci_exchange : command -> Ctrl -> option bytes * Ctrl).

Lemma keeps_mret {A} (a : A) : keeps_callback_log (Ctrl := Ctrl) (mret a).
Proof. done. Qed.

Lemma keeps_lift {A} (r : result A) : keeps_callback_log (Ctrl := Ctrl) (lift r).
Proof. done. Qed.

Lemma keeps_log m : keeps_callback_log (Ctrl := Ctrl) (log_msg m).
Proof. done. Qed.

Lemma keeps_mbind {A B} (m : M Ctrl A) (k : A -> M Ctrl B) :
  keeps_callback_log m -> (∀ a, keeps_callback_log (k a)) ->
  keeps_callback_log (mbind m k).
Proof.
  intros Hm Hk s. unfold mbind. specialize (Hm s).
  destruct (m s) as [[a|e|] s1]; cbn [snd] in *; [|done..].
  by rewrite Hk.
Qed.

Lemma keeps_sendHciCommand opcode data :
  keeps_callback_log (sendHciCommand hci_exchange opcode data).
Proof. intros s. unfold sendHciCommand. by destruct (hci_exchange _ _). Qed.

Lemma keeps_check_running : keeps_callback_log (Ctrl := Ctrl) check_running.
Proof.
  intros s. unfold check_running, mbind, mret, shutdown, log_msg.
  by destruct (ses_exit_requested s), (ses_running s).
Qed.

Lemma keeps_readMem_loop fuel : ∀ a n ra bc out,
  keeps_callback_log (readMem_loop hci_exchange fuel a n ra bc out).
Proof.
  induction fuel as [|fuel IH]; intros a n ra bc out; cbn [readMem_loop];
    [apply keeps_lift|].
  case_decide; [|apply keeps_mret].
  repeat first
    [ apply keeps_mbind; [|intros ?]
    | apply keeps_lift | apply keeps_sendHciCommand
    | apply IH
    | case_decide; [apply keeps_log|apply keeps_mret] ].
Qed.

Lemma keeps_readMem fuel a n : keeps_callback_log (readMem hci_exchange fuel a n).
Proof.
  unfold readMem. apply keeps_mbind; [apply keeps_check_running|].
  intros []; cbn [negb]; [|apply keeps_mret].
  apply keeps_mbind; [apply keeps_readMem_loop|intros ?; apply keeps_mret].
Qed.

Lemma keeps_read_connection_addresses caa csl fuel numbers : ∀ acc,
  keeps_callback_log
    (read_connection_addresses hci_exchange caa csl fuel numbers acc).
Proof.
  induction numbers as [|number rest IH]; intros acc;
    cbn [read_connection_addresses]; [apply keeps_mret|].
  apply keeps_mbind; [apply keeps_readMem|intros ?].
  apply keeps_mbind; [apply keeps_lift|intros ?]. apply IH.
Qed.

End Frame.

Section Delivery.

Context {Ctrl : Type} (hci_exchange : command -> Ctrl -> option bytes * Ctrl)
        (CONNECTION_ARRAY_ADDRESS CONNECTION_STRUCT_LENGTH : Z)
        (LMP_LENGTHS LMP_ESC_LENGTHS : Z -> option Z)
        (set_iter : list Z -> list Z).

Implicit Types (s : Session Ctrl) (e : entry).

(** One entry: the callback is called once, for that entry, unless an
    exception leaves the loop before the call; an entry that is not newer
    than the last one is reported and delivered all the same. *)
Lemma deliver_entry_outcome dev ca e last s :
  match deliver_entry LMP_LENGTHS LMP_ESC_LENGTHS dev ca e last s with
  | (Ret index, s') =>
      index = entry_key e ∧
      ∃ d, callback_log s' = callback_log s ++ [d] ∧ dlv_entry d = e ∧
           (entry_key e <= last -> Log_old_packet (entry_key e) last ∈ ses_log s')
  | (Raise _, s') => callback_log s' = callback_log s
  | (Diverge, _) => False
  end.
Proof.
  unfold deliver_entry, mbind, lift, mret, log_msg, call_monitorCallback,
    entry_connection_number, or_raise, rbind, entry_key.
  repeat (case_match; simplify_eq; cbn -[elem_of] in *; try done).
  all: split; [done|]; eexists; split; [done|]; split; [done|]; intros Hold;
    rewrite ?elem_of_app, ?list_elem_of_singleton; try lia; auto.
Qed.

Lemma deliver_entries_outcome dev ca entries : ∀ last s r s',
  deliver_entries LMP_LENGTHS LMP_ESC_LENGTHS dev ca entries last s = (r, s') ->
  r ≠ Diverge ∧
  ∃ delivered,
    callback_log s' = callback_log s ++ delivered ∧
    dlv_entry <$> delivered `prefix_of` entries ∧
    (∀ last', r = Ret last' -> dlv_entry <$> delivered = entries).
Proof.
  induction entries as [|e rest IH]; intros last s r s' Hrun;
    cbn [deliver_entries] in Hrun.
  - injection Hrun as <- <-. split; [done|]. exists []. by rewrite app_nil_r.
  - unfold mbind in Hrun.
    pose proof (deliver_entry_outcome dev ca e last s) as Hone.
    destruct (deliver_entry _ _ _ _ _ _ _) as [[index|ex|] s1]; [| |done].
    + destruct Hone as (_ & d & Hlog & Hd & _).
      destruct (IH _ _ _ _ Hrun) as (Hr & delivered & Hlog' & Hpre & Hall).
      split; [done|]. exists (d :: delivered). split_and!.
      * by rewrite Hlog', Hlog, <- app_assoc.
      * rewrite fmap_cons, Hd. by apply prefix_cons.
      * intros last' Hret. rewrite fmap_cons, Hd. f_equal. eauto.
    + injection Hrun as <- <-. split; [done|]. exists []. rewrite app_nil_r.
      split_and!; [done|apply prefix_nil|done].
Qed.

(** The log only grows while an entry is delivered. *)
Lemma deliver_entry_log dev ca e last s :
  ses_log s `prefix_of`
  ses_log (deliver_entry LMP_LENGTHS LMP_ESC_LENGTHS dev ca e last s).2.
Proof.
  unfold deliver_entry, mbind, lift, mret, log_msg, call_monitorCallback,
    entry_connection_number, or_raise, rbind.
  repeat (case_match; simplify_eq; cbn -[elem_of] in *; try done).
  all: repeat apply prefix_app_r; done.
Qed.

(** The warnings of a batch: [lastCapturedIndex] is the index the round
    started from when the first entry is delivered and the sequence number
    of the entry before it afterwards; an entry that is not above it is
    reported as old. *)
Lemma deliver_entries_old dev ca entries : ∀ last s r s',
  deliver_entries LMP_LENGTHS LMP_ESC_LENGTHS dev ca entries last s = (r, s') ->
  ses_log s `prefix_of` ses_log s' ∧
  ∃ delivered,
    callback_log s' = callback_log s ++ delivered ∧
    ∀ (i : nat) d prev,
      delivered !! i = Some d ->
      (last :: (entry_key <$> (dlv_entry <$> delivered))) !! i = Some prev ->
      entry_key (dlv_entry d) <= prev ->
      Log_old_packet (entry_key (dlv_entry d)) prev ∈ ses_log s'.
Proof.
  induction entries as [|e rest IH]; intros last s r s' Hrun;
    cbn [deliver_entries] in Hrun.
  - injection Hrun as <- <-. split; [done|]. exists []. rewrite app_nil_r.
    split; [done|]. intros i d prev Hd. by rewrite lookup_nil in Hd.
  - unfold mbind in Hrun.
    pose proof (deliver_entry_outcome dev ca e last s) as Hone.
    pose proof (deliver_entry_log dev ca e last s) as Hpre.
    destruct (deliver_entry _ _ _ _ _ _ _) as [[index|ex|] s1]; [| |done].
    + destruct Hone as (-> & d & Hlog & Hd & Hold). cbn [snd] in Hpre.
      destruct (IH _ _ _ _ Hrun) as (Hpre' & delivered & Hlog' & Hwarn).
      split; [by etrans|]. exists (d :: delivered). split.
      * by rewrite Hlog', Hlog, <- app_assoc.
      * intros [|i] d' prev Hd' Hprev Hle; cbn in Hd', Hprev.
        -- injection Hd' as <-. injection Hprev as <-. rewrite Hd in Hle |- *.
           eapply elem_of_prefix; [by apply Hold|done].
        -- rewrite Hd in Hprev. by eapply Hwarn.
    + injection Hrun as <- <-. cbn [snd] in Hpre. split; [done|].
      exists []. rewrite app_nil_r. split; [done|].
      intros i d prev Hd. by rewrite lookup_nil in Hd.
Qed.

(** C2, as the code has it: in one round the callback is called on the
    entries of the batch in ascending order of [counter_tag & 0x7FFFFFFF];
    the calls made are a prefix of the sorted batch, and the whole of it,
    every entry once, when the round completes.  No entry is held back:
    one whose sequence number is not above [lastCapturedIndex] when its
    turn comes (the index the round started from for the first entry, the
    sequence number of the entry delivered before it for the others) is
    reported with the warning "got an old packet" and passed to the
    callback like the others. *)
Theorem monitor_delivery_order fuel dev last cur data entries s r s' :
  parse_entries data = Ret entries ->
  monitor_deliver hci_exchange CONNECTION_ARRAY_ADDRESS CONNECTION_STRUCT_LENGTH
    LMP_LENGTHS LMP_ESC_LENGTHS set_iter fuel dev last cur (Some data) s = (r, s') ->
  ∃ delivered,
    callback_log s' = callback_log s ++ delivered ∧
    Sorted (fun e1 e2 => entry_key e1 <= entry_key e2) (dlv_entry <$> delivered) ∧
    dlv_entry <$> delivered `prefix_of` sort_by entry_key entries ∧
    sort_by entry_key entries ≡ₚ entries ∧
    (∀ last', r = Ret last' ->
       dlv_entry <$> delivered = sort_by entry_key entries ∧
       ∀ e, e ∈ entries -> ∃ d, d ∈ delivered ∧ dlv_entry d = e) ∧
    (∀ (i : nat) d prev,
       delivered !! i = Some d ->
       (last :: (entry_key <$> (dlv_entry <$> delivered))) !! i = Some prev ->
       entry_key (dlv_entry d) <= prev ->
       Log_old_packet (entry_key (dlv_entry d)) prev ∈ ses_log s').
Proof.
  intros Hparse Hrun.
  assert (Hgoal : ∃ delivered,
    callback_log s' = callback_log s ++ delivered ∧
    dlv_entry <$> delivered `prefix_of` sort_by entry_key entries ∧
    (∀ last', r = Ret last' -> dlv_entry <$> delivered = sort_by entry_key entries) ∧
    (∀ (i : nat) d prev,
       delivered !! i = Some d ->
       (last :: (entry_key <$> (dlv_entry <$> delivered))) !! i = Some prev ->
       entry_key (dlv_entry d) <= prev ->
       Log_old_packet (entry_key (dlv_entry d)) prev ∈ ses_log s')).
  { unfold monitor_deliver in Hrun. cbn [or_raise] in Hrun.
    rewrite mbind_ret, Hparse, mbind_ret, mbind_log in Hrun.
    destruct (result_map entry_connection_number (sort_by entry_key entries))
      as [numbers|ex|].
    2,3: (injection Hrun as <- <-; exists []; rewrite app_nil_r;
          split_and!; [done|apply prefix_nil|done|];
          intros i d prev Hd; by rewrite lookup_nil in Hd).
    rewrite mbind_ret in Hrun. unfold mbind at 1 in Hrun.
    match type of Hrun with
    | context [read_connection_addresses ?h ?a ?l ?f ?n ?acc ?s0] =>
        pose proof (keeps_read_connection_addresses h a l f n acc s0) as Hkeep;
        destruct (read_connection_addresses h a l f n acc s0) as [[ca|ex|] s1]
    end; cbn [snd callback_log] in Hkeep.
    2,3: (injection Hrun as <- <-; exists []; rewrite app_nil_r;
          split_and!; [done|apply prefix_nil|done|];
          intros i d prev Hd; by rewrite lookup_nil in Hd).
    rewrite mbind_log in Hrun.
    pose proof (deliver_entries_old _ _ _ _ _ _ _ Hrun)
      as (_ & delivered' & Hlog'' & Hwarn).
    apply deliver_entries_outcome in Hrun as (_ & delivered & Hlog & Hpre & Hall).
    rewrite Hlog in Hlog''. apply app_inv_head in Hlog''. subst delivered'.
    exists delivered. cbn [callback_log] in Hlog.
    split_and!; [by rewrite Hlog, Hkeep|done|done|done]. }
  destruct Hgoal as (delivered & Hlog & Hpre & Hall & Hwarn).
  exists delivered. split_and!; [done| |done|apply sort_by_perm| |done].
  - eapply sorted_prefix; [exact Hpre|apply sort_by_sorted].
  - intros last' Hret. split; [eauto|]. intros e He.
    assert (e ∈ dlv_entry <$> delivered) as Hin.
    { rewrite (Hall _ Hret). by rewrite sort_by_perm. }
    apply list_elem_of_fmap in Hin as (d & -> & Hd). eauto.
Qed.

End Delivery.

(** The batch read from [Ring.wrapped] is delivered in the order 31, 32,
    33, 34, although it was read as 32, 33, 34, 31; the batch read from
    [Ring.torn] after index 37 is entry 6, which is reported as old and
    delivered. *)
Lemma monitor_delivery_order_witness :
  (let data := Ring.head_segment ++ Ring.tail_segment in
   let run := monitor_deliver Ram.exchange Ring.CONNECTION_ARRAY_ADDRESS
                Ring.CONNECTION_STRUCT_LENGTH Ring.LMP_LENGTHS Ring.LMP_ESC_LENGTHS
                Ring.set_iter 6 (Some Ring.deviceAddress) 30 34 (Some data)
                (Ram.session Ring.wrapped) in
   let entries := [ (0x80000000 + 32, Ring.payload 1); (33, Ring.payload 2);
                    (34, Ring.payload 3); (31, Ring.payload 4) ] in
   run.1 = Ret 34 ∧
   ∃ delivered,
     callback_log run.2 = [] ++ delivered ∧
     Sorted (fun e1 e2 => entry_key e1 <= entry_key e2) (dlv_entry <$> delivered) ∧
     dlv_entry <$> delivered `prefix_of` sort_by entry_key entries ∧
     sort_by entry_key entries ≡ₚ entries ∧
     (∀ last', run.1 = Ret last' ->
        dlv_entry <$> delivered = sort_by entry_key entries ∧
        ∀ e, e ∈ entries -> ∃ d, d ∈ delivered ∧ dlv_entry d = e) ∧
     (∀ (i : nat) d prev,
        delivered !! i = Some d ->
        (30 :: (entry_key <$> (dlv_entry <$> delivered))) !! i = Some prev ->
        entry_key (dlv_entry d) <= prev ->
        Log_old_packet (entry_key (dlv_entry d)) prev ∈ ses_log run.2)) ∧
  (let data := Ram.mem_bytes Ring.torn (DATA_BASE_ADDRESS + 4 + 6 * 32) 32 in
   let run := monitor_deliver Ram.exchange Ring.CONNECTION_ARRAY_ADDRESS
                Ring.CONNECTION_STRUCT_LENGTH Ring.LMP_LENGTHS Ring.LMP_ESC_LENGTHS
                Ring.set_iter 6 (Some Ring.deviceAddress) 37 38 (Some data)
                (Ram.session Ring.torn) in
   let entries : list entry := [(6, Ring.payload 5)] in
   run.1 = Ret 6 ∧
   Log_old_packet 6 37 ∈ ses_log run.2 ∧
   ∃ delivered,
     callback_log run.2 = [] ++ delivered ∧
     Sorted (fun e1 e2 => entry_key e1 <= entry_key e2) (dlv_entry <$> delivered) ∧
     dlv_entry <$> delivered `prefix_of` sort_by entry_key entries ∧
     sort_by entry_key entries ≡ₚ entries ∧
     (∀ last', run.1 = Ret last' ->
        dlv_entry <$> delivered = sort_by entry_key entries ∧
        ∀ e, e ∈ entries -> ∃ d, d ∈ delivered ∧ dlv_entry d = e) ∧
     (∀ (i : nat) d prev,
        delivered !! i = Some d ->
        (37 :: (entry_key <$> (dlv_entry <$> delivered))) !! i = Some prev ->
        entry_key (dlv_entry d) <= prev ->
        Log_old_packet (entry_key (dlv_entry d)) prev ∈ ses_log run.2)).
Proof.
  split.
  - intros data run entries. split; [vm_compute; reflexivity|].
    apply (monitor_delivery_order Ram.exchange Ring.CONNECTION_ARRAY_ADDRESS
             Ring.CONNECTION_STRUCT_LENGTH Ring.LMP_LENGTHS Ring.LMP_ESC_LENGTHS
             Ring.set_iter 6 (Some Ring.deviceAddress) 30 34 data entries
             (Ram.session Ring.wrapped) run.1 run.2).
    + vm_compute; reflexivity.
    + apply surjective_pairing.
  - intros data run entries. split; [vm_compute; reflexivity|].
    split; [vm_compute; repeat constructor|].
    apply (monitor_delivery_order Ram.exchange Ring.CONNECTION_ARRAY_ADDRESS
             Ring.CONNECTION_STRUCT_LENGTH Ring.LMP_LENGTHS Ring.LMP_ESC_LENGTHS
             Ring.set_iter 6 (Some Ring.deviceAddress) 37 38 data entries
             (Ram.session Ring.torn) run.1 run.2).
    + vm_compute; reflexivity.
    + apply surjective_pairing.
Defined.

(** C2 as stated fails: in [Ring.torn] the round that follows index 37
    reads position 6, finds entry 6 there, logs "got an old packet" and
    calls the callback on it; the last captured index falls back to 6. *)
Lemma old_entry_is_delivered :
  let run := monitor_round Ram.exchange Ring.CONNECTION_ARRAY_ADDRESS
               Ring.CONNECTION_STRUCT_LENGTH Ring.LMP_LENGTHS Ring.LMP_ESC_LENGTHS
               Ring.set_iter 6 (Some Ring.deviceAddress) 37
               (Ram.session Ring.torn) in
  run.1 = Ret 6 ∧
  ses_log run.2
  = [ Log_monitor_poll 37 38 [(6, Ring.payload 5)];
      Log_connection_addresses [(1, [xa1; xa2; xa3; xa4; xa5; xa6])];
      Log_old_packet 6 37 ] ∧
  callback_log run.2
  = [ mkDelivery (6, Ring.payload 5) (slice (Ring.payload 5) 4 21) false
                 (Some [xa1; xa2; xa3; xa4; xa5; xa6]) (Some Ring.deviceAddress) ] ∧
  ¬ (∀ d, d ∈ callback_log run.2 -> 37 < entry_key (dlv_entry d)).
Proof.
  intros run.
  assert (Hcb : callback_log run.2
    = [ mkDelivery (6, Ring.payload 5) (slice (Ring.payload 5) 4 21) false
                   (Some [xa1; xa2; xa3; xa4; xa5; xa6]) (Some Ring.deviceAddress) ])
    by (by vm_compute).
  split_and!; [by vm_compute|by vm_compute|done|].
  intros Hnew. rewrite Hcb in Hnew.
  specialize (Hnew _ (list_elem_of_here _ _)). vm_compute in Hnew. done.
Qed.

(** ** The monitor: reading the ring *)

Lemma land_0x1f z : 0 <= Z.land z 0x1f <= 31.
Proof.
  change 0x1f with (Z.ones 5). rewrite Z.land_ones by lia.
  change (Z.ones 5) with 31. pose proof (Z.mod_pos_bound z (2 ^ 5)). lia.
Qed.

Section RingRead.

Context {Ctrl : Type} (hci_exchange : command -> Ctrl -> option bytes * Ctrl).

Implicit Types (s : Session Ctrl).

(** [readMem] against a controller that answers every read in full: the
    bytes are those of the responses to [read_requests], in order. *)
Lemma readMem_full fuel a n s :
  full_blocks hci_exchange ->
  ses_running s = true -> ses_exit_requested s = false ->
  0 <= a -> a + n <= 4294967296 -> 0 <= n ->
  (Z.to_nat ((n + 250) / 251) < fuel)%nat ->
  let got := collect_reads hci_exchange (read_requests a n) (ctrl s) in
  readMem hci_exchange fuel a n s
  = (Ret (Some got.1),
     mkSession (ses_running s) (ses_exit_requested s) got.2
               (hci_trace s ++ read_requests a n) (ses_log s) (callback_log s)) ∧
  Z.of_nat (length got.1) = n.
Proof.
  intros Hfull Hrun Hexit Ha Hend Hn Hfuel.
  destruct (readMem_loop_full hci_exchange (Z.to_nat ((n + 250) / 251)) fuel a n 0 [] s)
    as [Hloop Hlen]; [done|done|done|lia|by rewrite Z.sub_0_r|done|].
  rewrite Z.add_0_r, Z.sub_0_r in Hloop, Hlen. cbn [app] in Hloop.
  split; [|done].
  unfold readMem. rewrite mbind_check_running by done. cbn [negb].
  unfold mbind. by rewrite Hloop.
Qed.

(** C5, as the code has it: in a round where fewer than 32 entries are new
    and the new position is not above the last one, the monitor reads the
    positions from [last_pos + 1] to the end of the table first and the
    positions from 0 to [new_pos] second, and the buffer it assembles puts
    the second read in front: positions 0 to [new_pos], then positions
    [last_pos + 1] to 31. *)
Theorem wrap_around_read fuel last s :
  let counter :=
    collect_reads hci_exchange (read_requests DATA_BASE_ADDRESS 4) (ctrl s) in
  let cur := Z.land (le_value counter.1) 0x7FFFFFFF in
  let last_pos := Z.land last 0x1f in
  let new_pos := Z.land cur 0x1f in
  let tail_requests :=
    read_requests (DATA_BASE_ADDRESS + 4 + (last_pos + 1) * 32) ((31 - last_pos) * 32) in
  let head_requests :=
    read_requests (DATA_BASE_ADDRESS + 4) ((new_pos + 1) * 32) in
  let tail := collect_reads hci_exchange tail_requests counter.2 in
  let head := collect_reads hci_exchange head_requests tail.2 in
  full_blocks hci_exchange ->
  ses_running s = true -> ses_exit_requested s = false ->
  last < cur -> cur - last < 32 -> new_pos <= last_pos ->
  (5 < fuel)%nat ->
  monitor_read hci_exchange fuel last s
  = (Ret (Some (cur, Some (head.1 ++ tail.1))),
     mkSession (ses_running s) (ses_exit_requested s) head.2
       (hci_trace s ++ read_requests DATA_BASE_ADDRESS 4
                    ++ tail_requests ++ head_requests)
       (ses_log s) (callback_log s)) ∧
  Z.of_nat (length tail.1) = (31 - last_pos) * 32 ∧
  Z.of_nat (length head.1) = (new_pos + 1) * 32.
Proof.
  intros counter cur last_pos new_pos tail_requests head_requests tail head
    Hfull Hrun Hexit Hnew Hfew Hwrap Hfuel.
  pose proof (land_0x1f last) as Hlp. pose proof (land_0x1f cur) as Hnp.
  fold last_pos in Hlp. fold new_pos in Hnp.
  destruct (readMem_full fuel DATA_BASE_ADDRESS 4 s) as [Hr0 Hl0];
    [done|done|done|by vm_compute|by vm_compute|lia|vm_compute; lia|].
  fold counter in Hr0, Hl0.
  set (s0 := mkSession (ses_running s) (ses_exit_requested s) counter.2
               (hci_trace s ++ read_requests DATA_BASE_ADDRESS 4)
               (ses_log s) (callback_log s)) in *.
  destruct (readMem_full fuel (DATA_BASE_ADDRESS + 4 + (last_pos + 1) * 32)
              ((31 - last_pos) * 32) s0) as [Hr1 Hl1];
    [done|done|done|unfold DATA_BASE_ADDRESS; lia|unfold DATA_BASE_ADDRESS; lia|lia| |].
  { clear -Hlp Hfuel.
    assert ((((31 - last_pos) * 32) + 250) / 251 <= 4); [|lia].
    Z.div_mod_to_equations. lia. }
  cbn [ctrl s0] in Hr1, Hl1. fold tail_requests in Hr1, Hl1. fold tail in Hr1, Hl1.
  set (s1 := mkSession (ses_running s0) (ses_exit_requested s0) tail.2
               (hci_trace s0 ++ tail_requests) (ses_log s0) (callback_log s0)) in *.
  destruct (readMem_full fuel (DATA_BASE_ADDRESS + 4) ((new_pos + 1) * 32) s1)
    as [Hr2 Hl2];
    [done|done|done|by vm_compute|unfold DATA_BASE_ADDRESS; lia|lia| |].
  { clear -Hnp Hfuel.
    assert ((((new_pos + 1) * 32) + 250) / 251 <= 5); [|lia].
    Z.div_mod_to_equations. lia. }
  cbn [ctrl s1] in Hr2, Hl2. fold head_requests in Hr2, Hl2. fold head in Hr2, Hl2.
  split_and!; [|done|done].
  unfold monitor_read. unfold mbind at 1. rewrite Hr0.
  unfold u32_of, u32, unpack. rewrite decide_True by lia.
  cbn [or_raise]. rewrite mbind_ret. fold cur.
  rewrite decide_False by lia. rewrite decide_False by lia.
  fold last_pos new_pos. rewrite decide_False by lia.
  unfold mbind at 1. rewrite Hr1. unfold mbind at 1. rewrite Hr2.
  cbn [str_add]. rewrite mbind_ret. unfold mret.
  cbn [s1 s0 ses_running ses_exit_requested hci_trace ses_log callback_log].
  by rewrite <- !app_assoc.
Qed.

End RingRead.

(** The round that takes [Ring.wrapped] from index 30 to index 34: the
    commands read the counter, position 31, then positions 0 to 2. *)
Lemma wrap_around_read_witness :
  monitor_read Ram.exchange 6 30 (Ram.session Ring.wrapped)
  = (Ret (Some (34, Some (Ring.head_segment ++ Ring.tail_segment))),
     mkSession true false Ring.wrapped
       [ (0xfc4d, [x00; x77; x0d; x00; x04]);
         (0xfc4d, [xe4; x7a; x0d; x00; x20]);
         (0xfc4d, [x04; x77; x0d; x00; x60]) ] [] []) ∧
  length Ring.tail_segment = 32%nat ∧ length Ring.head_segment = 96%nat.
Proof.
  split; [|vm_compute; split; reflexivity].
  destruct (wrap_around_read Ram.exchange 6 30 (Ram.session Ring.wrapped))
    as (Hread & _ & _);
    [apply ram_full_blocks|reflexivity|reflexivity
    |vm_compute; first [reflexivity|discriminate]..|lia|].
  rewrite Hread. vm_compute. reflexivity.
Defined.

(** C5 as stated fails: the buffer starts with the entry of position 0,
    not with that of position 31. *)
Lemma wrap_buffer_starts_at_position_0 :
  (monitor_read Ram.exchange 6 30 (Ram.session Ring.wrapped)).1
  = Ret (Some (34, Some (Ring.head_segment ++ Ring.tail_segment))) ∧
  Ring.head_segment ++ Ring.tail_segment ≠ Ring.tail_segment ++ Ring.head_segment ∧
  take 4 (Ring.head_segment ++ Ring.tail_segment) = le_bytes 4 (0x80000000 + 32) ∧
  take 4 Ring.tail_segment = le_bytes 4 31.
Proof. vm_compute. split_and!; done. Qed.

(** ** More on the memory access layer *)

Lemma slice_chunk (data : bytes) (bc : Z) :
  0 <= bc < Z.of_nat (length data) ->
  slice data bc (bc + Z.min 251 (Z.of_nat (length data) - bc))
  = take 251 (drop (Z.to_nat bc) data).
Proof.
  intros Hbc. unfold slice, clamp. rewrite !decide_False by lia.
  rewrite (Z.min_l bc) by lia. rewrite (Z.min_l (bc + _)) by lia.
  replace (bc + Z.min 251 (Z.of_nat (length data) - bc) - bc)
    with (Z.min 251 (Z.of_nat (length data) - bc)) by lia.
  destruct (decide (251 <= Z.of_nat (length data) - bc)).
  - by rewrite Z.min_l by lia.
  - rewrite Z.min_r by lia. rewrite !take_ge; [done|rewrite length_drop; lia..].
Qed.

Section MoreMemoryProps.

Context {Ctrl : Type} (hci_exchange : command -> Ctrl -> option bytes * Ctrl).

Implicit Types (s : Session Ctrl) (c : Ctrl).

(** What [check_running] does to a session that is not usable. *)
Lemma mbind_check_not_running {B} (k : bool -> M Ctrl B) s :
  ses_exit_requested s = true ∨ ses_running s = false ->
  mbind check_running k s
  = k false (mkSession false false (ctrl s) (hci_trace s)
               (ses_log s ++ (if ses_exit_requested s then [Log_shutdown] else [])
                          ++ [Log_not_running])
               (callback_log s)).
Proof.
  intros Hbad. unfold check_running, mbind, mret, shutdown, log_msg.
  destruct (ses_exit_requested s) eqn:He, (ses_running s) eqn:Hr; cbn;
    rewrite <- ?app_assoc; try done.
  - by destruct Hbad.
  - by rewrite He, Hr.
Qed.

(** One round of the loop of [writeMem], whatever the response. *)
Lemma writeMem_loop_round fuel data wa bc s response c' :
  0 <= bc < Z.of_nat (length data) ->
  0 <= wa < 4294967296 ->
  hci_exchange (0xfc4c, le_bytes 4 wa ++ take 251 (drop (Z.to_nat bc) data)) (ctrl s)
  = (response, c') ->
  let s1 := mkSession (ses_running s) (ses_exit_requested s) c'
              (hci_trace s ++
                 [(0xfc4c, le_bytes 4 wa ++ take 251 (drop (Z.to_nat bc) data))])
              (ses_log s) (callback_log s) in
  let bs := Z.min 251 (Z.of_nat (length data) - bc) in
  writeMem_loop hci_exchange (S fuel) data wa bc s
  = match response_status response with
    | Ret st =>
        if decide (st = x00)
        then writeMem_loop hci_exchange fuel data (wa + bs) (bc + bs) s1
        else (Raise TypeError, s1)
    | Raise e => (Raise e, s1)
    | Diverge => (Diverge, s1)
    end.
Proof.
  intros Hbc Hwa Hex s1 bs. cbn [writeMem_loop].
  rewrite decide_True by lia.
  assert (Hbs : (if decide (Z.of_nat (length data) - bc > 251) then 251
                 else Z.of_nat (length data) - bc) = bs).
  { unfold bs. case_decide; lia. }
  rewrite Hbs. unfold bs at 1. rewrite slice_chunk by done.
  rewrite p32_in_range by done. cbn [or_raise]. rewrite mbind_ret.
  rewrite (mbind_sendHciCommand _ _ _ _ _ _ _ Hex). fold s1.
  destruct (response_status response) as [st|e|]; [|done..].
  rewrite mbind_ret. destruct (decide (st = x00)) as [->|Hne].
  - by rewrite decide_False by (by intros []).
  - rewrite decide_True by done. cbn [format_x or_raise]. by rewrite mbind_raise.
Qed.

Lemma written_bytes_chunk addr (x : bytes) :
  written_bytes (0xfc4c, le_bytes 4 addr ++ x) = x.
Proof.
  unfold written_bytes. cbn [snd]. by rewrite drop_app_length' by (by rewrite length_le_bytes).
Qed.

Lemma chunk_writes_bytes k : ∀ addr (data : bytes),
  (length data <= 251 * k)%nat ->
  mjoin (written_bytes <$> chunk_writes k addr data) = data.
Proof.
  induction k as [|k IH]; intros addr data Hlen; cbn [chunk_writes].
  - destruct data; [done|simpl in Hlen; lia].
  - rewrite fmap_cons, written_bytes_chunk. cbn [mjoin list_join].
    rewrite IH by (rewrite length_drop; lia). apply take_drop.
Qed.

Lemma chunk_writes_sizes k : ∀ addr (data : bytes),
  Forall (fun cmd : command => cmd.1 = 0xfc4c ∧ (length (written_bytes cmd) <= 251)%nat)
         (chunk_writes k addr data).
Proof.
  induction k as [|k IH]; intros addr data; cbn [chunk_writes]; constructor; [|done].
  split; [done|]. rewrite written_bytes_chunk, length_take. lia.
Qed.

Lemma length_chunk_writes k addr data : length (chunk_writes k addr data) = k.
Proof.
  revert addr data. induction k as [|k IH]; intros; cbn [chunk_writes length]; [done|].
  by rewrite IH.
Qed.

(** The loop of [writeMem] against a controller that accepts every
    write. *)
Lemma writeMem_loop_accepted k : ∀ fuel (data : bytes) a bc s,
  writes_accepted hci_exchange ->
  0 <= a -> a + Z.of_nat (length data) <= 4294967296 ->
  0 <= bc <= Z.of_nat (length data) ->
  k = Z.to_nat ((Z.of_nat (length data) - bc + 250) / 251) -> (k < fuel)%nat ->
  ∃ c', writeMem_loop hci_exchange fuel data (a + bc) bc s
        = (Ret true,
           mkSession (ses_running s) (ses_exit_requested s) c'
             (hci_trace s ++ chunk_writes k (a + bc) (drop (Z.to_nat bc) data))
             (ses_log s) (callback_log s)).
Proof.
  induction k as [|k IH]; intros fuel data a bc s Hacc Ha Hend Hbc Hk Hfuel.
  - assert ((Z.of_nat (length data) - bc + 250) / 251 <= 0) as Hq by lia.
    assert (bc = Z.of_nat (length data)) as Hbc'
      by (clear Hk; Z.div_mod_to_equations; lia).
    destruct fuel as [|fuel]; [lia|]. cbn [writeMem_loop chunk_writes].
    rewrite decide_False by lia. exists (ctrl s). unfold mret.
    by rewrite app_nil_r, session_eta.
  - assert ((Z.of_nat (length data) - bc + 250) / 251 = Z.of_nat (S k)) as Hq by lia.
    assert (0 < Z.of_nat (length data) - bc) as Hleft
      by (clear Hk; Z.div_mod_to_equations; lia).
    destruct fuel as [|fuel]; [lia|].
    destruct (Hacc (le_bytes 4 (a + bc) ++ take 251 (drop (Z.to_nat bc) data)) (ctrl s))
      as (r & c1 & Hex & Hst).
    rewrite (writeMem_loop_round fuel data (a + bc) bc s (Some r) c1) by (done || lia).
    unfold response_status. rewrite Hst. cbn [or_raise]. rewrite decide_True by done.
    set (bs := Z.min 251 (Z.of_nat (length data) - bc)).
    assert (Hk' : k = Z.to_nat ((Z.of_nat (length data) - (bc + bs) + 250) / 251)).
    { unfold bs. clear Hk IH.
      assert ((Z.of_nat (length data) - (bc + Z.min 251 (Z.of_nat (length data) - bc)) + 250) / 251
              = Z.of_nat k); [|lia].
      Z.div_mod_to_equations. lia. }
    rewrite <- Z.add_assoc.
    edestruct (IH fuel data a (bc + bs)) as (c2 & Hrun);
      [done|done|done|unfold bs; lia|exact Hk'|lia|].
    rewrite Hrun. exists c2.
    cbn [ses_running ses_exit_requested hci_trace ses_log callback_log chunk_writes].
    rewrite <- app_assoc. do 3 f_equal. cbn [app]. f_equal.
    destruct k as [|k']; [done|].
    assert (bs = 251) as Hbs.
    { unfold bs in *. clear Hk IH Hrun. Z.div_mod_to_equations. lia. }
    rewrite Hbs, drop_drop. f_equal; [lia|f_equal; lia].
Qed.

(** X1: [writeMem] on a running session whose controller accepts writes
    sends [data] in [⌈len / 251⌉] commands of at most 251 bytes, one after
    the other from [a] on, and returns [True]; the bytes of the commands,
    put together, are [data]. *)
Theorem writeMem_chunking a (data : bytes) s :
  writes_accepted hci_exchange ->
  ses_running s = true -> ses_exit_requested s = false ->
  0 <= a -> a + Z.of_nat (length data) <= 4294967296 ->
  ∃ s',
    writeMem hci_exchange a data s = (Ret (Some true), s') ∧
    hci_trace s' = hci_trace s ++ write_requests a data ∧
    mjoin (written_bytes <$> write_requests a data) = data ∧
    Z.of_nat (length (write_requests a data)) = (Z.of_nat (length data) + 250) / 251 ∧
    Forall (fun cmd : command => cmd.1 = 0xfc4c ∧ (length (written_bytes cmd) <= 251)%nat)
           (write_requests a data).
Proof.
  intros Hacc Hrun Hexit Ha Hend.
  assert (Hceil : 0 <= (Z.of_nat (length data) + 250) / 251 <= Z.of_nat (length data)).
  { Z.div_mod_to_equations. lia. }
  destruct (writeMem_loop_accepted
              (Z.to_nat ((Z.of_nat (length data) + 250) / 251))
              (S (length data)) data a 0 s) as (c' & Hloop);
    [done|done|done|lia|by rewrite Z.sub_0_r|lia|].
  rewrite Z.add_0_r in Hloop. cbn [Z.to_nat drop] in Hloop.
  eexists. split_and!.
  - unfold writeMem. rewrite mbind_check_running by done. cbn [negb].
    unfold mbind. rewrite Hloop. done.
  - done.
  - apply chunk_writes_bytes. Z.div_mod_to_equations. lia.
  - unfold write_requests. rewrite length_chunk_writes. lia.
  - apply chunk_writes_sizes.
Qed.

(** The loop of [writeMem] moves on by at least one byte in every round. *)
Lemma writeMem_loop_ends fuel : ∀ (data : bytes) wa bc s,
  0 <= bc ->
  (Z.to_nat (Z.of_nat (length data) - bc) < fuel)%nat ->
  (writeMem_loop hci_exchange fuel data wa bc s).1 ≠ Diverge.
Proof.
  induction fuel as [|fuel IH]; intros data wa bc s Hbc Hfuel; [lia|].
  cbn [writeMem_loop]. case_decide as Hlt; [|done].
  destruct (p32 wa) as [addr_bytes|]; cbn [or_raise];
    [rewrite mbind_ret|by rewrite mbind_raise].
  destruct (hci_exchange (0xfc4c, addr_bytes ++ slice data bc
              (bc + (if decide (Z.of_nat (length data) - bc > 251) then 251
                     else Z.of_nat (length data) - bc))) (ctrl s))
    as [response c'] eqn:Hex.
  rewrite (mbind_sendHciCommand _ _ _ _ _ _ _ Hex).
  destruct response as [r|]; cbn [response_status]; [|by rewrite mbind_raise].
  destruct (r !! 3%nat) as [st|]; cbn [or_raise];
    [rewrite mbind_ret|by rewrite mbind_raise].
  destruct (decide (st ≠ x00)) as [Hst|Hst]; [done|].
  apply IH; case_decide; lia.
Qed.

(** X2: [writeMem] comes to an end whatever the controller answers: the
    rounds its loop can make are bounded by the length of the data. *)
Theorem writeMem_terminates a (data : bytes) s :
  (writeMem hci_exchange a data s).1 ≠ Diverge.
Proof.
  unfold writeMem, mbind at 1.
  destruct (check_running_returns s) as ([] & s1 & ->); [|done].
  cbn [negb]. unfold mbind.
  pose proof (writeMem_loop_ends (S (length data)) data a 0 s1) as Hend.
  destruct (writeMem_loop hci_exchange (S (length data)) data a 0 s1) as [[]?];
    try done.
  exfalso. apply Hend; [lia|lia|done].
Qed.

(** X3: on a session that is not running, or whose exit flag is set (which
    shuts it down first), [readMem] and [writeMem] return [None] and send
    nothing. *)
Theorem memory_access_needs_running_session fuel a n (data : bytes) s :
  ses_exit_requested s = true ∨ ses_running s = false ->
  let s' := mkSession false false (ctrl s) (hci_trace s)
              (ses_log s ++ (if ses_exit_requested s then [Log_shutdown] else [])
                         ++ [Log_not_running])
              (callback_log s) in
  readMem hci_exchange fuel a n s = (Ret None, s') ∧
  writeMem hci_exchange a data s = (Ret None, s').
Proof.
  intros Hbad s'. unfold readMem, writeMem.
  by rewrite !mbind_check_not_running by done.
Qed.

(** X4: [readMem] of no bytes (or of a negative length) returns the empty
    string and sends nothing. *)
Theorem readMem_nothing fuel a n s :
  ses_running s = true -> ses_exit_requested s = false ->
  n <= 0 -> (0 < fuel)%nat ->
  readMem hci_exchange fuel a n s = (Ret (Some []), s).
Proof.
  intros Hrun Hexit Hn Hfuel. unfold readMem.
  rewrite mbind_check_running by done. cbn [negb].
  destruct fuel as [|fuel]; [lia|]. unfold mbind. cbn [readMem_loop].
  by rewrite decide_False by lia.
Qed.

(** X5: a command that is not answered is not handled: [readMem],
    [writeMem] and [launchRam] subscript the [None] that [sendHciCommand]
    returned and are left by [TypeError], after one command. *)
Theorem unanswered_command_raises fuel a n (data : bytes) s :
  unresponsive hci_exchange ->
  ses_running s = true -> ses_exit_requested s = false ->
  0 <= a < 4294967296 -> 0 < n -> data ≠ [] -> (0 < fuel)%nat ->
  ∃ s1 s2 s3,
    readMem hci_exchange fuel a n s = (Raise TypeError, s1) ∧
    hci_trace s1 = hci_trace s ++ [(0xfc4d, le_bytes 4 a ++ le_bytes 1 (Z.min 251 n))] ∧
    writeMem hci_exchange a data s = (Raise TypeError, s2) ∧
    hci_trace s2 = hci_trace s ++ [(0xfc4c, le_bytes 4 a ++ take 251 data)] ∧
    launchRam hci_exchange a s = (Raise TypeError, s3) ∧
    hci_trace s3 = hci_trace s ++ [(0xfc4e, le_bytes 4 a)].
Proof.
  intros Hsilent Hrun Hexit Ha Hn Hdata Hfuel.
  assert (Hnone : ∀ cmd, ∃ c', hci_exchange cmd (ctrl s) = (None, c')).
  { intros cmd. specialize (Hsilent cmd (ctrl s)).
    destruct (hci_exchange cmd (ctrl s)) as [r c']. cbn in Hsilent. subst r. eauto. }
  destruct fuel as [|fuel]; [lia|].
  destruct (Hnone (0xfc4d, le_bytes 4 a ++ le_bytes 1 (Z.min 251 n))) as [c1 Hex1].
  destruct (Hnone (0xfc4c, le_bytes 4 a ++ take 251 (drop (Z.to_nat 0) data)))
    as [c2 Hex2].
  destruct (Hnone (0xfc4e, le_bytes 4 a)) as [c3 Hex3].
  eexists _, _, _. split_and!.
  - unfold readMem. rewrite mbind_check_running by done. cbn [negb].
    unfold mbind at 1. cbn [readMem_loop].
    rewrite decide_True by lia.
    rewrite p32_in_range by done. cbn [or_raise]. rewrite mbind_ret.
    replace (if decide (n - 0 > 251) then 251 else n - 0) with (Z.min 251 n)
      by (case_decide; lia).
    rewrite p8_in_range by lia. cbn [or_raise]. rewrite mbind_ret.
    rewrite (mbind_sendHciCommand _ _ _ _ _ _ _ Hex1).
    cbn [response_status]. rewrite mbind_raise. done.
  - done.
  - unfold writeMem. rewrite mbind_check_running by done. cbn [negb].
    unfold mbind at 1.
    rewrite (writeMem_loop_round (length data) data a 0 s None c2) by
      (done || (destruct data; [done|cbn [length]; lia])).
    cbn [response_status]. done.
  - done.
  - unfold launchRam. rewrite p32_in_range by done. cbn [or_raise]. rewrite mbind_ret.
    rewrite (mbind_sendHciCommand _ _ _ _ _ _ _ Hex3).
    cbn [response_status]. rewrite mbind_raise. done.
  - done.
Qed.


(** X7: [launchRam] has no [check_running].  On a session that is not
    running no send thread exists, and [sendHciCommand] can only come back
    with [None]; [launchRam] does not return early as [readMem] and
    [writeMem] do: it hands its command to [sendHciCommand] all the same,
    subscripts the [None] and is left by [TypeError].  The flags of the
    session are not touched. *)
Theorem launchRam_ignores_session_state a s :
  0 <= a < 4294967296 ->
  ses_running s = false ->
  (hci_exchange (0xfc4e, le_bytes 4 a) (ctrl s)).1 = None ->
  ∃ s', launchRam hci_exchange a s = (Raise TypeError, s') ∧
        hci_trace s' = hci_trace s ++ [(0xfc4e, le_bytes 4 a)] ∧
        ses_running s' = false ∧
        ses_exit_requested s' = ses_exit_requested s.
Proof.
  intros Ha Hrun Hnone. unfold launchRam.
  rewrite p32_in_range by done. cbn [or_raise]. rewrite mbind_ret.
  destruct (hci_exchange (0xfc4e, le_bytes 4 a) (ctrl s)) as [r c'] eqn:Hex.
  cbn [fst] in Hnone. subst r.
  rewrite (mbind_sendHciCommand _ _ _ _ _ _ _ Hex).
  cbn [response_status]. rewrite mbind_raise. eexists. split; [done|]. done.
Qed.

(** X8: [patchRom] with a patch that is not four bytes long returns
    [False], logs a warning and sends nothing. *)
Theorem patchRom_wrong_size a (patch : bytes) s :
  length patch ≠ 4%nat ->
  patchRom hci_exchange a patch s
  = (Ret false,
     mkSession (ses_running s) (ses_exit_requested s) (ctrl s) (hci_trace s)
               (ses_log s ++ [Log_patch_size]) (callback_log s)).
Proof.
  intros Hlen. unfold patchRom. rewrite decide_True by done.
  by rewrite mbind_log.
Qed.

(** X9: [patchRom] does not look at what [writeMem] returns: on a session
    that is not running it returns [True] although all three writes were
    refused and nothing was sent. *)
Theorem patchRom_reports_success_without_writing a (patch : bytes) s :
  ses_running s = false -> ses_exit_requested s = false ->
  0 <= a < 4294967296 -> length patch = 4%nat ->
  ∃ s', patchRom hci_exchange a patch s = (Ret true, s') ∧
        hci_trace s' = hci_trace s ∧ ctrl s' = ctrl s ∧
        ses_log s' = ses_log s ++ [Log_not_running; Log_not_running; Log_not_running].
Proof.
  intros Hrun Hexit Ha Hlen.
  assert (Hshift : 0 <= Z.shiftr a 2 < 4294967296).
  { rewrite Z.shiftr_div_pow2 by lia. change (2 ^ 2) with 4.
    Z.div_mod_to_equations. lia. }
  unfold patchRom. rewrite decide_False by (by rewrite Hlen; intros []).
  change (slot_dwords_init !! Z.to_nat (slot / 32)) with (Some 0x0000ffff).
  cbn [or_raise]. rewrite mbind_ret.
  change (Z.land 0x0000ffff (Z.shiftl 1 (slot mod 32))) with 0.
  rewrite decide_False by (by intros []). rewrite mbind_mret.
  unfold writeMem at 1. unfold mbind at 1.
  rewrite mbind_check_not_running by auto. rewrite Hexit. cbn [negb app mret].
  rewrite p32_in_range by done. cbn [or_raise]. rewrite mbind_ret.
  unfold writeMem at 1. unfold mbind at 1.
  rewrite mbind_check_not_running by auto. cbn [negb app mret ses_exit_requested].
  change (<[Z.to_nat (slot / 32):=Z.lor 0x0000ffff (Z.shiftl 1 (slot mod 32))]>
            slot_dwords_init !! Z.to_nat (slot / 32))
    with (Some (Z.lor 0x0000ffff (Z.shiftl 1 (slot mod 32)))).
  cbn [or_raise]. rewrite mbind_ret.
  rewrite p32_in_range by (by vm_compute).
  cbn [or_raise]. rewrite mbind_ret.
  unfold writeMem at 1. unfold mbind at 1.
  rewrite mbind_check_not_running by auto. cbn [negb app mret ses_exit_requested].
  eexists. split; [done|].
  cbn [hci_trace ctrl ses_log]. rewrite <- !app_assoc. done.
Qed.

End MoreMemoryProps.


Lemma silent_unresponsive : unresponsive silent.
Proof. by intros cmd []. Qed.

(** 300 bytes written to a memory at 0xd7500: two commands. *)
Lemma writeMem_chunking_witness :
  ∃ s',
    writeMem Ram.exchange 0xd7500 (replicate 300 x41) (Ram.session ∅)
    = (Ret (Some true), s') ∧
    hci_trace s' = [] ++ write_requests 0xd7500 (replicate 300 x41) ∧
    mjoin (written_bytes <$> write_requests 0xd7500 (replicate 300 x41))
    = replicate 300 x41 ∧
    Z.of_nat (length (write_requests 0xd7500 (replicate 300 x41)))
    = (Z.of_nat (length (replicate 300 x41)) + 250) / 251 ∧
    Forall (fun cmd : command => cmd.1 = 0xfc4c ∧ (length (written_bytes cmd) <= 251)%nat)
           (write_requests 0xd7500 (replicate 300 x41)).
Proof.
  apply (writeMem_chunking Ram.exchange 0xd7500 (replicate 300 x41) (Ram.session ∅)).
  - apply ram_writes_accepted.
  - reflexivity.
  - reflexivity.
  - lia.
  - vm_compute. discriminate.
Defined.

(** A session that was never connected. *)
Lemma memory_access_needs_running_session_witness :
  let s := mkSession false false tt [] [] [] in
  let s' := mkSession false false tt [] [Log_not_running] [] in
  readMem silent 5 0x200000 300 s = (Ret None, s') ∧
  writeMem silent 0x200000 [x00] s = (Ret None, s').
Proof.
  intros s s'.
  apply (memory_access_needs_running_session silent 5 0x200000 300 [x00] s).
  right. reflexivity.
Defined.

Lemma readMem_nothing_witness :
  readMem Ram.exchange 1 0x200000 0 (Ram.session ∅) = (Ret (Some []), Ram.session ∅).
Proof.
  apply (readMem_nothing Ram.exchange 1 0x200000 0 (Ram.session ∅));
    [reflexivity|reflexivity|lia|lia].
Defined.

Lemma unanswered_command_raises_witness :
  ∃ s1 s2 s3,
    readMem silent 1 0x200000 300 (Ram.session tt) = (Raise TypeError, s1) ∧
    hci_trace s1 = [] ++ [(0xfc4d, le_bytes 4 0x200000 ++ le_bytes 1 (Z.min 251 300))] ∧
    writeMem silent 0x200000 [x00; x01] (Ram.session tt) = (Raise TypeError, s2) ∧
    hci_trace s2 = [] ++ [(0xfc4c, le_bytes 4 0x200000 ++ take 251 [x00; x01])] ∧
    launchRam silent 0x200000 (Ram.session tt) = (Raise TypeError, s3) ∧
    hci_trace s3 = [] ++ [(0xfc4e, le_bytes 4 0x200000)].
Proof.
  apply (unanswered_command_raises silent 1 0x200000 300 [x00; x01] (Ram.session tt));
    [apply silent_unresponsive|reflexivity|reflexivity|lia|lia|discriminate|lia].
Defined.


(** [launchRam] on a session that [connect()] was not called for: nothing
    answers. *)
Lemma launchRam_ignores_session_state_witness :
  ∃ s', launchRam silent 0xd7500 (mkSession false false tt [] [] [])
        = (Raise TypeError, s') ∧
        hci_trace s' = [] ++ [(0xfc4e, le_bytes 4 0xd7500)] ∧
        ses_running s' = false ∧
        ses_exit_requested s' = false.
Proof.
  apply (launchRam_ignores_session_state silent 0xd7500
           (mkSession false false tt [] [] []));
    [lia|reflexivity|reflexivity].
Defined.

Lemma patchRom_wrong_size_witness :
  patchRom Ram.exchange 0x3f3f4 [x00; xbd] (Ram.session ∅)
  = (Ret false, mkSession true false ∅ [] [Log_patch_size] []).
Proof.
  apply (patchRom_wrong_size Ram.exchange 0x3f3f4 [x00; xbd] (Ram.session ∅)).
  discriminate.
Defined.

Lemma patchRom_reports_success_without_writing_witness :
  let s := mkSession false false (∅ : Ram.ram) [] [] [] in
  ∃ s', patchRom Ram.exchange 0x3f3f4 [x00; xbd; xf7; xaa] s = (Ret true, s') ∧
        hci_trace s' = [] ∧ ctrl s' = ∅ ∧
        ses_log s' = [] ++ [Log_not_running; Log_not_running; Log_not_running].
Proof.
  intros s.
  apply (patchRom_reports_success_without_writing Ram.exchange 0x3f3f4
           [x00; xbd; xf7; xaa] s); [reflexivity|reflexivity|lia|reflexivity].
Defined.

(** ** More on the monitor *)

Lemma land_0x1f_mod z : Z.land z 0x1f = z mod 32.
Proof. change 0x1f with (Z.ones 5). by rewrite Z.land_ones by lia. Qed.

Section MoreRingRead.

Context {Ctrl : Type} (hci_exchange : command -> Ctrl -> option bytes * Ctrl).

Implicit Types (s : Session Ctrl).

(** The round up to the comparison of the counter with the last index. *)
Lemma monitor_read_counter fuel last s :
  full_blocks hci_exchange ->
  ses_running s = true -> ses_exit_requested s = false -> (1 < fuel)%nat ->
  let counter :=
    collect_reads hci_exchange (read_requests DATA_BASE_ADDRESS 4) (ctrl s) in
  let cur := Z.land (le_value counter.1) 0x7FFFFFFF in
  let s0 := mkSession (ses_running s) (ses_exit_requested s) counter.2
              (hci_trace s ++ read_requests DATA_BASE_ADDRESS 4)
              (ses_log s) (callback_log s) in
  monitor_read hci_exchange fuel last s
  = (if decide (cur <= last) then mret None
     else if decide (cur - last >= 32) then
       mbind (readMem hci_exchange fuel (DATA_BASE_ADDRESS + 4) (32 * 32))
             (fun data => mret (Some (cur, data)))
     else if decide (Z.land last 0x1f < Z.land cur 0x1f) then
       mbind (readMem hci_exchange fuel
                (DATA_BASE_ADDRESS + 4 + (Z.land last 0x1f + 1) * 32)
                ((Z.land cur 0x1f - Z.land last 0x1f) * 32))
             (fun data => mret (Some (cur, data)))
     else
       mbind (readMem hci_exchange fuel
                (DATA_BASE_ADDRESS + 4 + (Z.land last 0x1f + 1) * 32)
                ((31 - Z.land last 0x1f) * 32))
         (fun tmp =>
            mbind (readMem hci_exchange fuel (DATA_BASE_ADDRESS + 4)
                     ((Z.land cur 0x1f + 1) * 32))
              (fun head =>
                 mbind (lift (str_add head tmp))
                   (fun data => mret (Some (cur, Some data)))))) s0.
Proof.
  intros Hfull Hrun Hexit Hfuel counter cur s0.
  destruct (readMem_full hci_exchange fuel DATA_BASE_ADDRESS 4 s) as [Hr0 Hl0];
    [done|done|done|by vm_compute|by vm_compute|lia|vm_compute; lia|].
  fold counter in Hr0, Hl0. fold s0 in Hr0.
  unfold monitor_read. unfold mbind at 1. rewrite Hr0.
  unfold u32_of, u32, unpack. rewrite decide_True by lia.
  cbn [or_raise]. rewrite mbind_ret. fold cur. done.
Qed.

(** X10: a round that finds the counter where it was (or behind) reads the
    four counter bytes and nothing else: no entry is read, no callback is
    called, nothing is logged, and the last captured index stays. *)
Theorem monitor_round_without_news caa csl lmp_lengths lmp_esc_lengths set_iter
    fuel dev last s :
  let counter :=
    collect_reads hci_exchange (read_requests DATA_BASE_ADDRESS 4) (ctrl s) in
  full_blocks hci_exchange ->
  ses_running s = true -> ses_exit_requested s = false -> (1 < fuel)%nat ->
  Z.land (le_value counter.1) 0x7FFFFFFF <= last ->
  monitor_round hci_exchange caa csl lmp_lengths lmp_esc_lengths set_iter
    fuel dev last s
  = (Ret last,
     mkSession (ses_running s) (ses_exit_requested s) counter.2
       (hci_trace s ++ [(0xfc4d, le_bytes 4 DATA_BASE_ADDRESS ++ le_bytes 1 4)])
       (ses_log s) (callback_log s)).
Proof.
  intros counter Hfull Hrun Hexit Hfuel Hold.
  unfold monitor_round. unfold mbind at 1.
  rewrite monitor_read_counter by done. fold counter.
  rewrite decide_True by done. done.
Qed.

(** X11: a round that finds the counter ahead reads one 32-byte entry for
    every new sequence number, and the whole table of 32 entries when 32
    or more are new; it logs nothing and calls no callback while it
    reads. *)
Theorem monitor_read_size fuel last s :
  let counter :=
    collect_reads hci_exchange (read_requests DATA_BASE_ADDRESS 4) (ctrl s) in
  let cur := Z.land (le_value counter.1) 0x7FFFFFFF in
  full_blocks hci_exchange ->
  ses_running s = true -> ses_exit_requested s = false -> (5 < fuel)%nat ->
  last < cur ->
  ∃ data s',
    monitor_read hci_exchange fuel last s = (Ret (Some (cur, Some data)), s') ∧
    Z.of_nat (length data) = 32 * Z.min (cur - last) 32 ∧
    ses_log s' = ses_log s ∧ callback_log s' = callback_log s.
Proof.
  intros counter cur Hfull Hrun Hexit Hfuel Hnew.
  rewrite monitor_read_counter by (done || lia). fold counter. fold cur.
  set (s0 := mkSession _ _ _ _ _ _).
  rewrite decide_False by lia.
  pose proof (land_0x1f last) as Hlp. pose proof (land_0x1f cur) as Hnp.
  pose proof (land_0x1f_mod last) as Hlm. pose proof (land_0x1f_mod cur) as Hnm.
  set (last_pos := Z.land last 0x1f) in *. set (new_pos := Z.land cur 0x1f) in *.
  destruct (decide (cur - last >= 32)) as [Hall|Hfew].
  - destruct (readMem_full hci_exchange fuel (DATA_BASE_ADDRESS + 4) (32 * 32) s0)
      as [Hr Hl]; [done|done|done|by vm_compute|by vm_compute|lia|vm_compute; lia|].
    unfold mbind. rewrite Hr. eexists _, _. split; [done|].
    split; [|done]. rewrite Hl. lia.
  - destruct (decide (last_pos < new_pos)) as [Hlin|Hwrap].
    + destruct (readMem_full hci_exchange fuel
                  (DATA_BASE_ADDRESS + 4 + (last_pos + 1) * 32)
                  ((new_pos - last_pos) * 32) s0) as [Hr Hl];
        [done|done|done|unfold DATA_BASE_ADDRESS; lia
         |unfold DATA_BASE_ADDRESS; lia|lia| |].
      { clear -Hlp Hnp Hfuel.
        assert ((((new_pos - last_pos) * 32) + 250) / 251 <= 4); [|lia].
        Z.div_mod_to_equations. lia. }
      unfold mbind. rewrite Hr. eexists _, _. split; [done|].
      split; [|done]. rewrite Hl. clear -Hlm Hnm Hlin Hfew Hnew.
      Z.div_mod_to_equations. lia.
    + destruct (readMem_full hci_exchange fuel
                  (DATA_BASE_ADDRESS + 4 + (last_pos + 1) * 32)
                  ((31 - last_pos) * 32) s0) as [Hr1 Hl1];
        [done|done|done|unfold DATA_BASE_ADDRESS; lia
         |unfold DATA_BASE_ADDRESS; lia|lia| |].
      { clear -Hlp Hfuel.
        assert ((((31 - last_pos) * 32) + 250) / 251 <= 4); [|lia].
        Z.div_mod_to_equations. lia. }
      unfold mbind at 1. rewrite Hr1.
      set (s1 := mkSession _ _ _ _ _ _).
      destruct (readMem_full hci_exchange fuel (DATA_BASE_ADDRESS + 4)
                  ((new_pos + 1) * 32) s1) as [Hr2 Hl2];
        [done|done|done|by vm_compute|unfold DATA_BASE_ADDRESS; lia|lia| |].
      { clear -Hnp Hfuel.
        assert ((((new_pos + 1) * 32) + 250) / 251 <= 5); [|lia].
        Z.div_mod_to_equations. lia. }
      unfold mbind at 1. rewrite Hr2. cbn [str_add]. rewrite mbind_ret.
      eexists _, _. split; [done|]. split; [|done].
      rewrite length_app, Nat2Z.inj_add, Hl1, Hl2.
      clear -Hlm Hnm Hwrap Hfew Hnew. Z.div_mod_to_equations. lia.
Qed.

End MoreRingRead.

(** [Ring.wrapped] again, with the last index where the counter is. *)
Lemma monitor_round_without_news_witness :
  monitor_round Ram.exchange Ring.CONNECTION_ARRAY_ADDRESS
    Ring.CONNECTION_STRUCT_LENGTH Ring.LMP_LENGTHS Ring.LMP_ESC_LENGTHS
    Ring.set_iter 6 (Some Ring.deviceAddress) 34 (Ram.session Ring.wrapped)
  = (Ret 34,
     mkSession true false Ring.wrapped
       [(0xfc4d, le_bytes 4 DATA_BASE_ADDRESS ++ le_bytes 1 4)] [] []).
Proof.
  pose proof (monitor_round_without_news Ram.exchange Ring.CONNECTION_ARRAY_ADDRESS
    Ring.CONNECTION_STRUCT_LENGTH Ring.LMP_LENGTHS Ring.LMP_ESC_LENGTHS
    Ring.set_iter 6 (Some Ring.deviceAddress) 34 (Ram.session Ring.wrapped)
    ram_full_blocks eq_refl eq_refl) as H.
  rewrite H; [vm_compute; reflexivity|lia|vm_compute; discriminate].
Defined.

(** Four new entries in [Ring.wrapped] after index 30: 128 bytes. *)
Lemma monitor_read_size_witness :
  ∃ data s',
    monitor_read Ram.exchange 6 30 (Ram.session Ring.wrapped)
    = (Ret (Some (34, Some data)), s') ∧
    Z.of_nat (length data) = 32 * Z.min (34 - 30) 32 ∧
    ses_log s' = [] ∧ callback_log s' = [].
Proof.
  destruct (monitor_read_size Ram.exchange 6 30 (Ram.session Ring.wrapped))
    as (data & s' & Hread & Hlen & Hlog & Hcb);
    [apply ram_full_blocks|reflexivity|reflexivity|lia|vm_compute; reflexivity|].
  exists data, s'. split; [|split; [exact Hlen|split; [exact Hlog|exact Hcb]]].
  rewrite Hread. vm_compute. reflexivity.
Defined.

Lemma ord_chr_mod z : ord (chr z) = z mod 256.
Proof.
  assert (chr z = chr (z mod 256)) as ->.
  { unfold chr. by rewrite Z.mod_mod. }
  apply ord_chr. by apply Z.mod_pos_bound.
Qed.

Lemma le_value_le_bytes_4 z : 0 <= z < 4294967296 -> le_value (le_bytes 4 z) = z.
Proof.
  intros Hz. cbn [le_bytes le_value]. rewrite !ord_chr_mod.
  Z.div_mod_to_equations. lia.
Qed.

Lemma slice_take_drop {A} (s : list A) (lo hi : nat) :
  (lo <= hi <= length s)%nat ->
  slice s (Z.of_nat lo) (Z.of_nat hi) = take (hi - lo) (drop lo s).
Proof.
  intros H. unfold slice, clamp. rewrite !decide_False by lia.
  rewrite !Z.min_l by lia. rewrite Nat2Z.id. f_equal. lia.
Qed.

Lemma result_map_Forall2 {A B} (f : A -> result B) l l' :
  Forall2 (fun x y => f x = Ret y) l l' -> result_map f l = Ret l'.
Proof.
  induction 1 as [|x y l l' Hxy _ IH]; cbn [result_map]; [done|].
  by rewrite Hxy, IH.
Qed.

Lemma length_encode_entry e : entry_fits e -> length (encode_entry e) = 32%nat.
Proof.
  intros [_ Hlen]. unfold encode_entry. by rewrite length_app, length_le_bytes, Hlen.
Qed.

Lemma length_encoded entries :
  Forall entry_fits entries ->
  length (mjoin (encode_entry <$> entries)) = (32 * length entries)%nat.
Proof.
  induction 1 as [|e entries He _ IH]; [done|].
  change (length (encode_entry e ++ mjoin (encode_entry <$> entries))
          = (32 * S (length entries))%nat).
  rewrite length_app, length_encode_entry, IH by done. lia.
Qed.

Lemma drop_encoded k : ∀ entries,
  Forall entry_fits entries ->
  drop (32 * k) (mjoin (encode_entry <$> entries))
  = mjoin (encode_entry <$> drop k entries).
Proof.
  induction k as [|k IH]; intros entries Hfit; [done|].
  destruct Hfit as [|e entries He Hfit]; [by rewrite !drop_nil|].
  change (drop (32 * S k) (encode_entry e ++ mjoin (encode_entry <$> entries))
          = mjoin (encode_entry <$> drop k entries)).
  replace (32 * S k)%nat with (length (encode_entry e) + 32 * k)%nat
    by (rewrite length_encode_entry by done; lia).
  rewrite drop_app_add' by done. by apply IH.
Qed.

(** X12: reading back what the hooks wrote: a buffer made of 32-byte
    entries, each a little-endian counter word and 28 bytes, is split by
    the monitor into exactly those entries, in the order of the buffer. *)
Theorem parse_entries_of_encoded (entries : list entry) :
  Forall entry_fits entries ->
  parse_entries (mjoin (encode_entry <$> entries)) = Ret entries.
Proof.
  intros Hfit. unfold parse_entries.
  rewrite length_encoded by done. apply result_map_Forall2. unfold range_step.
  replace (Z.to_nat ((Z.of_nat (32 * length entries) + 32 - 1) / 32))
    with (length entries) by (Z.div_mod_to_equations; lia).
  apply Forall2_fmap_l, Forall2_same_length_lookup_2; [by rewrite length_seq|].
  intros k i e Hi He. apply lookup_seq in Hi as [-> Hk]. cbn [Nat.add] in *.
  assert (Hfe : entry_fits e) by (eapply Forall_lookup_1; eauto).
  assert (Hdrop : drop (32 * k) (mjoin (encode_entry <$> entries))
                  = encode_entry e ++ mjoin (encode_entry <$> drop (S k) entries)).
  { rewrite drop_encoded by done. by rewrite (drop_S _ _ _ He). }
  pose proof (length_encoded entries Hfit) as Hlen.
  unfold compose. cbv beta.
  replace (Z.of_nat k * 32) with (Z.of_nat (32 * k)) by lia.
  replace (Z.of_nat (32 * k) + 4) with (Z.of_nat (32 * k + 4)) by lia.
  replace (Z.of_nat (32 * k) + 32) with (Z.of_nat (32 * k + 32)) by lia.
  rewrite !slice_take_drop by lia.
  replace (32 * k + 4 - 32 * k)%nat with 4%nat by lia.
  replace (32 * k + 32 - (32 * k + 4))%nat with 28%nat by lia.
  rewrite <- (drop_drop _ 4 (32 * k)), Hdrop. unfold encode_entry.
  destruct Hfe as [Htag Hpay].
  rewrite <- app_assoc, take_app_length' by (by rewrite length_le_bytes).
  rewrite drop_app_length' by (by rewrite length_le_bytes).
  rewrite take_app_length' by done.
  unfold u32, unpack. rewrite decide_True by (by rewrite length_le_bytes).
  cbn [or_raise rbind]. rewrite le_value_le_bytes_4 by done. by destruct e.
Qed.

Lemma parse_entries_of_encoded_witness :
  parse_entries (mjoin (encode_entry <$> [(0x80000020, Ring.payload 1); (33, Ring.payload 2)]))
  = Ret [(0x80000020, Ring.payload 1); (33, Ring.payload 2)].
Proof.
  apply (parse_entries_of_encoded [(0x80000020, Ring.payload 1); (33, Ring.payload 2)]).
  repeat constructor; cbn; lia.
Defined.

Section MoreDelivery.

Context {Ctrl : Type} (hci_exchange : command -> Ctrl -> option bytes * Ctrl)
        (CONNECTION_ARRAY_ADDRESS CONNECTION_STRUCT_LENGTH : Z)
        (LMP_LENGTHS LMP_ESC_LENGTHS : Z -> option Z)
        (set_iter : list Z -> list Z).

Implicit Types (s : Session Ctrl) (e : entry).

(** X13: what the monitor reports for an entry it delivers: a gap after the
    last captured index gives one warning with the number of missing
    packets, an index that is not above the last one gives the "old
    packet" warning, the index that follows the last one gives nothing;
    no command is sent. *)
Theorem deliver_entry_warnings dev ca e last s index s' :
  deliver_entry LMP_LENGTHS LMP_ESC_LENGTHS dev ca e last s = (Ret index, s') ->
  index = Z.land e.1 0x7FFFFFFF ∧
  ses_log s'
  = ses_log s
    ++ (if decide (index > last + 1) then [Log_dropped (index - last - 1)] else [])
    ++ (if decide (index <= last) then [Log_old_packet index last] else []) ∧
  hci_trace s' = hci_trace s ∧ ctrl s' = ctrl s.
Proof.
  unfold deliver_entry, mbind, lift, mret, log_msg, call_monitorCallback,
    entry_connection_number, or_raise, rbind.
  repeat (case_match; simplify_eq; cbn -[elem_of] in *; try done).
  all: intros [= <- <-]; cbn; rewrite ?app_nil_r, <- ?app_assoc; try done; lia.
Qed.

(** X14: what the monitor hands to the callback for an entry.  With the
    high bit of the counter set the source is the device's own address and
    the destination is the address read for the connection number in byte
    2 of the payload; without the high bit it is the other way round.  The
    packet is the payload from byte 4 on, [lmp_len] bytes of it: the entry
    of [LMP_LENGTHS] for the opcode, byte 4 shifted right by one, or, when
    that opcode is 0x7C or more, the entry of [LMP_ESC_LENGTHS] for byte
    5. *)
Theorem deliver_entry_addresses dev ca e last s index s' :
  deliver_entry LMP_LENGTHS LMP_ESC_LENGTHS dev ca e last s = (Ret index, s') ->
  ∃ number peer b4 lmp_len d,
    e.2 !! 2%nat = Some number ∧ ca !! ord number = Some peer ∧
    e.2 !! 4%nat = Some b4 ∧
    (if decide (Z.shiftr (ord b4) 1 >= 0x7C)
     then ∃ b5, e.2 !! 5%nat = Some b5 ∧ LMP_ESC_LENGTHS (ord b5) = Some lmp_len
     else LMP_LENGTHS (Z.shiftr (ord b4) 1) = Some lmp_len) ∧
    callback_log s' = callback_log s ++ [d] ∧
    dlv_entry d = e ∧
    dlv_sendFromDevice d = bool_decide (Z.land e.1 0x80000000 > 0) ∧
    (if dlv_sendFromDevice d
     then dlv_src_addr d = dev ∧ dlv_dest_addr d = Some peer
     else dlv_src_addr d = Some peer ∧ dlv_dest_addr d = dev) ∧
    dlv_lmp_packet d = slice e.2 4 (4 + lmp_len).
Proof.
  intros Hrun.
  unfold deliver_entry, entry_connection_number in Hrun.
  destruct (e.2 !! 2%nat) as [number|] eqn:H2; [|done].
  cbn [or_raise rbind] in Hrun. rewrite mbind_ret in Hrun.
  destruct (e.2 !! 4%nat) as [b4|] eqn:H4; [|done].
  cbn [or_raise] in Hrun. rewrite mbind_ret in Hrun.
  change (u8 [b4]) with (Some (ord b4 + 256 * 0)) in Hrun.
  rewrite Z.mul_0_r, Z.add_0_r in Hrun. cbn [or_raise] in Hrun.
  rewrite mbind_ret in Hrun. unfold mbind at 1 in Hrun.
  assert (Hlen : ∃ lmp_len s0,
    (if decide (Z.shiftr (ord b4) 1 >= 0x7C)
     then ∃ b5, e.2 !! 5%nat = Some b5 ∧ LMP_ESC_LENGTHS (ord b5) = Some lmp_len
     else LMP_LENGTHS (Z.shiftr (ord b4) 1) = Some lmp_len) ∧
    (if decide (Z.shiftr (ord b4) 1 >= 0x7C)
     then mbind (lift (or_raise IndexError (e.2 !! 5%nat)))
            (fun b5 => mbind (lift (or_raise StructError (u8 [b5])))
               (fun lmp_opcode => lift (or_raise IndexError (LMP_ESC_LENGTHS lmp_opcode))))
     else lift (or_raise IndexError (LMP_LENGTHS (Z.shiftr (ord b4) 1)))) s
    = (Ret lmp_len, s0) ∧ s0 = s).
  { destruct (decide (Z.shiftr (ord b4) 1 >= 0x7C)).
    - destruct (e.2 !! 5%nat) as [b5|] eqn:H5; [|done].
      cbn [or_raise] in Hrun |- *. rewrite mbind_ret in Hrun |- *.
      change (u8 [b5]) with (Some (ord b5 + 256 * 0)) in Hrun |- *.
      rewrite Z.mul_0_r, Z.add_0_r in Hrun |- *. cbn [or_raise] in Hrun |- *.
      rewrite mbind_ret in Hrun |- *.
      destruct (LMP_ESC_LENGTHS (ord b5)) as [lmp_len|] eqn:Hl; [|done].
      exists lmp_len, s. split; [eauto|]. done.
    - destruct (LMP_LENGTHS (Z.shiftr (ord b4) 1)) as [lmp_len|] eqn:Hl; [|done].
      exists lmp_len, s. done. }
  destruct Hlen as (lmp_len & s0 & Htable & Heq & ->). rewrite Heq in Hrun.
  clear Heq. revert Hrun.
  unfold mbind, lift, mret, log_msg, call_monitorCallback, or_raise.
  destruct (ca !! ord number) as [peer|] eqn:Hpeer.
  - intros Hrun. exists number, peer, b4, lmp_len.
    repeat (case_match; simplify_eq; cbn -[elem_of] in *; try done).
    all: eexists; cbn;
      repeat match goal with H : bool_decide _ = _ |- _ => rewrite H end;
      split_and!; done.
  - intros Hrun. exfalso.
    repeat (case_match; simplify_eq; cbn -[elem_of] in *; try done).
Qed.

Lemma deliver_entries_last dev ca entries : ∀ start s last' s',
  deliver_entries LMP_LENGTHS LMP_ESC_LENGTHS dev ca entries start s = (Ret last', s') ->
  last' = default start (entry_key <$> last entries).
Proof.
  induction entries as [|e rest IH]; intros start s last' s' Hrun;
    cbn [deliver_entries] in Hrun.
  - by injection Hrun as <- <-.
  - unfold mbind in Hrun.
    pose proof (deliver_entry_outcome LMP_LENGTHS LMP_ESC_LENGTHS dev ca e start s) as Hone.
    destruct (deliver_entry _ _ _ _ _ _ _) as [[index|ex|] s1]; [|done..].
    destruct Hone as [-> _]. rewrite (IH _ _ _ _ Hrun).
    destruct rest as [|e' rest]; [done|]. rewrite last_cons_cons.
    destruct (last (e' :: rest)) eqn:Hlast; [done|]. by apply last_None in Hlast.
Qed.

Lemma sorted_last_max {A} (key : A -> Z) (l : list A) x :
  Sorted (fun a b => key a <= key b) l -> last l = Some x ->
  ∀ y, y ∈ l -> key y <= key x.
Proof.
  intros Hs. apply Sorted_StronglySorted in Hs; [|intros a b c; lia].
  induction Hs as [|a l Hs IH Hall]; intros Hlast y Hy; [done|].
  destruct l as [|b l].
  - injection Hlast as <-. apply list_elem_of_singleton in Hy as ->. lia.
  - rewrite last_cons_cons in Hlast. apply elem_of_cons in Hy as [->|Hy]; [|by apply IH].
    assert (x ∈ b :: l) as Hx by (by apply last_Some_elem_of).
    by apply (proj1 (Forall_forall _ _) Hall).
Qed.

(** X15: where a completed round leaves the last captured index: at the
    largest sequence number of the batch it delivered, whether that is
    above the index it started from or not. *)
Theorem monitor_deliver_last_index fuel dev start cur data entries s last' s' :
  parse_entries data = Ret entries -> entries ≠ [] ->
  monitor_deliver hci_exchange CONNECTION_ARRAY_ADDRESS CONNECTION_STRUCT_LENGTH
    LMP_LENGTHS LMP_ESC_LENGTHS set_iter fuel dev start cur (Some data) s
  = (Ret last', s') ->
  (∃ e, e ∈ entries ∧ last' = entry_key e) ∧
  (∀ e, e ∈ entries -> entry_key e <= last').
Proof.
  intros Hparse Hne Hrun.
  unfold monitor_deliver in Hrun. cbn [or_raise] in Hrun.
  rewrite mbind_ret, Hparse, mbind_ret, mbind_log in Hrun.
  destruct (result_map entry_connection_number (sort_by entry_key entries))
    as [numbers|ex|]; [|done..].
  rewrite mbind_ret in Hrun. unfold mbind at 1 in Hrun.
  destruct (read_connection_addresses _ _ _ _ _ _ _) as [[ca|ex|] s1]; [|done..].
  rewrite mbind_log in Hrun. apply deliver_entries_last in Hrun.
  pose proof (sort_by_perm entry_key entries) as Hperm.
  destruct (last (sort_by entry_key entries)) as [x|] eqn:Hlast.
  - cbn in Hrun. subst last'. split.
    + exists x. split; [|done]. rewrite <- Hperm. by apply last_Some_elem_of.
    + intros e He. eapply sorted_last_max; [apply sort_by_sorted|done|].
      by rewrite Hperm.
  - apply last_None in Hlast. rewrite Hlast in Hperm.
    apply Permutation_nil_l in Hperm. done.
Qed.

End MoreDelivery.

(** An entry with index 40 after index 37: two packets are missing. *)
Lemma deliver_entry_warnings_witness :
  let s := Ram.session (∅ : Ram.ram) in
  let ca : gmap Z bytes := {[ 1 := [xa1; xa2; xa3; xa4; xa5; xa6] ]} in
  let run := deliver_entry Ring.LMP_LENGTHS Ring.LMP_ESC_LENGTHS
               (Some Ring.deviceAddress) ca (40, Ring.payload 5) 37 s in
  run.1 = Ret 40 ∧
  40 = Z.land 40 0x7FFFFFFF ∧
  ses_log run.2
  = [] ++ (if decide (40 > 37 + 1) then [Log_dropped (40 - 37 - 1)] else [])
       ++ (if decide (40 <= 37) then [Log_old_packet 40 37] else []) ∧
  hci_trace run.2 = [] ∧ ctrl run.2 = ∅.
Proof.
  intros s ca run.
  assert (Hrun : run = (Ret 40, run.2)) by (vm_compute; reflexivity).
  split; [by rewrite Hrun|].
  exact (deliver_entry_warnings Ring.LMP_LENGTHS Ring.LMP_ESC_LENGTHS
           (Some Ring.deviceAddress) ca (40, Ring.payload 5) 37 s 40 run.2 Hrun).
Defined.

(** An entry sent by the device on connection 1: byte 4 is 10, the opcode
    is 5, and the table gives 17 bytes. *)
Lemma deliver_entry_addresses_witness :
  let s := Ram.session (∅ : Ram.ram) in
  let ca : gmap Z bytes := {[ 1 := [xa1; xa2; xa3; xa4; xa5; xa6] ]} in
  let e : entry := (0x80000000 + 38, Ring.payload 5) in
  let run := deliver_entry Ring.LMP_LENGTHS Ring.LMP_ESC_LENGTHS
               (Some Ring.deviceAddress) ca e 37 s in
  run.1 = Ret 38 ∧
  ∃ number peer b4 lmp_len d,
    e.2 !! 2%nat = Some number ∧ ca !! ord number = Some peer ∧
    e.2 !! 4%nat = Some b4 ∧
    (if decide (Z.shiftr (ord b4) 1 >= 0x7C)
     then ∃ b5, e.2 !! 5%nat = Some b5 ∧ Ring.LMP_ESC_LENGTHS (ord b5) = Some lmp_len
     else Ring.LMP_LENGTHS (Z.shiftr (ord b4) 1) = Some lmp_len) ∧
    callback_log run.2 = [] ++ [d] ∧
    dlv_entry d = e ∧
    dlv_sendFromDevice d = bool_decide (Z.land e.1 0x80000000 > 0) ∧
    (if dlv_sendFromDevice d
     then dlv_src_addr d = Some Ring.deviceAddress ∧ dlv_dest_addr d = Some peer
     else dlv_src_addr d = Some peer ∧ dlv_dest_addr d = Some Ring.deviceAddress) ∧
    dlv_lmp_packet d = slice e.2 4 (4 + lmp_len).
Proof.
  intros s ca e run.
  assert (Hrun : run = (Ret 38, run.2)) by (vm_compute; reflexivity).
  split; [by rewrite Hrun|].
  exact (deliver_entry_addresses Ring.LMP_LENGTHS Ring.LMP_ESC_LENGTHS
           (Some Ring.deviceAddress) ca e 37 s 38 run.2 Hrun).
Defined.

(** The batch of [Ring.torn]: the round that started from index 37 ends
    at index 6. *)
Lemma monitor_deliver_last_index_witness :
  let data := Ram.mem_bytes Ring.torn (DATA_BASE_ADDRESS + 4 + 6 * 32) 32 in
  let entries : list entry := [(6, Ring.payload 5)] in
  let run := monitor_deliver Ram.exchange Ring.CONNECTION_ARRAY_ADDRESS
               Ring.CONNECTION_STRUCT_LENGTH Ring.LMP_LENGTHS Ring.LMP_ESC_LENGTHS
               Ring.set_iter 6 (Some Ring.deviceAddress) 37 38 (Some data)
               (Ram.session Ring.torn) in
  run.1 = Ret 6 ∧
  (∃ e, e ∈ entries ∧ 6 = entry_key e) ∧
  (∀ e, e ∈ entries -> entry_key e <= 6).
Proof.
  intros data entries run.
  assert (Hrun : run = (Ret 6, run.2)) by (vm_compute; reflexivity).
  split; [by rewrite Hrun|].
  apply (monitor_deliver_last_index Ram.exchange Ring.CONNECTION_ARRAY_ADDRESS
           Ring.CONNECTION_STRUCT_LENGTH Ring.LMP_LENGTHS Ring.LMP_ESC_LENGTHS
           Ring.set_iter 6 (Some Ring.deviceAddress) 37 38 data entries
           (Ram.session Ring.torn) 6 run.2).
  - vm_compute. reflexivity.
  - discriminate.
  - exact Hrun.
Defined.

(** ** More on the send thread *)

Section MoreTransportProps.

Context (parse_hci_packet : bytes -> HCI_packet) {StackDumpReceiver : Type}
        (sd_recvPacket : HCI_packet -> StackDumpReceiver -> bool * StackDumpReceiver).

Implicit Types (p : Pipeline StackDumpReceiver) (sd : StackDumpReceiver).

Lemma slots_ready_connected queue_size sd : slots_ready (connected queue_size sd).
Proof.
  split; [constructor|]. intros t Ht. by apply elem_of_nil in Ht.
Qed.

Lemma slots_ready_step p p' :
  slots_ready p -> step parse_hci_packet sd_recvPacket p p' -> slots_ready p'.
Proof.
  intros [Hnd Hready] Hstep.
  destruct Hstep as
    [data ol il fl dr t64 rec p _
    |opcode data q sq' p Hfresh Hfresh' Hput
    |r q2' p Htop Hget
    |p Htop Hget
    |t sq' p Hidle Hget
    |p Hidle Hget
    |t r q2' p p' Hwait Hget Hpoll
    |q p p' Hcol].
  - done.
  - (* a caller submits *)
    apply put_nowait_Some in Hput as [Hitems _].
    assert (Hpend : pending (on_submit opcode data q sq' p)
                    = pending p ++ [mkTask opcode data q]).
    { unfold pending, on_submit; cbn. by rewrite Hitems, app_assoc. }
    assert (Hnew : ∀ t, t ∈ pending p -> task_queue t ≠ q).
    { intros t Ht Heq. destruct (Hready t Ht) as (Q & HQ & _). congruence. }
    split.
    + rewrite Hpend, fmap_app. apply NoDup_app. split_and!; [done| |by apply NoDup_singleton].
      intros q' (t & -> & Ht)%list_elem_of_fmap Hq'. cbn in Hq'.
      apply list_elem_of_singleton in Hq'. by apply (Hnew t).
    + intros t. rewrite Hpend, elem_of_app, list_elem_of_singleton.
      intros [Ht| ->]; cbn.
      * rewrite lookup_insert_ne by (symmetry; by apply Hnew). by apply Hready.
      * rewrite lookup_insert_eq. by exists (new 1).
  - done.
  - (* flushed *)
    unfold slots_ready, pending, with_pc in *; cbn. by rewrite Htop in Hnd, Hready.
  - (* the send thread takes a task *)
    apply get_nowait_Some in Hget as [Hitems _].
    assert (Hsub : pending (on_dispatch t sq' p) `sublist_of` pending p).
    { unfold pending, on_dispatch. rewrite Hidle, Hitems.
      destruct (build_frame _ _); cbn; [done|by apply sublist_cons|].
      by rewrite Hidle, Hitems. }
    assert (Hslots : slots (on_dispatch t sq' p) = slots p).
    { unfold on_dispatch. by destruct (build_frame _ _). }
    split.
    + eapply sublist_NoDup; [exact Hnd|]. by apply fmap_sublist.
    + intros t' Ht'. rewrite Hslots. apply Hready.
      eapply elem_of_sublist; eauto.
  - (* no task *)
    unfold slots_ready, pending, with_pc in *; cbn. by rewrite Hidle in Hnd, Hready.
  - (* the send thread takes a record *)
    unfold on_poll in Hpoll.
    assert (Hpend : pending p = t :: items (sendQueue p)).
    { unfold pending. by rewrite Hwait. }
    destruct (is_response (task_opcode t) r) as [d|] eqn:Hresp.
    + destruct (slots p !! task_queue t) as [Q|] eqn:HQ; [|done].
      cbn in Hpoll. destruct (put_nowait d Q) as [Q'|] eqn:HQ'; [|done].
      cbn in Hpoll. injection Hpoll as <-.
      rewrite Hpend, fmap_cons in Hnd. apply NoDup_cons in Hnd as [Hnotin Hnd].
      split; unfold pending; cbn; [done|].
      intros t' Ht'. rewrite lookup_insert_ne.
      * apply Hready. rewrite Hpend. apply elem_of_cons. by right.
      * intros Heq. apply Hnotin. rewrite Heq. by apply list_elem_of_fmap_2.
    + injection Hpoll as <-.
      split; unfold pending in *; cbn; by rewrite Hwait in *.
  - (* a caller gets its response *)
    unfold on_collect in Hcol.
    destruct (slots p !! q) as [Q|] eqn:HQ; [|done]. cbn in Hcol.
    destruct (get_nowait Q) as [[d Q']|] eqn:Hget; [|done]. cbn in Hcol.
    injection Hcol as <-.
    apply get_nowait_Some in Hget as [Hitems _].
    split; [done|]. intros t Ht. change (t ∈ pending p) in Ht.
    destruct (Hready t Ht) as (Q0 & HQ0 & Hempty & Hmax). cbn.
    rewrite lookup_insert_ne; [eauto|].
    intros ->. rewrite HQ in HQ0. injection HQ0 as ->. by rewrite Hempty in Hitems.
Qed.

Lemma slots_ready_reachable queue_size sd p :
  reachable parse_hci_packet sd_recvPacket queue_size sd p -> slots_ready p.
Proof.
  unfold reachable. revert p.
  apply rtc_ind_r; [apply slots_ready_connected|].
  eauto using slots_ready_step.
Qed.

(** X16: the send thread is never held up by a caller: in every state the
    session can reach, the queue of the task in flight is there, has one
    slot and is empty, so that [queue.put] of the response goes through at
    once, and the send thread is back at the top of its loop. *)
Theorem response_slot_is_free queue_size sd p t r q2' d :
  reachable parse_hci_packet sd_recvPacket queue_size sd p ->
  sender_pc p = Waiting t ->
  is_response (task_opcode t) r = Some d ->
  ∃ p', on_poll t r q2' p = Some p' ∧
        sender_pc p' = AtTop ∧
        slots p' !! task_queue t = Some (mkQueue 1 [d]).
Proof.
  intros Hreach Hwait Hresp.
  destruct (slots_ready_reachable _ _ _ Hreach) as [_ Hready].
  destruct (Hready t) as (Q & HQ & Hempty & Hmax).
  { unfold pending. rewrite Hwait. apply elem_of_cons. by left. }
  unfold on_poll. rewrite Hresp, HQ. cbn.
  destruct Q as [m l]. cbn in Hempty, Hmax. subst m l.
  eexists. split; [done|]. split; [done|]. cbn. by rewrite lookup_insert_eq.
Qed.

(** X17: one command at a time: a step of the session adds a frame to what
    was written to the inject socket only when the send thread, its
    private queue flushed, takes a task from [sendQueue]; it adds that
    task's frame and then waits for its response.  Nothing is written
    while the thread waits. *)
Theorem frames_are_written_one_at_a_time p p' :
  step parse_hci_packet sd_recvPacket p p' ->
  s_inject p' ≠ s_inject p ->
  sender_pc p = Flushed ∧
  ∃ t out, sender_pc p' = Waiting t ∧
           build_frame (task_opcode t) (task_data t) = Ret out ∧
           s_inject p' = s_inject p ++ [out] ∧
           (∃ sq', get_nowait (sendQueue p) = Some (t, sq')).
Proof.
  intros Hstep Hnew. destruct Hstep as
    [data ol il fl dr t64 rec p _
    |opcode data q sq' p Hfresh Hfresh' Hput
    |r q2' p Htop Hget
    |p Htop Hget
    |t sq' p Hidle Hget
    |p Hidle Hget
    |t r q2' p p' Hwait Hget Hpoll
    |q p p' Hcol]; try done.
  - split; [done|]. unfold on_dispatch in *.
    destruct (build_frame _ _) as [out| |] eqn:Hframe; [|done..].
    exists t, out. cbn. eauto.
  - unfold on_poll in Hpoll. destruct (is_response _ _).
    + destruct (slots p !! task_queue t); [|done]. cbn in Hpoll.
      destruct (put_nowait _ _); [|done]. by injection Hpoll as <-.
    + by injection Hpoll as <-.
  - unfold on_collect in Hcol. destruct (slots p !! q); [|done]. cbn in Hcol.
    destruct (get_nowait _) as [[]|]; [|done]. by injection Hcol as <-.
Qed.

Lemma recv_enqueue_alive rec (s : RecvState StackDumpReceiver) :
  sendThread_alive (recv_enqueue sd_recvPacket rec s) = sendThread_alive s.
Proof.
  unfold recv_enqueue. repeat case_match; simplify_eq; done.
Qed.

(** Once the send thread has been left by an exception nothing moves on
    its side for the rest of the connection: no frame is written, and a
    caller gets only what was on its queue already. *)
Lemma crashed_is_final p p' e :
  rtc (step parse_hci_packet sd_recvPacket) p p' ->
  sender_pc p = Crashed e ->
  sendThread_alive (rx p) = false ->
  sender_pc p' = Crashed e ∧
  sendThread_alive (rx p') = false ∧
  s_inject p' = s_inject p ∧
  ∀ q d, ((q, d) ∈ returned p' ∨ ∃ Q, slots p' !! q = Some Q ∧ d ∈ items Q) ->
         (q, d) ∈ returned p ∨ ∃ Q, slots p !! q = Some Q ∧ d ∈ items Q.
Proof.
  intros Hrtc Hpc Halive. revert p' Hrtc.
  apply rtc_ind_r; [by split_and!|].
  intros p1 p2 _ Hstep (Hpc1 & Halive1 & Hinj1 & Hret1).
  destruct Hstep as
    [data ol il fl dr t64 rec p1 _
    |opcode data q sq' p1 Hfresh Hfresh' Hput
    |r q2' p1 Htop Hget
    |p1 Htop Hget
    |t sq' p1 Hidle Hget
    |p1 Hidle Hget
    |t r q2' p1 p2 Hwait Hget Hpoll
    |q p1 p2 Hcol]; try congruence.
  - cbn. by rewrite recv_enqueue_alive.
  - cbn. split_and!; [done..|]. intros q0 d [Hin|(Q & HQ & Hd)].
    + apply Hret1. by left.
    + destruct (decide (q0 = q)) as [->|Hne].
      * rewrite lookup_insert_eq in HQ. injection HQ as <-.
        by apply elem_of_nil in Hd.
      * rewrite lookup_insert_ne in HQ by done. apply Hret1. right. eauto.
  - unfold on_collect in Hcol.
    destruct (slots p1 !! q) as [Q|] eqn:HQ; [|done]. cbn in Hcol.
    destruct (get_nowait Q) as [[d Q']|] eqn:Hget; [|done]. cbn in Hcol.
    injection Hcol as <-. cbn.
    apply get_nowait_Some in Hget as [Hitems _].
    split_and!; [done..|]. intros q0 d0 [Hin|(Q0 & HQ0 & Hd)].
    + apply elem_of_app in Hin as [Hin|Hin]; [apply Hret1; by left|].
      apply list_elem_of_singleton in Hin. injection Hin as -> ->.
      apply Hret1. right. exists Q. split; [done|]. rewrite Hitems.
      apply elem_of_cons. by left.
    + destruct (decide (q0 = q)) as [->|Hne].
      * rewrite lookup_insert_eq in HQ0. injection HQ0 as <-.
        apply Hret1. right. exists Q. split; [done|]. rewrite Hitems.
        apply elem_of_cons. by right.
      * rewrite lookup_insert_ne in HQ0 by done. apply Hret1. right. eauto.
Qed.

Lemma build_frame_out_of_range opcode data :
  ¬ (0 <= opcode < 65536 ∧ (length data <= 255)%nat) ->
  build_frame opcode data = Raise StructError.
Proof.
  intros Hbad. unfold build_frame, p16, p8, pack.
  destruct (decide (0 <= opcode < 2 ^ (8 * Z.of_nat 2))) as [Hop|Hop]; [|done].
  cbn [or_raise rbind].
  destruct (decide (0 <= Z.of_nat (length data) < 2 ^ (8 * Z.of_nat 1))) as [Hlen|Hlen];
    [|done].
  exfalso. apply Hbad. change (2 ^ (8 * Z.of_nat 2)) with 65536 in Hop.
  change (2 ^ (8 * Z.of_nat 1)) with 256 in Hlen. lia.
Qed.

(** X18: a command that cannot be packed ends the send thread of the
    connection.  When the thread takes a task whose opcode is not in
    0..65535 or whose data is longer than 255 bytes, [p16] or [p8] raises
    [struct.error] in the thread, outside any [try]: the thread is left
    and nothing is written for that task.  From then on, for as long as
    the session is not shut down and connected again (the steps are those
    of one connection; [connect()] after [shutdown()] starts a new send
    thread), whatever the receive thread and the callers of
    [sendHciCommand] do, no frame is written and no caller is handed a
    response that was not on its queue before.  [sendHciCommand] does not
    validate its arguments. *)
Theorem malformed_command_ends_send_thread p t sq' p' :
  ¬ (0 <= task_opcode t < 65536 ∧ (length (task_data t) <= 255)%nat) ->
  rtc (step parse_hci_packet sd_recvPacket) (on_dispatch t sq' p) p' ->
  sender_pc p' = Crashed StructError ∧
  sendThread_alive (rx p') = false ∧
  s_inject p' = s_inject p ∧
  ∀ q d, (q, d) ∈ returned p' ->
         (q, d) ∈ returned p ∨ ∃ Q, slots p !! q = Some Q ∧ d ∈ items Q.
Proof.
  intros Hbad Hrtc.
  assert (Hd : on_dispatch t sq' p
               = mkPipeline (with_alive false (rx p)) sq' (slots p) (s_inject p)
                   (Crashed StructError) (snoop_seen p) (sent_by p) (returned p)).
  { unfold on_dispatch. by rewrite build_frame_out_of_range. }
  rewrite Hd in Hrtc.
  destruct (crashed_is_final _ _ StructError Hrtc) as (Hpc & Halive & Hinj & Hret);
    [done..|].
  split_and!; [done..|]. intros q d Hin. apply (Hret q d). by left.
Qed.

Lemma bounded_new {A} n : bounded n (new (A:=A) n).
Proof. split; [done|]. unfold qsize; cbn. lia. Qed.

Lemma bounded_put {A} n (x : A) Q Q' :
  put_nowait x Q = Some Q' -> bounded n Q -> bounded n Q'.
Proof.
  unfold put_nowait, bounded, qsize. intros Hput [Hmax Hsize].
  destruct (bool_decide (0 < maxsize Q)) eqn:Hpos;
    destruct (bool_decide (Z.of_nat (length (items Q)) = maxsize Q)) eqn:Hfull;
    cbn in Hput; simplify_eq; cbn; (split; [done|]); intros Hn;
    rewrite length_app; cbn.
  - apply bool_decide_eq_false in Hfull. specialize (Hsize Hn). lia.
  - apply bool_decide_eq_false in Hpos. lia.
  - apply bool_decide_eq_false in Hpos. lia.
Qed.

Lemma bounded_get {A} n (x : A) Q Q' :
  get_nowait Q = Some (x, Q') -> bounded n Q -> bounded n Q'.
Proof.
  intros [Hitems Hmax]%get_nowait_Some [Hm Hsize]. unfold bounded, qsize in *.
  split; [congruence|]. intros Hn. specialize (Hsize Hn).
  rewrite Hitems in Hsize. cbn in Hsize. lia.
Qed.

Lemma bounded_recv_enqueue n rec (s : RecvState StackDumpReceiver) :
  bounded n (recvQueue s) -> bounded n (sendThreadrecvQueue s) ->
  bounded n (recvQueue (recv_enqueue sd_recvPacket rec s)) ∧
  bounded n (sendThreadrecvQueue (recv_enqueue sd_recvPacket rec s)).
Proof.
  intros H1 H2. unfold recv_enqueue.
  assert (Hd : bounded n (drain (recvQueue s))).
  { rewrite drain_empty. destruct H1 as [<- _]. apply bounded_new. }
  destruct (full (recvQueue s));
    [destruct (put_nowait rec (drain (recvQueue s))) eqn:Hp1
    |destruct (put_nowait rec (recvQueue s)) eqn:Hp1];
    destruct (sendThread_alive s);
    try destruct (put_nowait rec (sendThreadrecvQueue s)) eqn:Hp2;
    destruct (sd_recvPacket (rec_pkt rec) (stackDumpReceiver s)) as [[] ?];
    cbn; eauto using bounded_put.
Qed.

Lemma queues_bounded_step n p p' :
  queues_bounded n p -> step parse_hci_packet sd_recvPacket p p' ->
  queues_bounded n p'.
Proof.
  intros (H1 & H2 & H3) Hstep. destruct Hstep as
    [data ol il fl dr t64 rec p _
    |opcode data q sq' p Hfresh Hfresh' Hput
    |r q2' p Htop Hget
    |p Htop Hget
    |t sq' p Hidle Hget
    |p Hidle Hget
    |t r q2' p p' Hwait Hget Hpoll
    |q p p' Hcol]; unfold queues_bounded; cbn.
  - destruct (bounded_recv_enqueue n rec (rx p)); done.
  - eauto using bounded_put.
  - eauto using bounded_get.
  - done.
  - unfold on_dispatch. destruct (build_frame _ _); cbn; eauto using bounded_get.
  - done.
  - unfold on_poll in Hpoll. destruct (is_response _ _).
    + destruct (slots p !! task_queue t); [|done]. cbn in Hpoll.
      destruct (put_nowait _ _); [|done]. injection Hpoll as <-. cbn.
      eauto using bounded_get.
    + injection Hpoll as <-. cbn. eauto using bounded_get.
  - unfold on_collect in Hcol. destruct (slots p !! q); [|done]. cbn in Hcol.
    destruct (get_nowait _) as [[]|]; [|done]. by injection Hcol as <-.
Qed.

(** X19: the three queues of the session keep their bound.  For a positive
    [queue_size], in every state the session can reach, the receive queue,
    the send thread's private queue and the send queue each hold at most
    [queue_size] elements: the receive thread flushes or drops, it never
    grows a queue beyond its size, whatever the callers and the controller
    do. *)
Theorem queues_stay_bounded queue_size sd p :
  reachable parse_hci_packet sd_recvPacket queue_size sd p ->
  0 < queue_size ->
  qsize (recvQueue (rx p)) <= queue_size ∧
  qsize (sendThreadrecvQueue (rx p)) <= queue_size ∧
  qsize (sendQueue p) <= queue_size.
Proof.
  intros Hreach Hpos.
  assert (Hb : queues_bounded queue_size p).
  { revert p Hreach. apply rtc_ind_r.
    - split_and!; apply bounded_new.
    - eauto using queues_bounded_step. }
  destruct Hb as ((_ & H1) & (_ & H2) & (_ & H3)). auto.
Qed.

End MoreTransportProps.

(** The run of [Scenario] up to the state in which the send thread, waiting
    for the answer of the read command, finds it at the head of its queue. *)
Lemma scenario_p7_reachable :
  reachable Ram.parse Ram.no_dump 1000 tt Scenario.p7.
Proof.
  unfold reachable.
  eapply (rtc_l _ _ Scenario.p1).
  { by apply (step_submit Ram.parse unit Ram.no_dump 0xfc4d Scenario.read_params 0%nat). }
  eapply (rtc_l _ _ Scenario.p1').
  { by apply (step_flushed Ram.parse unit Ram.no_dump). }
  eapply (rtc_l _ _ Scenario.p2).
  { by apply (step_dispatch Ram.parse unit Ram.no_dump Scenario.read_task). }
  eapply (rtc_l _ _ Scenario.p3).
  { by apply (step_record Ram.parse unit Ram.no_dump Scenario.frame_noise 8 8 1 0 Scenario.year2000). }
  eapply (rtc_l _ _ Scenario.p4).
  { by apply (step_record Ram.parse unit Ram.no_dump Scenario.frame_other 7 7 1 0 Scenario.year2000). }
  eapply (rtc_l _ _ Scenario.p5).
  { by apply (step_record Ram.parse unit Ram.no_dump Scenario.frame_answer 11 11 1 0 Scenario.year2000). }
  eapply (rtc_l _ _ Scenario.p6).
  { by eapply (step_poll Ram.parse unit Ram.no_dump Scenario.read_task). }
  eapply (rtc_l _ _ Scenario.p7).
  { by eapply (step_poll Ram.parse unit Ram.no_dump Scenario.read_task). }
  apply rtc_refl.
Qed.

Lemma response_slot_is_free_witness :
  reachable Ram.parse Ram.no_dump 1000 tt Scenario.p7 ∧
  sender_pc Scenario.p7 = Waiting Scenario.read_task ∧
  is_response 0xfc4d (Scenario.record_of Scenario.frame_answer)
  = Some [x01; x4d; xfc; x00; x05; x00; x00; x00] ∧
  ∃ p', on_poll Scenario.read_task (Scenario.record_of Scenario.frame_answer)
                (mkQueue 1000 []) Scenario.p7 = Some p' ∧
        sender_pc p' = AtTop ∧
        slots p' !! 0%nat = Some (mkQueue 1 [[x01; x4d; xfc; x00; x05; x00; x00; x00]]).
Proof.
  assert (Hpc : sender_pc Scenario.p7 = Waiting Scenario.read_task)
    by (vm_compute; reflexivity).
  assert (Hresp : is_response (task_opcode Scenario.read_task)
                    (Scenario.record_of Scenario.frame_answer)
                  = Some [x01; x4d; xfc; x00; x05; x00; x00; x00])
    by (vm_compute; reflexivity).
  split; [exact scenario_p7_reachable|]. split; [exact Hpc|]. split; [exact Hresp|].
  exact (response_slot_is_free Ram.parse Ram.no_dump 1000 tt Scenario.p7
           Scenario.read_task _ (mkQueue 1000 []) _ scenario_p7_reachable Hpc Hresp).
Defined.

Lemma frames_are_written_one_at_a_time_witness :
  step Ram.parse Ram.no_dump Scenario.p1' Scenario.p2 ∧
  s_inject Scenario.p2 ≠ s_inject Scenario.p1' ∧
  sender_pc Scenario.p1' = Flushed ∧
  ∃ t out, sender_pc Scenario.p2 = Waiting t ∧
           build_frame (task_opcode t) (task_data t) = Ret out ∧
           s_inject Scenario.p2 = s_inject Scenario.p1' ++ [out] ∧
           (∃ sq', get_nowait (sendQueue Scenario.p1') = Some (t, sq')).
Proof.
  assert (Hstep : step Ram.parse Ram.no_dump Scenario.p1' Scenario.p2).
  { by apply (step_dispatch Ram.parse unit Ram.no_dump Scenario.read_task). }
  assert (Hnew : s_inject Scenario.p2 ≠ s_inject Scenario.p1')
    by (vm_compute; discriminate).
  split; [exact Hstep|]. split; [exact Hnew|].
  exact (frames_are_written_one_at_a_time Ram.parse Ram.no_dump
           Scenario.p1' Scenario.p2 Hstep Hnew).
Defined.

(** A caller passes the opcode 0x10000, which [p16] cannot pack; a record
    arrives afterwards. *)
Lemma malformed_command_ends_send_thread_witness :
  let t := mkTask 0x10000 [] 0 in
  let p := Scenario.p1' in
  let p' := on_record Ram.no_dump (Scenario.record_of Scenario.frame_answer)
              (on_dispatch t (mkQueue 1000 []) p) in
  ¬ (0 <= task_opcode t < 65536 ∧ (length (task_data t) <= 255)%nat) ∧
  rtc (step Ram.parse Ram.no_dump) (on_dispatch t (mkQueue 1000 []) p) p' ∧
  sender_pc p' = Crashed StructError ∧
  sendThread_alive (rx p') = false ∧
  s_inject p' = s_inject p ∧
  ∀ q d, (q, d) ∈ returned p' ->
         (q, d) ∈ returned p ∨ ∃ Q, slots p !! q = Some Q ∧ d ∈ items Q.
Proof.
  intros t p p'.
  assert (Hbad : ¬ (0 <= task_opcode t < 65536 ∧ (length (task_data t) <= 255)%nat)).
  { cbn. lia. }
  assert (Hrtc : rtc (step Ram.parse Ram.no_dump) (on_dispatch t (mkQueue 1000 []) p) p').
  { apply rtc_once.
    by apply (step_record Ram.parse unit Ram.no_dump Scenario.frame_answer
                11 11 1 0 Scenario.year2000). }
  split; [exact Hbad|]. split; [exact Hrtc|].
  exact (malformed_command_ends_send_thread Ram.parse Ram.no_dump p t
           (mkQueue 1000 []) p' Hbad Hrtc).
Defined.

Lemma queues_stay_bounded_witness :
  reachable Ram.parse Ram.no_dump 1000 tt Scenario.p7 ∧ 0 < 1000 ∧
  qsize (recvQueue (rx Scenario.p7)) <= 1000 ∧
  qsize (sendThreadrecvQueue (rx Scenario.p7)) <= 1000 ∧
  qsize (sendQueue Scenario.p7) <= 1000.
Proof.
  split; [exact scenario_p7_reachable|]. split; [lia|].
  apply (queues_stay_bounded Ram.parse Ram.no_dump 1000 tt Scenario.p7
           scenario_p7_reachable). lia.
Defined.

(** ** More on the record time *)

(** X20: which record times can be dated.  [_parse_time] succeeds exactly
    for the times from 378 days up to, not including, 3652437 days, in
    microseconds: 0x00E03AB44A676000 is 730497 days and stands for
    2000-01-01, day 730119 after 0001-01-01, and a [datetime] ends with
    the year 9999.  The result is then [time] less 378 days, counted from
    0001-01-01.  Every other value, the negative ones and the first 378
    days included, raises [OverflowError]: nothing else is raised, and the
    two [timedelta]s never overflow for a time that can be dated. *)
Theorem parse_time_domain (time : Z) :
  _parse_time time
  = if decide (378 * us_per_day <= time < 3652437 * us_per_day)
    then Ret (mkDatetime (time - 378 * us_per_day))
    else Raise OverflowError.
Proof.
  unfold _parse_time, timedelta_sub, timedelta_of, datetime_add,
    datetime_2000_1_1, max_ordinal, us_per_day.
  cbn [rbind total_us since_year1].
  change (86400 * 1000000) with 86400000000.
  change (63114940800000000 / 86400000000) with 730497.
  rewrite (decide_True (P := -999999999 <= 730497 <= 999999999)) by lia.
  cbn [rbind total_us].
  destruct (decide (378 * 86400000000 <= time < 3652437 * 86400000000)) as [Hin|Hout].
  - rewrite decide_True by (Z.div_mod_to_equations; lia). cbn [rbind total_us].
    rewrite decide_True by (Z.div_mod_to_equations; lia). cbn [rbind total_us].
    rewrite decide_True by lia. f_equal. f_equal. lia.
  - destruct (decide (-999999999 <= time / 86400000000 <= 999999999)); [|done].
    cbn [rbind total_us].
    destruct (decide (-999999999 <= (time - 63114940800000000) / 86400000000 <= 999999999));
      [|done].
    cbn [rbind total_us]. rewrite decide_False by lia. done.
Qed.

(** ** More on the table of connections *)

Section ConnectionProps.

Context {Ctrl : Type} (hci_exchange : command -> Ctrl -> option bytes * Ctrl)
        (CONNECTION_ARRAY_SIZE CONNECTION_ARRAY_ADDRESS CONNECTION_STRUCT_LENGTH : Z).

Implicit Types (s : Session Ctrl).

(** X21: [readConnectionInformation] on a session that is not running, or
    whose exit flag is set, does not return [None] as it does for a
    connection number out of bounds: [readMem] returns [None], which is
    not the blank structure, and [connection[:4]] raises [TypeError].  No
    command is sent. *)
Theorem readConnectionInformation_not_running fuel conn_number s :
  1 <= conn_number <= CONNECTION_ARRAY_SIZE ->
  ses_running s = false ∨ ses_exit_requested s = true ->
  ∃ s', readConnectionInformation hci_exchange CONNECTION_ARRAY_SIZE
      CONNECTION_ARRAY_ADDRESS CONNECTION_STRUCT_LENGTH fuel conn_number s
        = (Raise TypeError, s') ∧
        hci_trace s' = hci_trace s ∧ ctrl s' = ctrl s ∧
        ses_running s' = false.
Proof.
  intros Hn Hoff. unfold readConnectionInformation.
  rewrite decide_False by lia.
  unfold readMem, check_running, mbind, mret, shutdown, log_msg, lift.
  destruct s as [run ex c tr lg cb]. cbn in Hoff |- *.
  destruct Hoff as [->| ->]; [destruct ex|]; cbn; eauto.
Qed.

Lemma land_bit_15 v :
  bool_decide (Z.land v (Z.shiftl 1 15) ≠ 0) = Z.testbit v 15.
Proof.
  change (Z.shiftl 1 15) with (2 ^ 15).
  destruct (Z.testbit v 15) eqn:Hbit.
  - apply bool_decide_eq_true. intros H0.
    assert (Z.testbit (Z.land v (2 ^ 15)) 15 = true) as Ht.
    { rewrite Z.land_spec, Hbit, Z.pow2_bits_true by lia. done. }
    rewrite H0 in Ht. by rewrite Z.bits_0 in Ht.
  - apply bool_decide_eq_false. intros H. apply H. apply Z.bits_inj'. intros n Hn.
    rewrite Z.land_spec, Z.bits_0.
    destruct (decide (n = 15)) as [->|Hne].
    + by rewrite Hbit.
    + rewrite (Z.pow2_bits_false 15 n) by lia. apply andb_false_r.
Qed.

(** X22: on a running session whose controller answers reads in full,
    [readConnectionInformation] of a connection number in bounds reads the
    structure of that connection, [CONNECTION_STRUCT_LENGTH] bytes at
    [CONNECTION_ARRAY_ADDRESS + CONNECTION_STRUCT_LENGTH * (n - 1)], in
    chunks of 251 bytes, and raises nothing.  It returns [None] when the
    structure is all zero; otherwise the dictionary has the little-endian
    dword at 0, the six bytes at 0x28 reversed, the dword at 0x4C, and bit
    15 of the dword at 0x1C as [master_of_connection]. *)
Theorem readConnectionInformation_reads_struct fuel conn_number s :
  full_blocks hci_exchange ->
  ses_running s = true -> ses_exit_requested s = false ->
  1 <= conn_number <= CONNECTION_ARRAY_SIZE ->
  0x50 <= CONNECTION_STRUCT_LENGTH ->
  0 <= CONNECTION_ARRAY_ADDRESS ->
  CONNECTION_ARRAY_ADDRESS + CONNECTION_STRUCT_LENGTH * CONNECTION_ARRAY_SIZE
    <= 4294967296 ->
  (Z.to_nat ((CONNECTION_STRUCT_LENGTH + 250) / 251) < fuel)%nat ->
  let a := CONNECTION_ARRAY_ADDRESS + CONNECTION_STRUCT_LENGTH * (conn_number - 1) in
  let got := collect_reads hci_exchange (read_requests a CONNECTION_STRUCT_LENGTH) (ctrl s) in
  let c := got.1 in
  Z.of_nat (length c) = CONNECTION_STRUCT_LENGTH ∧
  readConnectionInformation hci_exchange CONNECTION_ARRAY_SIZE
      CONNECTION_ARRAY_ADDRESS CONNECTION_STRUCT_LENGTH fuel conn_number s
  = (Ret ([], if decide (c = replicate (length c) x00) then None
              else Some (mkConn (le_value (take 4 c))
                                (reverse (take 6 (drop 0x28 c)))
                                (le_value (take 4 (drop 0x4C c)))
                                (Z.testbit (le_value (take 4 (drop 0x1C c))) 15))),
     mkSession true false got.2
               (hci_trace s ++ read_requests a CONNECTION_STRUCT_LENGTH)
               (ses_log s) (callback_log s)).
Proof.
  intros Hfull Hrun Hexit Hn Hlen Haddr Hend Hfuel a got c.
  destruct (readMem_full hci_exchange fuel a CONNECTION_STRUCT_LENGTH s)
    as [Hread Hgot]; [done|done|done|nia|nia|lia|done|].
  fold got in Hread, Hgot. fold c in Hgot. split; [done|].
  unfold readConnectionInformation. rewrite decide_False by lia.
  fold a. unfold mbind at 1. rewrite Hread. fold c.
  rewrite Hrun, Hexit.
  assert (Hl : length c = Z.to_nat CONNECTION_STRUCT_LENGTH) by lia.
  rewrite <- Hl.
  destruct (decide (c = replicate (length c) x00)) as [Hz|Hnz].
  - rewrite decide_True by (f_equal; exact Hz). done.
  - rewrite decide_False by (intros [= Heq]; done).
    cbn [or_raise]. rewrite mbind_ret.
    assert (H1 : slice c 0 4 = take 4 c)
      by (apply (slice_take_drop c 0 4); lia).
    assert (H2 : slice c 0x28 0x2E = take 6 (drop 0x28 c))
      by (apply (slice_take_drop c 0x28 0x2E); lia).
    assert (H3 : slice c 0x4C 0x50 = take 4 (drop 0x4C c))
      by (apply (slice_take_drop c 0x4C 0x50); lia).
    assert (H4 : slice c 0x1C 0x20 = take 4 (drop 0x1C c))
      by (apply (slice_take_drop c 0x1C 0x20); lia).
    rewrite H1, H2, H3, H4.
    unfold u32, unpack.
    rewrite !decide_True by (rewrite length_take, ?length_drop; lia).
    cbn [or_raise]. rewrite !mbind_ret. unfold mret.
    by rewrite land_bit_15.
Qed.

End ConnectionProps.

(** Connection 1 on a session that [connect()] was not called for. *)
Lemma readConnectionInformation_not_running_witness :
  ∃ s', readConnectionInformation Ram.exchange 11
          Ring.CONNECTION_ARRAY_ADDRESS Ring.CONNECTION_STRUCT_LENGTH 3 1
          (mkSession false false (Ring.base 0) [] [] [])
        = (Raise TypeError, s') ∧
        hci_trace s' = [] ∧ ctrl s' = Ring.base 0 ∧ ses_running s' = false.
Proof.
  apply (readConnectionInformation_not_running Ram.exchange 11
           Ring.CONNECTION_ARRAY_ADDRESS Ring.CONNECTION_STRUCT_LENGTH 3 1
           (mkSession false false (Ring.base 0) [] [] [])).
  - lia.
  - left. reflexivity.
Defined.

(** Connection 1 of a memory that holds the number 1, the address
    a1:a2:a3:a4:a5:a6 and the master bit. *)
Lemma readConnectionInformation_reads_struct_witness :
  let m := Ram.poke (Ram.poke (Ring.base 0) 0x2038E8 [x01])
                    (0x2038E8 + 0x1C) [x00; x80] in
  ∃ s', readConnectionInformation Ram.exchange 11
          Ring.CONNECTION_ARRAY_ADDRESS Ring.CONNECTION_STRUCT_LENGTH 3 1
          (Ram.session m)
        = (Ret ([], Some (mkConn 1 [xa1; xa2; xa3; xa4; xa5; xa6] 0 true)), s') ∧
        length (hci_trace s') = 2%nat.
Proof.
  intros m.
  assert (H1 : 1 <= 1 <= 11) by lia.
  assert (H2 : 0x50 <= Ring.CONNECTION_STRUCT_LENGTH) by (vm_compute; discriminate).
  assert (H3 : 0 <= Ring.CONNECTION_ARRAY_ADDRESS) by (vm_compute; discriminate).
  assert (H4 : Ring.CONNECTION_ARRAY_ADDRESS + Ring.CONNECTION_STRUCT_LENGTH * 11
               <= 4294967296) by (vm_compute; discriminate).
  assert (H5 : (Z.to_nat ((Ring.CONNECTION_STRUCT_LENGTH + 250) / 251) < 3)%nat)
    by (vm_compute; lia).
  eexists. split.
  - etransitivity.
    + exact (proj2 (readConnectionInformation_reads_struct Ram.exchange 11
               Ring.CONNECTION_ARRAY_ADDRESS Ring.CONNECTION_STRUCT_LENGTH 3 1
               (Ram.session m) ram_full_blocks eq_refl eq_refl H1 H2 H3 H4 H5)).
    + vm_compute. reflexivity.
  - vm_compute. reflexivity.
Defined.

(** ** More on the receive thread *)

Section ReceiveThreadProps.

Context (parse_hci_packet : bytes -> HCI_packet) {StackDumpReceiver : Type}
        (sd_recvPacket : HCI_packet -> StackDumpReceiver -> bool * StackDumpReceiver).

Implicit Types (st : Snoop StackDumpReceiver) (k : list arrival).

Lemma set_arrivals_id k st : s_snoop st = k -> set_arrivals k st = st.
Proof. intros <-. by destruct st. Qed.

(** With bytes enough to come and nothing in the way, a loop takes just
    the bytes it wants, however they are cut into segments. *)
Lemma recv_loop_clean closed want : ∀ k fuel buf st,
  clean k -> s_snoop st = k ->
  exit_requested (recv_state st) = false ->
  Z.of_nat (length buf) <= want ->
  want - Z.of_nat (length buf) <= Z.of_nat (length (stream k)) ->
  (length k < fuel)%nat ->
  ∃ k', recv_loop fuel closed want buf st
        = Ret (buf ++ take (Z.to_nat (want - Z.of_nat (length buf))) (stream k),
               set_arrivals k' st) ∧
        stream k' = drop (Z.to_nat (want - Z.of_nat (length buf))) (stream k) ∧
        clean k' ∧ (length k' <= length k)%nat.
Proof.
  induction k as [|a k IH]; intros fuel buf st Hclean Hk Hexit Hle Hneed Hfuel;
    (destruct fuel as [|fuel]; [cbn in Hfuel; lia|]);
    cbn [recv_loop]; rewrite Hexit; cbn [negb andb].
  - cbn in Hneed. rewrite bool_decide_eq_false_2 by lia.
    exists []. replace (want - Z.of_nat (length buf)) with 0 by lia.
    cbn. rewrite app_nil_r, set_arrivals_id by done. done.
  - destruct (decide (Z.of_nat (length buf) < want)) as [Hlt|Hge].
    2:{ rewrite bool_decide_eq_false_2 by done.
        exists (a :: k). replace (want - Z.of_nat (length buf)) with 0 by lia.
        cbn [Z.to_nat take drop]. rewrite app_nil_r, set_arrivals_id by done.
        done. }
    rewrite bool_decide_eq_true_2 by done. rewrite Hk.
    apply Forall_cons in Hclean as [Ha Hclean]. cbn in Hfuel.
    destruct a as [b| |]; [|clear Ha|done].
    + cbn [recv stream] in *. rewrite length_app in Hneed.
      destruct (decide (Z.of_nat (length b) <= want - Z.of_nat (length buf))) as [Hfit|Hbig].
      * cbv beta iota zeta.
        assert (Hb : length b ≠ 0%nat) by (by destruct b).
        rewrite decide_False by done.
        destruct (IH fuel (buf ++ b) (set_arrivals k st))
          as (k' & Hloop & Hstream & Hclean' & Hlen);
          [done|done|done|rewrite length_app; lia|rewrite length_app; lia|lia|].
        exists k'. rewrite Hloop. split_and!; [|..|done|cbn; lia].
        -- rewrite take_app_ge by lia. rewrite <- app_assoc, length_app.
           replace (Z.to_nat (want - Z.of_nat (length buf)) - length b)%nat
             with (Z.to_nat (want - Z.of_nat (length buf + length b))) by lia.
           done.
        -- rewrite Hstream, drop_app_ge by lia. rewrite length_app.
           replace (Z.to_nat (want - Z.of_nat (length buf)) - length b)%nat
             with (Z.to_nat (want - Z.of_nat (length buf + length b))) by lia.
           done.
      * assert (Hn : length (take (Z.to_nat (want - Z.of_nat (length buf))) b)
                     = Z.to_nat (want - Z.of_nat (length buf))).
        { rewrite length_take. lia. }
        cbv beta iota zeta.
        rewrite decide_False by lia.
        destruct fuel as [|fuel]; [lia|]. cbn [recv_loop set_arrivals recv_state].
        rewrite Hexit. cbn [negb andb].
        rewrite bool_decide_eq_false_2 by (rewrite length_app, Hn; lia).
        eexists. split; [|split_and!].
        -- rewrite take_app_le by lia. reflexivity.
        -- cbn [stream]. by rewrite drop_app_le by lia.
        -- apply Forall_cons. split; [|done].
           intros Hnil. apply (f_equal length) in Hnil.
           rewrite length_drop in Hnil. cbn in Hnil. lia.
        -- done.
    + cbn [recv stream] in *.
      cbv beta iota zeta.
      destruct (IH fuel buf (set_arrivals k st))
        as (k' & Hloop & Hstream & Hclean' & Hlen); [done..|lia|].
      exists k'. rewrite Hloop. split_and!; [done|done|done|cbn; lia].
Qed.

Lemma unpack_record_hdr_length hdr v :
  unpack_record_hdr hdr = Some v -> length hdr = 24%nat.
Proof. unfold unpack_record_hdr. by case_decide. Qed.


Lemma file_write_recv_state data st : recv_state (file_write data st) = recv_state st.
Proof. unfold file_write. by destruct (write_btsnooplog st). Qed.

(** The header of a record, read from a stream that holds it. *)
Lemma recv_loop_hdr fuel st hdr rest :
  clean (s_snoop st) ->
  stream (s_snoop st) = hdr ++ rest ->
  length hdr = 24%nat ->
  exit_requested (recv_state st) = false ->
  (length (s_snoop st) < fuel)%nat ->
  ∃ k', recv_loop fuel Log_closed_hdr 24 [] st = Ret (hdr, set_arrivals k' st) ∧
        stream k' = rest ∧ clean k' ∧ (length k' <= length (s_snoop st))%nat.
Proof.
  intros Hclean Hstream Hlen Hexit Hfuel.
  destruct (recv_loop_clean Log_closed_hdr 24 (s_snoop st) fuel [] st)
    as (k' & Hloop & Hs & Hc & Hl); [done|done|done|cbn; lia| |done|].
  { rewrite Hstream, length_app. cbn. lia. }
  exists k'. rewrite Hloop, Hs, Hstream. cbn [length app].
  change (Z.to_nat (24 - Z.of_nat 0)) with 24%nat. rewrite <- Hlen.
  by rewrite take_app_length, drop_app_length.
Qed.


(** X24: a record whose header announces no data ends the receive thread.
    With [inc_len] = 0 the data loop is not entered, the empty
    [record_data] is taken for a failed read: the thread logs the warning
    "Cannot recv data", sets [exit_requested] and returns.  The header has
    gone to the capture file; nothing is put on a queue, and what follows
    in the stream is not read. *)
Theorem empty_record_stops_receive_thread fuel st hdr rest
    orig_len flags drops time64 :
  clean (s_snoop st) ->
  stream (s_snoop st) = hdr ++ rest ->
  unpack_record_hdr hdr = Some (orig_len, 0, flags, drops, time64) ->
  exit_requested (recv_state st) = false ->
  (length (s_snoop st) < fuel)%nat ->
  ∃ st', _recvThreadFunc parse_hci_packet sd_recvPacket (S fuel) st = Ret st' ∧
         frame_log st' = frame_log st ++ [Log_no_data] ∧
         exit_requested (recv_state st') = true ∧
         recvQueue (recv_state st') = recvQueue (recv_state st) ∧
         sendThreadrecvQueue (recv_state st') = sendThreadrecvQueue (recv_state st) ∧
         recv_log (recv_state st') = recv_log (recv_state st) ∧
         btsnooplog_file st'
         = btsnooplog_file st ++ (if write_btsnooplog st then hdr else []) ∧
         stream (s_snoop st') = rest.
Proof.
  intros Hclean Hstream Hunpack Hexit Hfuel.
  pose proof (unpack_record_hdr_length _ _ Hunpack) as Hlen.
  destruct (recv_loop_hdr fuel st hdr rest)
    as (k1 & Hloop1 & Hs1 & Hc1 & Hl1); [done..|].
  cbn [_recvThreadFunc]. rewrite Hexit. unfold recv_one. rewrite Hloop1. cbn [rbind].
  rewrite (bool_decide_eq_false_2 (hdr = [])) by (by destruct hdr).
  rewrite (bool_decide_eq_false_2 (length hdr ≠ 24%nat)) by (by intros []).
  cbn [orb]. rewrite Hunpack. cbn [or_raise rbind].
  destruct fuel as [|fuel]; [lia|]. cbn [recv_loop].
  rewrite file_write_recv_state. cbn [set_arrivals recv_state]. rewrite Hexit.
  cbn [negb andb length]. rewrite bool_decide_eq_false_2 by lia.
  cbn [rbind]. rewrite bool_decide_eq_true_2 by done. cbn [orb].
  unfold stop_with. rewrite file_write_recv_state. cbn [set_arrivals recv_state].
  rewrite Hexit. eexists. split; [done|].
  unfold file_write, set_exit, frame_msg, set_recv_state.
  destruct st as [k [] file rs fl]; cbn; by rewrite ?app_nil_r.
Qed.







End ReceiveThreadProps.


Lemma empty_record_stops_receive_thread_witness :
  let st := Capture.start [Segment (Capture.empty_hdr ++ Capture.hdr); Segment Capture.data] in
  ∃ st', _recvThreadFunc Ram.parse Ram.no_dump 4 st = Ret st' ∧
         frame_log st' = [] ++ [Log_no_data] ∧
         exit_requested (recv_state st') = true ∧
         recvQueue (recv_state st') = new 1000 ∧
         sendThreadrecvQueue (recv_state st') = new 1000 ∧
         recv_log (recv_state st') = [] ∧
         btsnooplog_file st' = [] ++ Capture.empty_hdr ∧
         stream (s_snoop st') = Capture.hdr ++ Capture.data.
Proof.
  apply (empty_record_stops_receive_thread Ram.parse Ram.no_dump 3
           (Capture.start [Segment (Capture.empty_hdr ++ Capture.hdr); Segment Capture.data])
           Capture.empty_hdr (Capture.hdr ++ Capture.data) 0 1 0 0x00E03AB44A676000).
  - repeat constructor; discriminate.
  - vm_compute; reflexivity.
  - vm_compute; reflexivity.
  - reflexivity.
  - cbn; lia.
Defined.


(** ** Writing and reading back *)

Section Replay.

Context {Ctrl : Type} (hci_exchange : command -> Ctrl -> option bytes * Ctrl).

Implicit Types (s : Session Ctrl).

(** The controller after the loop of [writeMem] is the controller after
    the commands the loop has sent. *)
Lemma writeMem_loop_replay : ∀ fuel data a bc s r s',
  writeMem_loop hci_exchange fuel data a bc s = (r, s') ->
  ∃ cmds, hci_trace s' = hci_trace s ++ cmds ∧
          ctrl s' = replay hci_exchange cmds (ctrl s).
Proof.
  induction fuel as [|fuel IH]; intros data a bc s r s' Hloop; cbn [writeMem_loop] in Hloop.
  { injection Hloop as _ <-. exists []. by rewrite app_nil_r. }
  case_decide.
  2:{ injection Hloop as _ <-. exists []. by rewrite app_nil_r. }
  unfold mbind at 1 in Hloop. unfold lift at 1 in Hloop.
  destruct (p32 a) as [addr_bytes|]; cbn [or_raise] in Hloop.
  2:{ injection Hloop as _ <-. exists []. by rewrite app_nil_r. }
  unfold mbind at 1 in Hloop. unfold sendHciCommand at 1 in Hloop.
  destruct (hci_exchange _ (ctrl s)) as [response c'] eqn:Hex.
  set (cmd := (0xfc4c, _)) in Hex.
  assert (Hone : replay hci_exchange [cmd] (ctrl s) = c').
  { cbn. by rewrite Hex. }
  unfold mbind at 1 in Hloop. unfold lift at 1 in Hloop.
  destruct (response_status response) as [status| |]; cbn in Hloop.
  - destruct (decide (status ≠ x00)).
    + injection Hloop as _ <-. exists [cmd]. done.
    + apply IH in Hloop as (cmds & Htrace & Hctrl). cbn in Htrace, Hctrl.
      exists (cmd :: cmds). rewrite Htrace, <- app_assoc. split; [done|].
      rewrite Hctrl. cbn. by rewrite Hex.
  - injection Hloop as _ <-. exists [cmd]. done.
  - injection Hloop as _ <-. exists [cmd]. done.
Qed.

End Replay.

Lemma poke_app bs1 : ∀ m a bs2,
  Ram.poke m a (bs1 ++ bs2)
  = Ram.poke (Ram.poke m a bs1) (a + Z.of_nat (length bs1)) bs2.
Proof.
  induction bs1 as [|b bs1 IH]; intros m a bs2; cbn [Ram.poke app length].
  - by rewrite Z.add_0_r.
  - rewrite IH. f_equal. lia.
Qed.

Lemma peek_poke (bs : list byte) : ∀ (m : gmap Z byte) a x,
  Ram.peek (Ram.poke m a bs) x
  = if decide (a <= x < a + Z.of_nat (length bs))
    then default x00 (bs !! Z.to_nat (x - a))
    else Ram.peek m x.
Proof.
  induction bs as [|b bs IH]; intros m a x; cbn [Ram.poke length].
  - rewrite decide_False by lia. done.
  - rewrite IH. destruct (decide (x = a)) as [->|Hne].
    + rewrite decide_False, decide_True by lia.
      rewrite Z.sub_diag. unfold Ram.peek, Ram.ram. by rewrite lookup_insert_eq.
    + destruct (decide (a + 1 <= x < a + 1 + Z.of_nat (length bs))).
      * rewrite decide_True by lia.
        replace (Z.to_nat (x - a)) with (S (Z.to_nat (x - (a + 1)))) by lia. done.
      * rewrite decide_False by lia. unfold Ram.peek, Ram.ram.
        by rewrite lookup_insert_ne.
Qed.

Lemma mem_bytes_poke m a (bs : list byte) :
  Ram.mem_bytes (Ram.poke m a bs) a (length bs) = bs.
Proof.
  apply list_eq. intros i. unfold Ram.mem_bytes.
  rewrite list_lookup_fmap.
  destruct (decide (i < length bs)%nat) as [Hi|Hi].
  - rewrite lookup_seq_lt by done. cbn. rewrite peek_poke, decide_True by lia.
    replace (Z.to_nat (a + Z.of_nat i - a)) with i by lia.
    destruct (lookup_lt_is_Some_2 bs i Hi) as [b ->]. done.
  - rewrite lookup_seq_ge by lia. by rewrite lookup_ge_None_2 by lia.
Qed.

Lemma mem_bytes_app m a n1 n2 :
  Ram.mem_bytes m a (n1 + n2)
  = Ram.mem_bytes m a n1 ++ Ram.mem_bytes m (a + Z.of_nat n1) n2.
Proof.
  unfold Ram.mem_bytes. rewrite seq_app, fmap_app. f_equal.
  cbn [Nat.add]. apply list_eq. intros i. rewrite !list_lookup_fmap.
  destruct (decide (i < n2)%nat).
  - rewrite !lookup_seq_lt by done. cbn. do 2 f_equal. lia.
  - by rewrite !lookup_seq_ge by lia.
Qed.

(** The commands of a chunked write, replayed on a memory, put the data
    where it belongs. *)
Lemma replay_chunk_writes k : ∀ a (data : bytes) m,
  0 <= a -> a + 251 * (Z.of_nat k - 1) < 4294967296 ->
  replay Ram.exchange (chunk_writes k a data) m
  = Ram.poke m a (take (251 * k) data).
Proof.
  induction k as [|k IH]; intros a data m Ha Hend; [done|].
  cbn [chunk_writes].
  change (replay Ram.exchange (?cmd :: ?cmds) m)
    with (replay Ram.exchange cmds (Ram.exchange cmd m).2).
  assert (Hex : (Ram.exchange (0xfc4c, le_bytes 4 a ++ take 251 data) m).2
                = Ram.poke m a (take 251 data)).
  { unfold Ram.exchange. rewrite decide_False by done. rewrite decide_True by done.
    cbn [snd]. rewrite take_app_length', drop_app_length' by (by rewrite length_le_bytes).
    rewrite le_value_le_bytes_4 by lia. done. }
  rewrite Hex, IH by lia.
  replace (251 * S k)%nat with (251 + 251 * k)%nat by lia.
  rewrite <- take_take_drop, poke_app.
  destruct (decide (251 <= length data)%nat).
  - rewrite length_take_le by lia. done.
  - rewrite (drop_ge data) by lia. by rewrite take_nil.
Qed.

(** The responses to a chunked read of a memory are its bytes. *)
Lemma collect_reads_ram k : ∀ a left m,
  0 <= a -> a + left <= 4294967296 -> 0 <= left ->
  k = Z.to_nat ((left + 250) / 251) ->
  collect_reads Ram.exchange (chunk_requests k a left) m
  = (Ram.mem_bytes m a (Z.to_nat left), m).
Proof.
  induction k as [|k IH]; intros a left m Ha Hend Hleft Hk.
  - assert (left = 0) as -> by (Z.div_mod_to_equations; lia). done.
  - assert ((left + 250) / 251 = Z.of_nat (S k)) as Hq by lia.
    assert (0 < left) by (clear Hk; Z.div_mod_to_equations; lia).
    cbn [chunk_requests collect_reads].
    rewrite ram_read by lia. rewrite le_value_le_bytes_4 by lia.
    cbn [response_data]. rewrite (slice_from_drop _ 4). cbn [drop app].
    destruct (decide (left <= 251)) as [Hsmall|Hlarge].
    + assert (k = 0%nat) as -> by (clear Hk; Z.div_mod_to_equations; lia).
      cbn [chunk_requests collect_reads]. rewrite Z.min_r, app_nil_r by lia. done.
    + rewrite IH; [|lia|lia|lia|clear Hk; Z.div_mod_to_equations; lia].
      rewrite Z.min_l by lia. f_equal.
      replace (Z.to_nat left) with (Z.to_nat 251 + Z.to_nat (left - 251))%nat by lia.
      rewrite mem_bytes_app. do 2 f_equal.
Qed.

(** X26: what [writeMem] has written, [readMem] reads back.  On a running
    session whose controller is a memory, [writeMem(a, data)] inside the
    address space returns [True], and [readMem(a, len(data))] after it
    returns [data], whatever the length: the chunks of the write and those
    of the read cover the same addresses.  The memory outside of
    [a .. a + len(data)) is as it was. *)
Theorem write_then_read_back a (data : bytes) (s : Session Ram.ram) :
  ses_running s = true -> ses_exit_requested s = false ->
  0 <= a -> a + Z.of_nat (length data) <= 4294967296 ->
  ∃ s1 s2,
    writeMem Ram.exchange a data s = (Ret (Some true), s1) ∧
    readMem Ram.exchange (S (length data)) a (Z.of_nat (length data)) s1
    = (Ret (Some data), s2) ∧
    ctrl s2 = Ram.poke (ctrl s) a data ∧
    ∀ x, ¬ (a <= x < a + Z.of_nat (length data)) ->
         Ram.peek (ctrl s2) x = Ram.peek (ctrl s) x.
Proof.
  intros Hrun Hexit Ha Hend.
  set (n := Z.of_nat (length data)).
  assert (Hn : 0 <= n) by (unfold n; lia).
  assert (Hk1 : 0 <= (n + 250) / 251 <= n) by (Z.div_mod_to_equations; lia).
  assert (Hk2 : n <= 251 * ((n + 250) / 251)) by (Z.div_mod_to_equations; lia).
  assert (Hk3 : 251 * ((n + 250) / 251 - 1) < n) by (Z.div_mod_to_equations; lia).
  destruct (writeMem_loop_accepted Ram.exchange (Z.to_nat ((n + 250) / 251))
              (S (length data)) data a 0 s) as (c' & Hloop);
    [exact ram_writes_accepted|done|done|lia|by rewrite Z.sub_0_r|unfold n in *; lia|].
  rewrite Z.add_0_r in Hloop. change (drop (Z.to_nat 0) data) with data in Hloop.
  destruct (writeMem_loop_replay _ _ _ _ _ _ _ _ Hloop) as (cmds & Htrace & Hctrl).
  cbn [hci_trace ctrl] in Htrace, Hctrl. apply app_inv_head in Htrace. subst cmds.
  rewrite replay_chunk_writes in Hctrl by lia.
  rewrite take_ge in Hctrl by (unfold n in *; lia). subst c'.
  set (s1 := mkSession _ _ _ _ _ _) in Hloop.
  assert (Hgot : collect_reads Ram.exchange (read_requests a n) (ctrl s1)
                 = (data, Ram.poke (ctrl s) a data)).
  { unfold read_requests. rewrite collect_reads_ram by (done || lia).
    change (Z.to_nat n) with (Z.to_nat (Z.of_nat (length data))).
    rewrite Nat2Z.id. cbn [ctrl s1]. by rewrite mem_bytes_poke. }
  destruct (readMem_full Ram.exchange (S (length data)) a n s1)
    as [Hread _]; [exact ram_full_blocks|done|done|done|done|lia|unfold n in *; lia|].
  rewrite Hgot in Hread. cbn [fst snd] in Hread.
  eexists s1, _. split_and!.
  - unfold writeMem. rewrite mbind_check_running by done. cbn [negb].
    unfold mbind. by rewrite Hloop.
  - exact Hread.
  - done.
  - intros x Hx. cbn [ctrl]. rewrite peek_poke. by rewrite decide_False.
Qed.

(** 600 bytes written to 0x200000 and read back: three chunks each way. *)
Lemma write_then_read_back_witness :
  let data := replicate 300 xa5 ++ replicate 300 x5a in
  ∃ s1 s2,
    writeMem Ram.exchange 0x200000 data (Ram.session ∅) = (Ret (Some true), s1) ∧
    readMem Ram.exchange 601 0x200000 600 s1 = (Ret (Some data), s2) ∧
    ctrl s2 = Ram.poke ∅ 0x200000 data ∧
    ∀ x, ¬ (0x200000 <= x < 0x200000 + 600) ->
         Ram.peek (ctrl s2) x = Ram.peek (∅ : Ram.ram) x.
Proof.
  intros data.
  apply (write_then_read_back 0x200000 data (Ram.session ∅)).
  - reflexivity.
  - reflexivity.
  - lia.
  - vm_compute. discriminate.
Defined.
